(** * PCR7500 attestation channel: the receiver daemon and its wire format

    A shallow embedding of [zymbit_image/scripts/files/attestation_daemon.py]
    (the attestation daemon) and of the sending side of
    [7500FastXP/service.py], with the properties of the specification
    stated and proved over it.

    Conventions.
    - A Python [bytes] value is a [list byte]; a Python [str] is the list of
      its code points ([text], a [list Z]).
    - Code that raises returns in the monad [M]: a computation maps a
      [world] (file system, sockets, clock, trace of system calls) to an
      outcome, [Ok v] or [Raise e], and the world it leaves behind.
    - Paths are compared as written: the file system model does not
      normalise [.], [..] or repeated separators. *)

From Stdlib Require Import ZArith Lia List Strings.Byte String Ascii.
From stdpp Require Import gmap strings list.

Local Open Scope Z_scope.

(** ** Bytes and text *)

Abbreviation bytes := (list byte).

(** A Python [str]: the sequence of its code points. *)
Abbreviation text := (list Z).

#[global] Instance byte_eq_decision : EqDecision byte := Byte.byte_eq_dec.

Definition Z_of_byte (b : byte) : Z := Z.of_N (Byte.to_N b).

Definition byte_of_Z (z : Z) : byte :=
  match Byte.of_N (Z.to_N (z mod 256)) with
  | Some b => b
  | None => x00
  end.

(** A [str] literal: the code points of an ASCII string. *)
Definition py_str (s : string) : text :=
  map (fun a => Z.of_N (N_of_ascii a)) (list_ascii_of_string s).

(** A [bytes] literal. *)
Definition py_bytes (s : string) : bytes := list_byte_of_string s.

Definition len {A} (l : list A) : Z := Z.of_nat (length l).

(** Python's slices [l[:n]] and [l[n:]] for [0 <= n]. *)
Definition slice_to {A} (n : Z) (l : list A) : list A := take (Z.to_nat n) l.
Definition slice_from {A} (n : Z) (l : list A) : list A := drop (Z.to_nat n) l.

(** ** Exceptions

    The exception classes the daemon meets, with the part of Python's class
    hierarchy its [except] clauses depend on. *)

Inductive exn : Type :=
| AttestationDaemonError   (* the daemon's own class, a subclass of Exception *)
| RuntimeError
| ValueError
| UnicodeDecodeError       (* a subclass of ValueError *)
| UnicodeEncodeError       (* a subclass of ValueError *)
| TypeError
| InvalidKey               (* cryptography.exceptions.InvalidKey *)
| UnsupportedAlgorithm     (* cryptography.exceptions.UnsupportedAlgorithm *)
| StructError              (* struct.error *)
| OSError
| FileNotFoundError        (* subclasses of OSError *)
| FileExistsError
| IsADirectoryError
| NotADirectoryError
| KeyboardInterrupt.       (* a BaseException that is not an Exception *)

(** [isinstance(e, Exception)]. *)
Definition is_Exception (e : exn) : bool :=
  match e with
  | KeyboardInterrupt => false
  | _ => true
  end.

(** [isinstance(e, OSError)]. *)
Definition is_OSError (e : exn) : bool :=
  match e with
  | OSError | FileNotFoundError | FileExistsError
  | IsADirectoryError | NotADirectoryError => true
  | _ => false
  end.

(** [isinstance(e, ValueError)]. *)
Definition is_ValueError (e : exn) : bool :=
  match e with
  | ValueError | UnicodeDecodeError | UnicodeEncodeError => true
  | _ => false
  end.

#[global] Instance exn_eq_decision : EqDecision exn.
Proof. solve_decision. Defined.

Inductive result (A : Type) : Type :=
| Ok (a : A)
| Raise (e : exn).
Arguments Ok {A} a.
Arguments Raise {A} e.

(** ** UTF-8, as [str.encode('utf-8')] and [bytes.decode('utf-8')] do it

    Both are strict: a surrogate code point does not encode, and overlong
    forms, surrogates and values above U+10FFFF do not decode. *)

Definition is_surrogate (c : Z) : bool := (0xD800 <=? c) && (c <=? 0xDFFF).

(** A code point that encodes: a Unicode scalar value. *)
Definition is_scalar (c : Z) : bool :=
  (0 <=? c) && (c <=? 0x10FFFF) && negb (is_surrogate c).

(** "Valid text": every code point is a scalar value. *)
Definition valid_text (t : text) : Prop := Forall (fun c => is_scalar c = true) t.

Definition utf8_encode_char (c : Z) : option bytes :=
  if negb (is_scalar c) then None
  else if c <? 0x80 then Some [byte_of_Z c]
  else if c <? 0x800 then
    Some [byte_of_Z (0xC0 + c / 64); byte_of_Z (0x80 + c mod 64)]
  else if c <? 0x10000 then
    Some [byte_of_Z (0xE0 + c / 4096); byte_of_Z (0x80 + (c / 64) mod 64);
          byte_of_Z (0x80 + c mod 64)]
  else
    Some [byte_of_Z (0xF0 + c / 262144); byte_of_Z (0x80 + (c / 4096) mod 64);
          byte_of_Z (0x80 + (c / 64) mod 64); byte_of_Z (0x80 + c mod 64)].

Fixpoint utf8_encode (t : text) : result bytes :=
  match t with
  | [] => Ok []
  | c :: t' =>
      match utf8_encode_char c with
      | None => Raise UnicodeEncodeError
      | Some bs =>
          match utf8_encode t' with
          | Ok r => Ok (bs ++ r)
          | Raise e => Raise e
          end
      end
  end.

(** A continuation byte, [10xxxxxx]. *)
Definition is_cont (z : Z) : bool := (0x80 <=? z) && (z <=? 0xBF).

(** [bytes.decode('utf-8')]: one to four bytes per code point. *)
Fixpoint utf8_decode (bs : bytes) : result text :=
  let cons c r :=
    match r with
    | Ok t => Ok (c :: t)
    | Raise e => Raise e
    end in
  match bs with
  | [] => Ok []
  | b0 :: r0 =>
      let z0 := Z_of_byte b0 in
      if z0 <? 0x80 then cons z0 (utf8_decode r0)
      else if z0 <? 0xC2 then Raise UnicodeDecodeError
      else
        match r0 with
        | [] => Raise UnicodeDecodeError
        | b1 :: r1 =>
            let z1 := Z_of_byte b1 in
            if negb (is_cont z1) then Raise UnicodeDecodeError
            else if z0 <? 0xE0 then
              cons ((z0 - 0xC0) * 64 + (z1 - 0x80)) (utf8_decode r1)
            else
              match r1 with
              | [] => Raise UnicodeDecodeError
              | b2 :: r2 =>
                  let z2 := Z_of_byte b2 in
                  if negb (is_cont z2) then Raise UnicodeDecodeError
                  else if z0 <? 0xF0 then
                    let c := (z0 - 0xE0) * 4096 + (z1 - 0x80) * 64 + (z2 - 0x80) in
                    if (0x800 <=? c) && negb (is_surrogate c)
                    then cons c (utf8_decode r2)
                    else Raise UnicodeDecodeError
                  else
                    match r2 with
                    | [] => Raise UnicodeDecodeError
                    | b3 :: r3 =>
                        let z3 := Z_of_byte b3 in
                        let c := (z0 - 0xF0) * 262144 + (z1 - 0x80) * 4096
                                 + (z2 - 0x80) * 64 + (z3 - 0x80) in
                        if is_cont z3 && (z0 <? 0xF5)
                           && (0x10000 <=? c) && (c <=? 0x10FFFF)
                        then cons c (utf8_decode r3)
                        else Raise UnicodeDecodeError
                    end
              end
        end
  end.

(** ** Big-endian integers: [struct.pack("!I", n)], [struct.unpack("!I", b)]
    and the length octets of the structured encoding *)

(** [int.from_bytes(bs, 'big')]. *)
Definition int_from_bytes (bs : bytes) : Z :=
  fold_left (fun acc b => acc * 256 + Z_of_byte b) bs 0.

(** The [n] low-order base-256 digits of [v], most significant first. *)
Fixpoint be_digits (n : nat) (v : Z) : bytes :=
  match n with
  | O => []
  | S n' => be_digits n' (v / 256) ++ [byte_of_Z (v mod 256)]
  end.

(** The number of base-256 digits of [v]; [fuel] bounds the count. *)
Fixpoint byte_width (fuel : nat) (v : Z) : nat :=
  match fuel with
  | O => O
  | S fuel' => if v <=? 0 then O else S (byte_width fuel' (v / 256))
  end.

(** [int_to_bytes(v)] for [0 < v]: the minimal big-endian form. *)
Definition int_to_bytes (v : Z) : bytes :=
  be_digits (byte_width (Z.to_nat (Z.log2 v) + 1) v) v.

(** [struct.pack("!I", n)], which raises [struct.error] out of range. *)
Definition struct_pack_I (n : Z) : result bytes :=
  if (0 <=? n) && (n <? 2 ^ 32) then Ok (be_digits 4 n) else Raise StructError.

(** [struct.unpack("!I", b)[0]] on a four-byte [b]. *)
Definition struct_unpack_I (b : bytes) : Z := int_from_bytes b.

(** ** The structured record: asn1crypto's [Sequence], [UTF8String] and
    [OctetString]

    Modelled from the spec: [FileContainer] derives from the [Sequence] class
    of the asn1crypto package, which is a dependency and not a file of the
    repository. Section 6 fixes the format, an ASN.1 DER-style SEQUENCE of a
    UTF-8 string and an octet string; [dump] writes DER, and [load] reads it
    the way that package's parser does: definite and indefinite lengths,
    trailing bytes after the record ignored, further elements after the two
    fields kept and ignored. *)

Definition TAG_SEQUENCE : Z := 16.
Definition TAG_UTF8String : Z := 12.
Definition TAG_OctetString : Z := 4.

(** The length a Python [str] or [bytes] object can have,
    [sys.maxsize]. *)
Definition PY_SSIZE_T_MAX : Z := 2 ^ 63 - 1.

(** The bound under which the length octets fit their count octet. *)
Definition DER_MAX : Z := 256 ^ 126.

(** The identifier and length octets in front of [contents]. *)
Definition _dump_header (class_ method tag : Z) (contents : bytes) : bytes :=
  let id_octet := byte_of_Z (class_ * 64 + method * 32 + tag) in
  let length := len contents in
  if length <=? 127 then [id_octet; byte_of_Z length]
  else
    let length_bytes := int_to_bytes length in
    id_octet :: byte_of_Z (128 + len length_bytes) :: length_bytes.

Definition dump_value (method tag : Z) (contents : bytes) : bytes :=
  _dump_header 0 method tag contents ++ contents.

(** What the parser knows of one element: class, method (0 primitive,
    1 constructed), tag number, contents, and the end-of-contents trailer of
    an indefinite-length element. *)
Record parts : Type := mk_parts {
  p_class : Z;
  p_method : Z;
  p_tag : Z;
  p_contents : bytes;
  p_trailer : bytes
}.

(** The octets of a tag number above 30, seven bits each. *)
Fixpoint parse_high_tag (data : bytes) (tag : Z) : result (Z * bytes) :=
  match data with
  | [] => Raise ValueError
  | b :: r =>
      let num := Z_of_byte b in
      if (num =? 128) && (tag =? 0) then Raise ValueError
      else
        let tag' := tag * 128 + num mod 128 in
        if num / 128 =? 0 then Ok (tag', r) else parse_high_tag r tag'
  end.

(** The two zero octets that close an indefinite-length element. *)
Definition at_end_of_contents (data : bytes) : bool :=
  match data with
  | a :: b :: _ => (Z_of_byte a =? 0) && (Z_of_byte b =? 0)
  | _ => false
  end.

Definition _MAX_DEPTH : nat := 10.

(** The tag number: the low five bits of the first octet, or the octets
    that follow it when those bits are all set. *)
Definition parse_tag (first_octet : Z) (r0 : bytes) : result (Z * bytes) :=
  if first_octet mod 32 =? 31 then
    match parse_high_tag r0 0 with
    | Ok (t, r) => if t <? 31 then Raise ValueError else Ok (t, r)
    | Raise e => Raise e
    end
  else Ok (first_octet mod 32, r0).

(** The element once its length is known: [n] bytes of [body] and the
    trailer must be there. *)
Definition element (first_octet tag header_len : Z) (body : bytes) (n : Z)
    (trailer : bytes) : result (parts * Z) :=
  if len body <? n + len trailer then Raise ValueError
  else Ok (mk_parts (first_octet / 64) ((first_octet / 32) mod 2) tag
             (slice_to n body) trailer,
           header_len + n + len trailer).

(** The contents of an indefinite-length element end where, after whole
    nested elements, the two zero octets stand; [n] counts the bytes before
    them. *)
Fixpoint scan_contents (nested : bytes -> result (parts * Z)) (fuel : nat)
    (cur : bytes) (n : Z) : result Z :=
  if at_end_of_contents cur then Ok n
  else
    match fuel with
    | O => Raise ValueError
    | S fuel' =>
        match nested cur with
        | Raise e => Raise e
        | Ok (_, k) => scan_contents nested fuel' (slice_from k cur) (n + k)
        end
    end.

(** One call of [_parse], with [nested] for its calls of itself one level
    deeper: the element at the head of [data] and the number of bytes it
    occupies. *)
Definition parse_with (nested : bytes -> result (parts * Z)) (data : bytes)
  : result (parts * Z) :=
  match data with
  | [] => Raise ValueError
  | b0 :: r0 =>
      let first_octet := Z_of_byte b0 in
      match parse_tag first_octet r0 with
      | Raise e => Raise e
      | Ok (tag, r1) =>
          match r1 with
          | [] => Raise ValueError
          | bl :: r2 =>
              let length_octet := Z_of_byte bl in
              let header_len := len data - len r2 in
              if length_octet / 128 =? 0 then
                element first_octet tag header_len r2 (length_octet mod 128) []
              else
                let length_octets := length_octet mod 128 in
                if negb (length_octets =? 0) then
                  if len r2 <? length_octets then Raise ValueError
                  else
                    element first_octet tag (header_len + length_octets)
                      (slice_from length_octets r2)
                      (int_from_bytes (slice_to length_octets r2)) []
                else if (first_octet / 32) mod 2 =? 0 then Raise ValueError
                else
                  match scan_contents nested (S (length r2)) r2 0 with
                  | Raise e => Raise e
                  | Ok n => element first_octet tag header_len r2 n [x00; x00]
                  end
          end
      end
  end.

(** [_parse]: [depth_left] counts the nesting of indefinite lengths the
    parser still allows. *)
Fixpoint _parse (depth_left : nat) (data : bytes) {struct depth_left}
  : result (parts * Z) :=
  match depth_left with
  | O => Raise ValueError
  | S depth_left' => parse_with (_parse depth_left') data
  end.

(** A parser takes its element from the head of the input: the bytes it
    counts cover the header and the contents, and are there. *)
Definition consumes (parse : bytes -> result (parts * Z)) : Prop :=
  forall (data : bytes) (p : parts) (k : Z),
    parse data = Ok (p, k) -> 2 + len (p_contents p) <= k <= len data.

(** A top-level call of [_parse] starts at depth 0 and may go to depth
    [_MAX_DEPTH]. *)
Definition parse_element (data : bytes) : result (parts * Z) :=
  _parse (S _MAX_DEPTH) data.

(** [_build] against a universal-class specification with method
    [spec_method] and tag [spec_tag]: the class, method and tag checks. A
    primitive string type ([constructable]) is also accepted as a
    constructed element of indefinite length. The result tells whether the
    value is of that indefinite form, and gives its contents. *)
Definition _build (spec_method spec_tag : Z) (constructable : bool) (p : parts)
  : result (bool * bytes) :=
  if negb (p_class p =? 0) then Raise ValueError
  else
    let ber_indef :=
      (p_method p =? 1) && (spec_method =? 0)
      && bool_decide (p_trailer p = [x00; x00]) in
    if negb (p_method p =? spec_method) && negb (ber_indef && constructable)
    then Raise ValueError
    else if negb (p_tag p =? spec_tag) then Raise ValueError
    else Ok (negb (p_method p =? spec_method), p_contents p).

(** [_parse_children] of a two-field [Sequence]: every element of the
    contents is parsed; fewer than two is an error, more are kept. *)
Fixpoint parse_elements (fuel : nat) (contents : bytes) : result (list parts) :=
  match contents with
  | [] => Ok []
  | _ :: _ =>
      match fuel with
      | O => Raise ValueError
      | S fuel' =>
          match parse_element contents with
          | Raise e => Raise e
          | Ok (p, k) =>
              match parse_elements fuel' (slice_from k contents) with
              | Raise e => Raise e
              | Ok ps => Ok (p :: ps)
              end
          end
      end
  end.

Definition _parse_children (contents : bytes) : result (list parts) :=
  match parse_elements (length contents) contents with
  | Raise e => Raise e
  | Ok ps => if (length ps <? 2)%nat then Raise ValueError else Ok ps
  end.

(** [_merge_chunks] of a string value of the indefinite form: the
    concatenation of the chunks its contents hold, each a string of the same
    type. *)
Fixpoint _merge_chunks (fuel : nat) (spec_tag : Z) (contents : bytes)
  : result bytes :=
  match contents with
  | [] => Ok []
  | _ :: _ =>
      match fuel with
      | O => Raise ValueError
      | S fuel' =>
          match parse_element contents with
          | Raise e => Raise e
          | Ok (p, k) =>
              match _build 0 spec_tag true p with
              | Raise e => Raise e
              | Ok (indefinite, c) =>
                  let chunk :=
                    if indefinite then _merge_chunks fuel' spec_tag c else Ok c in
                  match chunk with
                  | Raise e => Raise e
                  | Ok chunk =>
                      match _merge_chunks fuel' spec_tag (slice_from k contents) with
                      | Raise e => Raise e
                      | Ok r => Ok (chunk ++ r)
                      end
                  end
              end
          end
      end
  end.

(** The bytes of a string field: [_build] against its type, then the
    contents, merged when of the indefinite form. *)
Definition string_field (spec_tag : Z) (p : parts) : result bytes :=
  match _build 0 spec_tag true p with
  | Raise e => Raise e
  | Ok (indefinite, c) =>
      if indefinite then _merge_chunks (length c) spec_tag c else Ok c
  end.

(** ** The file container (attestation_daemon.py, service.py) *)

(** [create_file_container]: the DER dump of the two fields. *)
Definition create_file_container (filename : text) (data : bytes) : result bytes :=
  match utf8_encode filename with
  | Raise e => Raise e
  | Ok name =>
      Ok (dump_value 1 TAG_SEQUENCE
            (dump_value 0 TAG_UTF8String name
             ++ dump_value 0 TAG_OctetString data))
  end.

(** [parse_file_container]: [load], then the [native] value of the field
    [filename], then that of the field [data]. *)
Definition parse_file_container (der_bytes : bytes) : result (text * bytes) :=
  match parse_element der_bytes with
  | Raise e => Raise e
  | Ok (top, _) =>
      match _build 1 TAG_SEQUENCE false top with
      | Raise e => Raise e
      | Ok (_, contents) =>
          match _parse_children contents with
          | Raise e => Raise e
          | Ok children =>
              match children with
              | c0 :: c1 :: _ =>
                  match string_field TAG_UTF8String c0 with
                  | Raise e => Raise e
                  | Ok name =>
                      match utf8_decode name with
                      | Raise e => Raise e
                      | Ok filename =>
                          match string_field TAG_OctetString c1 with
                          | Raise e => Raise e
                          | Ok data => Ok (filename, data)
                          end
                      end
                  end
              | _ => Raise ValueError
              end
          end
      end
  end.

(** The message the producer writes (service.py, [main]): the length of the
    record as four big-endian bytes, then the record. *)
Definition wire_message (filename : text) (data : bytes) : result bytes :=
  match create_file_container filename data with
  | Raise e => Raise e
  | Ok container_der =>
      match struct_pack_I (len container_der) with
      | Raise e => Raise e
      | Ok prefix => Ok (prefix ++ container_der)
      end
  end.

(** ** Paths: [os.path.join], [os.path.split], [str(int)] *)

Definition SEP : Z := 47.

Definition starts_with_sep (p : text) : bool :=
  match p with
  | c :: _ => c =? SEP
  | [] => false
  end.

Definition ends_with_sep (p : text) : bool := starts_with_sep (rev p).

(** [os.path.join(a, b)]: an absolute [b] replaces [a]. *)
Definition os_path_join (a b : text) : text :=
  if starts_with_sep b then b
  else if bool_decide (a = []) || ends_with_sep a then a ++ b
  else a ++ [SEP] ++ b.

(** The longest prefix without a separator, and what follows it. *)
Fixpoint take_name (p : text) : text :=
  match p with
  | [] => []
  | c :: r => if c =? SEP then [] else c :: take_name r
  end.

Fixpoint drop_name (p : text) : text :=
  match p with
  | [] => []
  | c :: r => if c =? SEP then p else drop_name r
  end.

Fixpoint lstrip_sep (p : text) : text :=
  match p with
  | [] => []
  | c :: r => if c =? SEP then lstrip_sep r else p
  end.

(** [os.path.split(p)]: head and tail around the last separator; the head
    loses its trailing separators unless it is made of separators only. *)
Definition os_path_split (p : text) : text * text :=
  let rp := rev p in
  let head_rev := drop_name rp in
  let head_rev' :=
    match lstrip_sep head_rev with
    | [] => head_rev
    | stripped => stripped
    end in
  (rev head_rev', rev (take_name rp)).

Definition os_path_dirname (p : text) : text := fst (os_path_split p).

(** The decimal digits of [n], pushed in front of [acc]. *)
Fixpoint str_digits (fuel : nat) (n : Z) (acc : text) : text :=
  let acc' := (48 + n mod 10) :: acc in
  match fuel with
  | O => acc'
  | S fuel' => if n <? 10 then acc' else str_digits fuel' (n / 10) acc'
  end.

(** [str(z)] for an integer [z]. *)
Definition str_int (z : Z) : text :=
  if z <? 0 then 45 :: str_digits (Z.to_nat (Z.log2 (- z))) (- z) []
  else str_digits (Z.to_nat (Z.log2 z)) z [].

(** ** The world the daemon runs in *)

Inductive node : Type :=
| Dir
| File (content : bytes)
| Sock.

(** The state of an accepted connection: the chunks the peer still
    delivers before it closes its end, and whether [close] was called. *)
Record conn_state : Type := mk_conn {
  pending : list bytes;
  closed : bool
}.

(** The system calls and the output a run leaves behind, oldest first. *)
Inductive event : Type :=
| EvUnlink (p : text)
| EvOpenRead (p : text)
| EvOpenWrite (p : text)
| EvMakedirs (p : text)
| EvBind (p : text)
| EvListen
| EvAccept (conn : nat)
| EvConnClose (conn : nat)
| EvServerClose
| EvPrint (line : text).

#[global] Instance event_eq_decision : EqDecision event.
Proof. solve_decision. Defined.

Record world : Type := mk_world {
  fs : gmap text node;          (* the file system, by path *)
  clock : Z;                    (* int(time.time()) *)
  entropy : list bytes;         (* the seeds key generation will draw *)
  conns : list conn_state;      (* the accepted connections, by number *)
  trace : list event
}.

Definition set_fs (f : gmap text node) (w : world) : world :=
  mk_world f (clock w) (entropy w) (conns w) (trace w).
Definition set_clock (t : Z) (w : world) : world :=
  mk_world (fs w) t (entropy w) (conns w) (trace w).
Definition set_entropy (s : list bytes) (w : world) : world :=
  mk_world (fs w) (clock w) s (conns w) (trace w).
Definition set_conns (c : list conn_state) (w : world) : world :=
  mk_world (fs w) (clock w) (entropy w) c (trace w).
Definition log_event (e : event) (w : world) : world :=
  mk_world (fs w) (clock w) (entropy w) (conns w) (trace w ++ [e]).

(** ** Computations that may raise *)

Definition M (A : Type) : Type := world -> result A * world.

Definition ret {A} (a : A) : M A := fun w => (Ok a, w).

Definition raise {A} (e : exn) : M A := fun w => (Raise e, w).

Definition bind {A B} (m : M A) (k : A -> M B) : M B :=
  fun w =>
    match m w with
    | (Ok a, w') => k a w'
    | (Raise e, w') => (Raise e, w')
    end.

Notation "'let*' x ':=' m 'in' k" := (bind m (fun x => k))
  (at level 10, x pattern, m at level 100, k at level 200).
Notation "m ';;;' k" := (bind m (fun _ => k))
  (at level 100, k at level 200, right associativity).

Definition lift {A} (r : result A) : M A := fun w => (r, w).

Definition emit (e : event) : M unit := fun w => (Ok tt, log_event e w).

Definition print (line : text) : M unit := emit (EvPrint line).

(** [try: body except ...: handler], where [handler e] is [None] when no
    clause matches [e]. *)
Definition try_except {A} (body : M A) (handler : exn -> option (M A)) : M A :=
  fun w =>
    match body w with
    | (Ok a, w') => (Ok a, w')
    | (Raise e, w') =>
        match handler e with
        | Some h => h w'
        | None => (Raise e, w')
        end
    end.

(** [try: body finally: final]: [final] runs on either path, and the
    outcome of [body] stands unless [final] raises. *)
Definition try_finally {A} (body : M A) (final : M unit) : M A :=
  fun w =>
    match body w with
    | (r, w') =>
        match final w' with
        | (Ok _, w'') => (r, w'')
        | (Raise e, w'') => (Raise e, w'')
        end
    end.

(** Every exception [m] raises satisfies [P]. *)
Definition raises_in {A} (P : exn -> bool) (m : M A) : Prop :=
  forall (w w' : world) (e : exn), m w = (Raise e, w') -> P e = true.

(** [m] relates the world it starts in to the one it leaves by [R]. *)
Definition keeps {A} (R : world -> world -> Prop) (m : M A) : Prop :=
  forall (w w' : world) (r : result A), m w = (r, w') -> R w w'.

(** ** The file system *)

Definition ROOT : text := [SEP].

Definition node_at (f : gmap text node) (p : text) : option node :=
  if bool_decide (p = ROOT) then Some Dir else f !! p.

(** [os.path.exists] *)
Definition path_exists (f : gmap text node) (p : text) : bool :=
  match node_at f p with
  | Some _ => true
  | None => false
  end.

(** [os.path.isdir] *)
Definition path_isdir (f : gmap text node) (p : text) : bool :=
  match node_at f p with
  | Some Dir => true
  | _ => false
  end.

(** Whether a name can be created in the directory [p]; the empty path is
    the current directory. *)
Definition dir_usable (f : gmap text node) (p : text) : bool :=
  bool_decide (p = []) || path_isdir f p.

(** The error of an attempt to create an entry under a path that is not
    a directory. *)
Definition missing_dir_error (f : gmap text node) (p : text) : exn :=
  if path_exists f p then NotADirectoryError else FileNotFoundError.

Definition has_nul (p : text) : bool := existsb (Z.eqb 0) p.

Definition os_path_exists (p : text) : M bool :=
  fun w => (Ok (path_exists (fs w) p), w).

(** [with open(p, "wb") as f: f.write(content)] *)
Definition write_file (p : text) (content : bytes) : M unit :=
  emit (EvOpenWrite p) ;;;
  fun w =>
    let f := fs w in
    if has_nul p then (Raise ValueError, w)
    else if bool_decide (p = []) then (Raise FileNotFoundError, w)
    else
      match node_at f p with
      | Some Dir => (Raise IsADirectoryError, w)
      | Some Sock => (Raise OSError, w)
      | Some (File _) => (Ok tt, set_fs (<[p := File content]> f) w)
      | None =>
          if ends_with_sep p then (Raise (missing_dir_error f (os_path_dirname p)), w)
          else if dir_usable f (os_path_dirname p)
          then (Ok tt, set_fs (<[p := File content]> f) w)
          else (Raise (missing_dir_error f (os_path_dirname p)), w)
      end.

(** [with open(p, "rb") as f: f.read()] *)
Definition read_file (p : text) : M bytes :=
  emit (EvOpenRead p) ;;;
  fun w =>
    if has_nul p then (Raise ValueError, w)
    else
      match node_at (fs w) p with
      | Some (File c) => (Ok c, w)
      | Some Dir => (Raise IsADirectoryError, w)
      | Some Sock => (Raise OSError, w)
      | None => (Raise FileNotFoundError, w)
      end.

(** [os.remove(p)] *)
Definition os_remove (p : text) : M unit :=
  emit (EvUnlink p) ;;;
  fun w =>
    match node_at (fs w) p with
    | Some Dir => (Raise IsADirectoryError, w)
    | Some _ => (Ok tt, set_fs (delete p (fs w)) w)
    | None => (Raise FileNotFoundError, w)
    end.

(** [os.mkdir(p)] *)
Definition mkdir (p : text) (f : gmap text node) : result (gmap text node) :=
  if has_nul p then Raise ValueError
  else if bool_decide (p = []) then Raise FileNotFoundError
  else if path_exists f p then Raise FileExistsError
  else if dir_usable f (os_path_dirname p) then Ok (<[p := Dir]> f)
  else Raise (missing_dir_error f (os_path_dirname p)).

(** [os.makedirs(name, exist_ok=True)], on the file system alone: the
    missing ancestors first, then [name]; an [OSError] of the last [mkdir]
    is dropped when [name] is a directory. *)
Fixpoint makedirs (fuel : nat) (name : text) (f : gmap text node)
  : result (gmap text node) :=
  match fuel with
  | O => Raise OSError
  | S fuel' =>
      let (head0, tail0) := os_path_split name in
      let (head, tail) :=
        if bool_decide (tail0 = []) then os_path_split head0 else (head0, tail0) in
      let last (f1 : gmap text node) :=
        match mkdir name f1 with
        | Ok f2 => Ok f2
        | Raise e =>
            if is_OSError e && path_isdir f1 name then Ok f1 else Raise e
        end in
      if negb (bool_decide (head = [])) && negb (bool_decide (tail = []))
         && negb (path_exists f head)
      then
        match makedirs fuel' head f with
        | Raise e =>
            if bool_decide (e = FileExistsError)
            then if bool_decide (tail = [46]) then Ok f else last f
            else Raise e
        | Ok f1 => if bool_decide (tail = [46]) then Ok f1 else last f1
        end
      else last f
  end.

Definition os_makedirs (name : text) : M unit :=
  emit (EvMakedirs name) ;;;
  fun w =>
    match makedirs (S (length name)) name (fs w) with
    | Ok f => (Ok tt, set_fs f w)
    | Raise e => (Raise e, w)
    end.

(** ** Sockets *)

(** [server.bind(p)] on a Unix domain socket: the path must be free. *)
Definition sock_bind (p : text) : M unit :=
  emit (EvBind p) ;;;
  fun w =>
    let f := fs w in
    if has_nul p then (Raise ValueError, w)
    else if path_exists f p then (Raise OSError, w)
    else if negb (bool_decide (p = [])) && dir_usable f (os_path_dirname p)
    then (Ok tt, set_fs (<[p := Sock]> f) w)
    else (Raise FileNotFoundError, w).

Definition sock_listen : M unit := emit EvListen.

Definition server_close : M unit := emit EvServerClose.

(** One connection as the environment provides it: the clock while it is
    handled, and the chunks its peer sends before closing. *)
Record arrival : Type := mk_arrival {
  arrival_time : Z;
  arrival_chunks : list bytes
}.

(** [server.accept()], given the connection that arrives. *)
Definition sock_accept (a : arrival) : M nat :=
  fun w =>
    let c := length (conns w) in
    (Ok c,
     log_event (EvAccept c)
       (set_clock (arrival_time a)
          (set_conns (conns w ++ [mk_conn (arrival_chunks a) false]) w))).

(** What one [recv(bufsize)] returns from the chunks in flight, and what
    stays: at most [bufsize] bytes of the first chunk that is not empty;
    nothing once the peer has closed. *)
Fixpoint recv_chunks (bufsize : Z) (chunks : list bytes) : bytes * list bytes :=
  match chunks with
  | [] => ([], [])
  | [] :: rest => recv_chunks bufsize rest
  | chunk :: rest =>
      if len chunk <=? bufsize then (chunk, rest)
      else (slice_to bufsize chunk, slice_from bufsize chunk :: rest)
  end.

(** [sock.recv(bufsize)] *)
Definition sock_recv (sock : nat) (bufsize : Z) : M bytes :=
  fun w =>
    match conns w !! sock with
    | None => (Raise OSError, w)
    | Some c =>
        if closed c then (Raise OSError, w)
        else
          let (chunk, rest) := recv_chunks bufsize (pending c) in
          (Ok chunk, set_conns (<[sock := mk_conn rest false]> (conns w)) w)
    end.

(** [conn.close()] *)
Definition sock_close (sock : nat) : M unit :=
  fun w =>
    match conns w !! sock with
    | None => (Ok tt, log_event (EvConnClose sock) w)
    | Some c =>
        (Ok tt,
         log_event (EvConnClose sock)
           (set_conns (<[sock := mk_conn (pending c) true]> (conns w)) w))
    end.

Definition time_time : M Z := fun w => (Ok (clock w), w).

(** The bytes an open connection still delivers before its peer closes. *)
Definition stream_of (w : world) (sock : nat) : option bytes :=
  match conns w !! sock with
  | Some c => if closed c then None else Some (concat (pending c))
  | None => None
  end.

(** The connection [i] has been closed by the daemon. *)
Definition closed_at (w : world) (i : nat) : Prop :=
  exists c : conn_state, conns w !! i = Some c /\ closed c = true.

(** No connection is added, and a closed one stays closed. *)
Definition conns_steady (w w' : world) : Prop :=
  length (conns w') = length (conns w)
  /\ forall i : nat, closed_at w i -> closed_at w' i.

(** A message cut short: the peer closes before the four prefix bytes, or
    before the record bytes the prefix announces. *)
Definition truncated (total : bytes) : Prop :=
  len total < 4 \/ len total < 4 + struct_unpack_I (slice_to 4 total).

(** [w'] differs from [w] at most in the state of the connection [sock]. *)
Definition conn_frame (sock : nat) (w w' : world) : Prop :=
  fs w' = fs w /\ clock w' = clock w /\ entropy w' = entropy w
  /\ trace w' = trace w /\ length (conns w') = length (conns w)
  /\ forall j : nat, j <> sock -> conns w' !! j = conns w !! j.

(** ** The libraries outside the repository

    The Ed25519 functions of the cryptography package, [base64.b64encode]
    and [hashlib.sha256] are not code of the repository; the daemon is
    modelled over any implementation of them. An Ed25519 private key is
    its seed. *)

(** What [serialization.load_pem_private_key] makes of a file. *)
Inductive loaded : Type :=
| LoadedEd25519 (key : bytes)   (* an Ed25519PrivateKey *)
| LoadedOther                   (* a private key of another algorithm *)
| LoadRaises (e : exn).

Class Libraries : Type := {
  sign : bytes -> bytes -> bytes;           (* private_key.sign(data) *)
  private_bytes : bytes -> bytes;           (* PEM, PKCS8, NoEncryption *)
  public_bytes : bytes -> bytes;            (* of public_key(): PEM, SPKI *)
  load_pem_private_key : bytes -> loaded;
  b64encode : bytes -> bytes;
  sha256_hexdigest : bytes -> text
}.

(** ** attestation_daemon.py *)

Section Daemon.

Context `{Libraries}.

Definition SOCKET_PATH : text := py_str "/tmp/org.causality.attestation".

Definition OUTPUT_BASE_DIR : text := py_str "/var/lib/attestation_results".

Definition SIGNING_KEY_PATH : text :=
  py_str "/var/lib/pcr_attestation_keys/signing_key.pem".

(** [Ed25519PrivateKey.generate()]: the next seed of the entropy source. *)
Definition generate : M bytes :=
  fun w =>
    match entropy w with
    | seed :: rest => (Ok seed, set_entropy rest w)
    | [] => (Ok [], w)
    end.

Definition save_private_key (private_key : bytes) (key_path : text) : M unit :=
  write_file key_path (private_bytes private_key).

Definition save_public_key (private_key : bytes) (output_dir : text) : M unit :=
  os_makedirs output_dir ;;;
  let public_key_path := os_path_join output_dir (py_str "signing_key.pub.pem") in
  write_file public_key_path (public_bytes private_key).

Definition get_signing_key (key_path : text) : M bytes :=
  let* present := os_path_exists key_path in
  if (present : bool) then
    try_except
      (let* pem := read_file key_path in
       match load_pem_private_key pem with
       | LoadedEd25519 key => ret key
       | LoadedOther => raise AttestationDaemonError
       | LoadRaises e => raise e
       end)
      (fun exc =>
         if is_ValueError exc || bool_decide (exc = InvalidKey)
         then Some (raise AttestationDaemonError)
         else None)
  else
    let* private_key := generate in
    save_private_key private_key key_path ;;;
    save_public_key private_key OUTPUT_BASE_DIR ;;;
    ret private_key.

(** The loop of [recvall]; [fuel] bounds its iterations. *)
Fixpoint recvall_loop (fuel : nat) (sock : nat) (count : Z) (buf : bytes)
  : M bytes :=
  if len buf <? count then
    match fuel with
    | O => raise RuntimeError
    | S fuel' =>
        let* chunk := sock_recv sock (count - len buf) in
        if bool_decide (chunk = []) then raise RuntimeError
        else recvall_loop fuel' sock count (buf ++ chunk)
    end
  else ret buf.

(** [recvall]: an iteration that does not end the loop uses up a chunk in
    flight, so one more than their number is fuel enough. *)
Definition recvall (sock : nat) (count : Z) : M bytes :=
  fun w =>
    let chunks :=
      match conns w !! sock with
      | Some c => pending c
      | None => []
      end in
    recvall_loop (S (length chunks)) sock count [] w.

Definition handle_file_data (conn : nat) (output_base_dir : text)
    (signing_key : bytes) : M unit :=
  let* length_bytes := recvall conn 4 in
  let total_length := struct_unpack_I length_bytes in
  let* der_data := recvall conn total_length in
  let* parsed := lift (parse_file_container der_data) in
  let '(filename, file_data) := parsed in
  let* now := time_time in
  let timestamp := str_int now in
  let output_dir := os_path_join output_base_dir timestamp in
  os_makedirs output_dir ;;;
  let file_path := os_path_join output_dir filename in
  write_file file_path file_data ;;;
  print (py_str "Received file: " ++ filename ++ py_str " ("
         ++ str_int (len file_data) ++ py_str " bytes) -> " ++ file_path) ;;;
  let file_hash := sha256_hexdigest file_data in
  print (py_str "SHA256: " ++ file_hash) ;;;
  let signature := sign signing_key file_data in
  let signature_b64 := b64encode signature in
  let signature_path := file_path ++ py_str ".sig" in
  write_file signature_path signature_b64 ;;;
  print (py_str "Signature written to: " ++ signature_path).

(** The text of the exception is left out of the two error lines. *)
Definition handle_connection (conn : nat) (output_base_dir : text)
    (signing_key : bytes) : M unit :=
  try_finally
    (try_except
       (handle_file_data conn output_base_dir signing_key)
       (fun exc =>
          if bool_decide (exc = AttestationDaemonError)
          then Some (print (py_str "[Error] Protocol error: "))
          else if is_Exception exc
          then Some (print (py_str "[Error] Unexpected error while handling connection: "))
          else None))
    (sock_close conn).

(** The [while True] loop of [run_server] over the connections that arrive;
    after the last of them the wait in [accept] ends by the interrupt. *)
Fixpoint accept_loop (arrivals : list arrival) (output_base_dir : text)
    (signing_key : bytes) : M unit :=
  match arrivals with
  | [] => raise KeyboardInterrupt
  | a :: rest =>
      let* conn := sock_accept a in
      print (py_str "Accepted connection.") ;;;
      handle_connection conn output_base_dir signing_key ;;;
      accept_loop rest output_base_dir signing_key
  end.

Definition run_server (socket_path output_base_dir : text)
    (arrivals : list arrival) : M unit :=
  let* stale := os_path_exists socket_path in
  (if (stale : bool) then os_remove socket_path else ret tt) ;;;
  let* signing_key := get_signing_key SIGNING_KEY_PATH in
  sock_bind socket_path ;;;
  sock_listen ;;;
  print (py_str "Listening on " ++ socket_path) ;;;
  try_finally
    (try_except
       (accept_loop arrivals output_base_dir signing_key)
       (fun exc =>
          if bool_decide (exc = KeyboardInterrupt)
          then Some (print (py_str "Shutting down server."))
          else None))
    (server_close ;;;
     let* present := os_path_exists socket_path in
     if (present : bool) then os_remove socket_path else ret tt).

Definition main (arrivals : list arrival) : M unit :=
  run_server SOCKET_PATH OUTPUT_BASE_DIR arrivals.

(** The two parts of [run_server] around the call of [get_signing_key]:
    the removal of a stale socket, and all that follows once the key is
    there. [run_server] is their sequence. *)
Definition remove_stale (socket_path : text) : M unit :=
  let* stale := os_path_exists socket_path in
  if (stale : bool) then os_remove socket_path else ret tt.

Definition serve (socket_path output_base_dir : text) (arrivals : list arrival)
    (signing_key : bytes) : M unit :=
  sock_bind socket_path ;;;
  sock_listen ;;;
  print (py_str "Listening on " ++ socket_path) ;;;
  try_finally
    (try_except
       (accept_loop arrivals output_base_dir signing_key)
       (fun exc =>
          if bool_decide (exc = KeyboardInterrupt)
          then Some (print (py_str "Shutting down server."))
          else None))
    (server_close ;;;
     let* present := os_path_exists socket_path in
     if (present : bool) then os_remove socket_path else ret tt).

End Daemon.

(** ** Vocabulary of the properties *)

(** The events by which the daemon starts to serve: binding the endpoint,
    listening, accepting. *)
Definition is_serving_event (ev : event) : bool :=
  match ev with
  | EvBind _ | EvListen | EvAccept _ => true
  | _ => false
  end.

(** The event of loading or creating the signing identity: the key file is
    opened, to be read or to be written. *)
Definition is_key_event (ev : event) : bool :=
  bool_decide (ev = EvOpenRead SIGNING_KEY_PATH)
  || bool_decide (ev = EvOpenWrite SIGNING_KEY_PATH).


(** The trace only grows. *)
Definition trace_extends (w w' : world) : Prop :=
  exists evs : list event, trace w' = trace w ++ evs.

(** ** A stand-in for the libraries, to evaluate the daemon on inputs

    The stand-in keeps what the daemon relies on: a key written by
    [private_bytes] is read back by [load_pem_private_key], and other
    contents are refused with a [ValueError]. *)

Definition sample_private_bytes (key : bytes) : bytes := py_bytes "PRIVATE:" ++ key.

Definition sample_load (pem : bytes) : loaded :=
  if bool_decide (take 8 pem = py_bytes "PRIVATE:") then LoadedEd25519 (drop 8 pem)
  else if bool_decide (take 4 pem = py_bytes "RSA:") then LoadedOther
  else LoadRaises ValueError.

Definition sample_libraries : Libraries := {|
  sign key data := py_bytes "signed:" ++ key ++ py_bytes ":" ++ data;
  private_bytes := sample_private_bytes;
  public_bytes key := py_bytes "PUBLIC:" ++ key;
  load_pem_private_key := sample_load;
  b64encode data := py_bytes "b64:" ++ data;
  sha256_hexdigest data := py_str "sha256"
|}.

(** A world with the directories of a prepared host, and nothing else. *)
Definition prepared_fs : gmap text node :=
  list_to_map [
    (py_str "/tmp", Dir);
    (py_str "/var", Dir);
    (py_str "/var/lib", Dir);
    (py_str "/var/lib/pcr_attestation_keys", Dir)
  ].

Definition world_of (f : gmap text node) : world :=
  mk_world f 0 [py_bytes "seed-one"; py_bytes "seed-two"] [] [].

(** A message that announces 100 bytes and delivers six of them. *)
Definition truncated_arrival : arrival :=
  mk_arrival 1700000000 [[x00; x00; x00; x64]; py_bytes "sixsix"].

(** The message of "hello.txt" with the payload "world", in two chunks. *)
Definition hello_arrival : arrival :=
  mk_arrival 1700000001
    [[x00; x00; x00]; [x14; x30; x12; x0c; x09] ++ py_bytes "hello.txt"
                      ++ [x04; x05] ++ py_bytes "world"].

(** A prepared host on which one connection has been accepted. *)
Definition world_with_conn (now : Z) (chunks : list bytes) : world :=
  mk_world prepared_fs now [] [mk_conn chunks false] [].

(** The message of the name "/x" with the payload "world". *)
Definition absolute_name_message : bytes :=
  [x00; x00; x00; x0d; x30; x0b; x0c; x02] ++ py_bytes "/x"
  ++ [x04; x05] ++ py_bytes "world".

(** The message of "hello.txt" with the payload "world". *)
Definition hello_message : bytes :=
  [x00; x00; x00; x14; x30; x12; x0c; x09] ++ py_bytes "hello.txt"
  ++ [x04; x05] ++ py_bytes "world".


(** A prepared host whose key file holds something that is no key. *)
Definition corrupt_key_fs : gmap text node :=
  <[SIGNING_KEY_PATH := File (py_bytes "garbage")]> prepared_fs.

(** A host on which the directory of the key file was never made. *)
Definition bare_fs : gmap text node :=
  list_to_map [
    (py_str "/tmp", Dir);
    (py_str "/var", Dir);
    (py_str "/var/lib", Dir)
  ].

(** A message whose prefix announces five bytes and whose record has one. *)
Definition short_chunks : list bytes := [[x00; x00]; [x00; x05; x41]].

(** ** Vocabulary of the further properties *)

(** [open(p, "wb")] succeeds on the file system [f]: [p] names a regular
    file, or a free name in a directory that is there. *)
Definition writable (f : gmap text node) (p : text) : bool :=
  negb (has_nul p) && negb (bool_decide (p = []))
  && match node_at f p with
     | Some (File _) => true
     | Some _ => false
     | None => negb (ends_with_sep p) && dir_usable f (os_path_dirname p)
     end.

(** Nothing is lost from [f] to [f']: an entry of [f] is in [f'], the same
    unless it is a regular file, whose content may be another. *)
Definition entries_kept (f f' : gmap text node) : Prop :=
  forall (q : text) (x : node),
    f !! q = Some x ->
    f' !! q = Some x
    \/ exists c c' : bytes, x = File c /\ f' !! q = Some (File c').

(** The classes of the errors of the receiving side: a premature close, a
    refused value, a refused system call. *)
Definition is_receipt_error (e : exn) : bool :=
  bool_decide (e = RuntimeError) || is_ValueError e || is_OSError e.

(** A prepared host on which the name of the results directory is taken by
    a regular file. *)
Definition blocked_results_fs : gmap text node :=
  <[OUTPUT_BASE_DIR := File []]> prepared_fs.

(** Equality of nodes and of results is decidable, so that an equation
    between file systems is settled by evaluation. *)
#[global] Instance node_eq_decision : EqDecision node.
Proof. solve_decision. Defined.

#[global] Instance result_eq_decision {A : Type} `{EqDecision A} : EqDecision (result A).
Proof. solve_decision. Defined.

(** A name of one component: not empty, neither [.] nor [..], with no
    separator and no NUL in it. *)
Definition plain_name (name : text) : bool :=
  negb (bool_decide (name = []))
  && negb (bool_decide (name = py_str "."))
  && negb (bool_decide (name = py_str ".."))
  && negb (has_nul name)
  && negb (existsb (Z.eqb SEP) name).

(** Nothing but a regular file is at the path [p]. *)
Definition free_or_file (f : gmap text node) (p : text) : bool :=
  match f !! p with
  | None | Some (File _) => true
  | Some _ => false
  end.

(** * service.py: the producer on the Windows guest

    The service watches a folder and writes each new file, as a message, to
    the serial port. Its calls into the host (the file system, the port,
    the clock) are modelled as questions to an environment that may answer
    each of them in any way: nothing is assumed of Windows. A run is the
    list of the calls made and the answers received. *)
Module Producer.

(** The calls of the service into its host. *)
Inductive call : Type :=
| OpenPort (path : text)          (* open(path, "wb+", buffering=0) *)
| PortWrite (message : bytes)     (* serial_port.write(message) *)
| PortFlush                       (* serial_port.flush() *)
| PortClose                       (* serial_port.close() *)
| PathExists (path : text)        (* os.path.exists(path) *)
| Makedirs (path : text)          (* os.makedirs(path) *)
| Glob (pattern : text)           (* glob.glob(pattern) *)
| IsFile (path : text)            (* os.path.isfile(path) *)
| ReadBinary (path : text)        (* with open(path, "rb") as f: f.read() *)
| ReadLines (path : text)         (* with open(path, "r") as f: its lines *)
| WriteLines (path : text) (lines : list text)
                                  (* with open(path, "w") as f: a write per line *)
| LogAppend (line : text)         (* with open(LOG, "a") as log: log.write(line) *)
| Rename (src dst : text)         (* os.rename(src, dst) *)
| Sleep (seconds : Z).            (* time.sleep(seconds) *)

(** What the host answers: a value, or for the calls that can fail a value
    or an exception. The count that [write] returns is not looked at by the
    source and is left out. *)
Definition resp (c : call) : Type :=
  match c with
  | PathExists _ | IsFile _ => bool
  | Glob _ => list text
  | Sleep _ => unit
  | ReadBinary _ => result bytes
  | ReadLines _ => result (list text)
  | _ => result unit
  end.

Record event : Type := Ev {
  ev_call : call;
  ev_resp : resp ev_call
}.

(** The state of a run: the set [processed_files] of [main], which the loop
    updates in place, and the calls made so far with their answers. *)
Record pstate : Type := mk_pstate {
  processed_files : gset text;
  history : list event
}.

Definition record (ev : event) (s : pstate) : pstate :=
  mk_pstate (processed_files s) (history s ++ [ev]).

Definition P (A : Type) : Type := pstate -> result A * pstate.

Definition ret {A} (a : A) : P A := fun s => (Ok a, s).

Definition bind {A B} (m : P A) (k : A -> P B) : P B :=
  fun s =>
    match m s with
    | (Ok a, s') => k a s'
    | (Raise e, s') => (Raise e, s')
    end.

Notation "'do*' x ':=' m 'in' k" := (bind m (fun x => k))
  (at level 10, x pattern, m at level 100, k at level 200).
Notation "m ';;' k" := (bind m (fun _ => k))
  (at level 100, k at level 200, right associativity).

Definition lift {A} (r : result A) : P A := fun s => (r, s).

(** [try: body except Exception: handler]. *)
Definition try_except_Exception {A} (body : P A) (handler : P A) : P A :=
  fun s =>
    match body s with
    | (Ok a, s') => (Ok a, s')
    | (Raise e, s') => if is_Exception e then handler s' else (Raise e, s')
    end.

(** [str.strip()]: the characters for which [str.isspace] holds are taken
    off both ends. *)
Definition is_space (c : Z) : bool :=
  ((9 <=? c) && (c <=? 13)) || ((28 <=? c) && (c <=? 32))
  || (c =? 133) || (c =? 160) || (c =? 5760)
  || ((8192 <=? c) && (c <=? 8202))
  || (c =? 8232) || (c =? 8233) || (c =? 8239) || (c =? 8287) || (c =? 12288).

Fixpoint lstrip (t : text) : text :=
  match t with
  | [] => []
  | c :: r => if is_space c then lstrip r else t
  end.

Definition strip (t : text) : text := rev (lstrip (rev (lstrip t))).

(** [os.path.basename] and [os.path.join] of the Windows guest are library
    functions; the service is modelled over any implementation of them. *)
Class Paths : Type := {
  basename : text -> text;
  join : text -> text -> text
}.

Section Service.

Context `{Libraries} `{Paths}.

(** The host: its answer to a call, given the calls and answers so far. *)
Variable host : list event -> forall c : call, resp c.

Definition WATCH_FOLDER : text := py_str "C:\watched".

Definition PROCESSED_FOLDER : text := join WATCH_FOLDER (py_str "processed").

Definition SERIAL_PORT : text := py_str "\\.\Global\attestation_channel".

Definition LOG_PATH : text := py_str "C:\XPFileMonitorService.log".

(** [self.processed_files_path] *)
Definition processed_files_path : text := py_str "C:\list_of_signed_results.txt".

Definition open_port (path : text) : P unit :=
  fun s => let r := host (history s) (OpenPort path) in (r, record (Ev (OpenPort path) r) s).

Definition port_write (message : bytes) : P unit :=
  fun s =>
    let r := host (history s) (PortWrite message) in
    (r, record (Ev (PortWrite message) r) s).

Definition port_flush : P unit :=
  fun s => let r := host (history s) PortFlush in (r, record (Ev PortFlush r) s).

Definition port_close : P unit :=
  fun s => let r := host (history s) PortClose in (r, record (Ev PortClose r) s).

Definition path_exists (path : text) : P bool :=
  fun s =>
    let r := host (history s) (PathExists path) in
    (Ok r, record (Ev (PathExists path) r) s).

Definition makedirs (path : text) : P unit :=
  fun s => let r := host (history s) (Makedirs path) in (r, record (Ev (Makedirs path) r) s).

Definition glob (pattern : text) : P (list text) :=
  fun s =>
    let r := host (history s) (Glob pattern) in
    (Ok r, record (Ev (Glob pattern) r) s).

Definition isfile (path : text) : P bool :=
  fun s =>
    let r := host (history s) (IsFile path) in
    (Ok r, record (Ev (IsFile path) r) s).

Definition read_binary (path : text) : P bytes :=
  fun s =>
    let r := host (history s) (ReadBinary path) in
    (r, record (Ev (ReadBinary path) r) s).

Definition read_lines (path : text) : P (list text) :=
  fun s =>
    let r := host (history s) (ReadLines path) in
    (r, record (Ev (ReadLines path) r) s).

Definition write_lines (path : text) (lines : list text) : P unit :=
  fun s =>
    let r := host (history s) (WriteLines path lines) in
    (r, record (Ev (WriteLines path lines) r) s).

Definition rename (src dst : text) : P unit :=
  fun s =>
    let r := host (history s) (Rename src dst) in
    (r, record (Ev (Rename src dst) r) s).

Definition sleep (seconds : Z) : P unit :=
  fun s =>
    let r := host (history s) (Sleep seconds) in
    (Ok r, record (Ev (Sleep seconds) r) s).

(** A line appended to the log file. The text of the exception and the
    line end after it, which the error lines end with, are left out. *)
Definition log (line : text) : P unit :=
  fun s =>
    let r := host (history s) (LogAppend line) in
    (r, record (Ev (LogAppend line) r) s).

Definition load_processed_files : P (gset text) :=
  try_except_Exception
    (do* present := path_exists processed_files_path in
     if (present : bool) then
       do* lines := read_lines processed_files_path in
       ret (list_to_set (map strip lines))
     else ret ∅)
    (log (py_str "Error loading processed files: ") ;; ret ∅).

(** The lines are written in the order in which the set is iterated,
    which Python leaves open; here it is the order of [elements]. *)
Definition save_processed_files (processed : gset text) : P unit :=
  try_except_Exception
    (write_lines processed_files_path (map (fun h => h ++ [10]) (elements processed)))
    (log (py_str "Error saving processed files: ")).

(** [processed_files.add(file_hash)] *)
Definition add_processed (file_hash : text) : P unit :=
  fun s => (Ok tt, mk_pstate ({[file_hash]} ∪ processed_files s) (history s)).

Definition get_processed : P (gset text) := fun s => (Ok (processed_files s), s).

(** The first [for] loop of an iteration: the files not seen before, with
    their digests. *)
Fixpoint select_new_files (files : list text) (new_files : list (text * text))
  : P (list (text * text)) :=
  match files with
  | [] => ret new_files
  | file_path :: rest =>
      do* is_file := isfile file_path in
      if (is_file : bool) then
        do* content := read_binary file_path in
        let file_hash := sha256_hexdigest content in
        do* processed := get_processed in
        if bool_decide (file_hash ∈ processed)
        then select_new_files rest new_files
        else select_new_files rest (new_files ++ [(file_path, file_hash)])
      else select_new_files rest new_files
  end.

(** The body of the second [for] loop, for one new file. *)
Definition process_file (file_path file_hash : text) : P unit :=
  let filename := basename file_path in
  try_except_Exception
    (do* file_data := read_binary file_path in
     do* message := lift (wire_message filename file_data) in
     port_write message ;;
     port_flush ;;
     log (py_str "Sent file: " ++ filename ++ py_str " ("
          ++ str_int (len file_data) ++ py_str " bytes)" ++ [10]) ;;
     let dest_path := join PROCESSED_FOLDER filename in
     rename file_path dest_path ;;
     add_processed file_hash ;;
     do* processed := get_processed in
     save_processed_files processed)
    (log (py_str "Error processing file " ++ filename ++ py_str ": ")).

Fixpoint process_new_files (new_files : list (text * text)) : P unit :=
  match new_files with
  | [] => ret tt
  | (file_path, file_hash) :: rest =>
      process_file file_path file_hash ;;
      process_new_files rest
  end.

(** The body of the [while] loop of [main]. *)
Definition iteration : P unit :=
  try_except_Exception
    (do* files := glob (join WATCH_FOLDER (py_str "*")) in
     do* new_files := select_new_files files [] in
     (match new_files with
      | [] => ret tt
      | _ :: _ => sleep 5 ;; process_new_files new_files
      end) ;;
     sleep 30)
    (log (py_str "Error in main loop: ") ;; sleep 5).

(** The [while self.running] loop: [SvcStop] clears the flag from another
    thread, and the loop sees it when it next tests the flag, after some
    number [rounds] of iterations. *)
Fixpoint main_loop (rounds : nat) : P unit :=
  match rounds with
  | O => ret tt
  | S rounds' => iteration ;; main_loop rounds'
  end.

Definition main (rounds : nat) : P unit :=
  fun s =>
    match open_port SERIAL_PORT s with
    | (Raise e, s1) =>
        if is_Exception e
        then log (py_str "Failed to open serial port " ++ SERIAL_PORT ++ py_str ": ") s1
        else (Raise e, s1)
    | (Ok _, s1) =>
        (do* loaded := load_processed_files in
         (fun s2 => (Ok tt, mk_pstate loaded (history s2))) ;;
         main_loop rounds ;;
         port_close) s1
    end.

Definition SvcDoRun (rounds : nat) : P unit :=
  do* present := path_exists PROCESSED_FOLDER in
  (if (present : bool) then ret tt else makedirs PROCESSED_FOLDER) ;;
  main rounds.

End Service.

(** ** Vocabulary of the properties of the producer *)

(** The message of a [write] to the port. *)
Definition written (ev : event) : option bytes :=
  match ev_call ev with
  | PortWrite message => Some message
  | _ => None
  end.

(** The event is the [rename] of [src] that the host carried out. *)
Definition moved (src : text) (ev : event) : bool :=
  match ev with
  | Ev (Rename src' _) (Ok _) => bool_decide (src' = src)
  | _ => false
  end.

(** The event is a read of [path] that the host answered with [content]. *)
Definition read_as (path : text) (content : bytes) (ev : event) : bool :=
  match ev with
  | Ev (ReadBinary path') (Ok content') =>
      bool_decide (path' = path) && bool_decide (content' = content)
  | _ => false
  end.

(** Every [write] to the port comes right after the read of a file that
    the host answered with a content, and writes the message of the base
    name of that file and of that content. [prev] is the event before
    [evs]. *)
Fixpoint sends_what_it_read `{Paths} (prev : option event) (evs : list event)
  : Prop :=
  match evs with
  | [] => True
  | ev :: rest =>
      match written ev with
      | None => True
      | Some message =>
          match prev with
          | Some (Ev (ReadBinary path) (Ok content)) =>
              wire_message (basename path) content = Ok message
          | _ => False
          end
      end
      /\ sends_what_it_read (Some ev) rest
  end.

(** [m] adds to the history events that satisfy [Q]. *)
Definition appends {A} (Q : list event -> Prop) (m : P A) : Prop :=
  forall (s s' : pstate) (r : result A),
    m s = (r, s') -> exists evs : list event, history s' = history s ++ evs /\ Q evs.

(** From [s] to [s'] the history only grows, and [processed_files] grows
    only by digests of contents that were read from files which the host
    then moved. *)
Definition grows_by_moves `{Libraries} (s s' : pstate) : Prop :=
  exists evs : list event,
    history s' = history s ++ evs
    /\ forall h : text,
         h ∈ processed_files s' ->
         h ∈ processed_files s
         \/ exists (path : text) (content : bytes),
              h = sha256_hexdigest content
              /\ existsb (read_as path content) evs = true
              /\ existsb (moved path) evs = true.

(** The calls of a scan of the watched folder, and those of reporting and
    waiting: none of them writes to the port, moves a file or touches the
    list of processed files. *)
Definition is_scan_call (c : call) : bool :=
  match c with
  | Glob _ | IsFile _ | ReadBinary _ | Sleep _ | LogAppend _ => true
  | _ => false
  end.

(** The exception of an answer, if it is one. *)
Definition failure {c : call} : resp c -> option exn :=
  match c return resp c -> option exn with
  | PathExists _ | IsFile _ | Glob _ | Sleep _ => fun _ => None
  | ReadBinary _ => fun r => match r with Raise e => Some e | Ok _ => None end
  | ReadLines _ => fun r => match r with Raise e => Some e | Ok _ => None end
  | OpenPort _ | PortWrite _ | PortFlush | PortClose | Makedirs _
  | WriteLines _ _ | LogAppend _ | Rename _ _ =>
      fun r => match r with Raise e => Some e | Ok _ => None end
  end.

(** What the host raises is an [Exception], not an interrupt. *)
Definition raises_exceptions_only (host : list event -> forall c : call, resp c)
  : Prop :=
  forall (h : list event) (c : call) (e : exn),
    failure (host h c) = Some e -> is_Exception e = true.

(** Whatever [m] raises is an [Exception]. *)
Definition raises_Exception {A} (m : P A) : Prop :=
  forall (s s' : pstate) (e : exn), m s = (Raise e, s') -> is_Exception e = true.

(** Every [rename] comes at the end of the steps of one file: the file was
    read, its message written to the port and flushed, the line of the log
    appended, each with success; and it moves that file under its base
    name into the folder of processed files. *)
Definition moves_what_it_sent `{Paths} (evs : list event) : Prop :=
  forall (i : nat) (src dst : text) (r : result unit),
    evs !! i = Some (Ev (Rename src dst) r) ->
    exists (j : nat) (content message : bytes) (line : text),
      i = (4 + j)%nat
      /\ evs !! j = Some (Ev (ReadBinary src) (Ok content))
      /\ wire_message (basename src) content = Ok message
      /\ evs !! (1 + j)%nat = Some (Ev (PortWrite message) (Ok tt))
      /\ evs !! (2 + j)%nat = Some (Ev PortFlush (Ok tt))
      /\ evs !! (3 + j)%nat = Some (Ev (LogAppend line) (Ok tt))
      /\ dst = join PROCESSED_FOLDER (basename src).

(** The host never refuses to append to the log. *)
Definition log_works (host : list event -> forall c : call, resp c) : Prop :=
  forall (h : list event) (line : text), host h (LogAppend line) = Ok tt.

(** A host on which the watched folder holds one file, "a.txt" with the
    content "x", and every call succeeds. *)
Definition sample_host : list event -> forall c : call, resp c :=
  fun _ c =>
    match c with
    | PathExists _ => false
    | IsFile _ => true
    | Glob _ => [py_str "C:\watched\a.txt"]
    | Sleep _ => tt
    | ReadBinary _ => Ok (py_bytes "x")
    | ReadLines _ => Ok []
    | _ => Ok tt
    end.

(** The same host, except that it refuses every [rename]. *)
Definition stuck_host : list event -> forall c : call, resp c :=
  fun _ c =>
    match c with
    | PathExists _ => false
    | IsFile _ => true
    | Glob _ => [py_str "C:\watched\a.txt"]
    | Sleep _ => tt
    | ReadBinary _ => Ok (py_bytes "x")
    | ReadLines _ => Ok []
    | Rename _ _ => Raise FileExistsError
    | _ => Ok tt
    end.

(** A host on which the file of the watched folder cannot be read. *)
Definition locked_host : list event -> forall c : call, resp c :=
  fun _ c =>
    match c with
    | PathExists _ => false
    | IsFile _ => true
    | Glob _ => [py_str "C:\watched\a.txt"]
    | Sleep _ => tt
    | ReadBinary _ => Raise OSError
    | ReadLines _ => Ok []
    | _ => Ok tt
    end.

(** A host on which the list of processed files holds one line, "ab". *)
Definition reloading_host : list event -> forall c : call, resp c :=
  fun _ c =>
    match c with
    | PathExists _ => true
    | IsFile _ => true
    | Glob _ => []
    | Sleep _ => tt
    | ReadBinary _ => Ok []
    | ReadLines _ => Ok [py_str "ab" ++ [10]]
    | _ => Ok tt
    end.

(** Paths of the guest, for these hosts: the base name follows the last
    backslash, and [join] puts one between its arguments. *)
Fixpoint after_last_backslash (p acc : text) : text :=
  match p with
  | [] => acc
  | c :: r => if c =? 92 then after_last_backslash r r else after_last_backslash r acc
  end.

Definition sample_paths : Paths := {|
  basename p := after_last_backslash p p;
  join a b := a ++ [92] ++ b
|}.

End Producer.

(** * Properties *)

(** ** Bytes *)

Lemma Z_of_byte_range (b : byte) : 0 <= Z_of_byte b < 256.
Proof.
  unfold Z_of_byte. pose proof (Byte.to_N_bounded b). lia.
Qed.

Lemma byte_of_Z_of_byte (b : byte) : byte_of_Z (Z_of_byte b) = b.
Proof.
  unfold byte_of_Z. pose proof (Z_of_byte_range b) as Hr.
  rewrite Z.mod_small by lia. unfold Z_of_byte.
  rewrite N2Z.id, Byte.of_to_N. reflexivity.
Qed.

Lemma Z_of_byte_of_Z (z : Z) : Z_of_byte (byte_of_Z z) = z mod 256.
Proof.
  unfold byte_of_Z, Z_of_byte.
  pose proof (Z.mod_pos_bound z 256 ltac:(lia)) as Hr.
  destruct (Byte.of_N (Z.to_N (z mod 256))) as [b|] eqn:E.
  - apply Byte.to_of_N in E. rewrite E. lia.
  - apply Byte.of_N_None_iff in E. lia.
Qed.

Lemma Z_of_byte_of_Z_small (z : Z) : 0 <= z < 256 -> Z_of_byte (byte_of_Z z) = z.
Proof. intros H. rewrite Z_of_byte_of_Z. apply Z.mod_small. lia. Qed.


(** ** UTF-8 *)

Ltac Zify.zify_post_hook ::= Z.to_euclidean_division_equations.

(** Decide the integer comparisons of the goal, one at a time. *)
Ltac zcases :=
  repeat match goal with
         | |- context [Z.ltb ?a ?b] => destruct (Z.ltb_spec a b); try lia
         | |- context [Z.leb ?a ?b] => destruct (Z.leb_spec a b); try lia
         | |- context [Z.eqb ?a ?b] => destruct (Z.eqb_spec a b); try lia
         end.

Lemma utf8_char_roundtrip (c : Z) (bs rest : bytes) :
  utf8_encode_char c = Some bs ->
  utf8_decode (bs ++ rest) =
    match utf8_decode rest with Ok t => Ok (c :: t) | Raise e => Raise e end.
Proof.
  unfold utf8_encode_char, is_scalar, is_surrogate.
  destruct (negb _) eqn:Hs; [discriminate|].
  apply negb_false_iff in Hs.
  assert (Hc : 0 <= c <= 0x10FFFF /\ ~ (0xD800 <= c <= 0xDFFF)) by lia.
  clear Hs.
  destruct (Z.ltb_spec c 0x80); [|destruct (Z.ltb_spec c 0x800);
    [|destruct (Z.ltb_spec c 0x10000)]];
    intros [= <-]; cbn [app utf8_decode]; unfold is_cont, is_surrogate;
    rewrite !Z_of_byte_of_Z_small by lia; zcases; cbn [negb andb];
    match goal with
    | |- context [Ok (?x :: _)] => replace x with c by lia
    end; reflexivity.
Qed.

Lemma utf8_roundtrip (t : text) (bs : bytes) :
  utf8_encode t = Ok bs -> utf8_decode bs = Ok t.
Proof.
  revert bs. induction t as [|c t IH]; intros bs; cbn [utf8_encode].
  - intros [= <-]. reflexivity.
  - destruct (utf8_encode_char c) as [cs|] eqn:Ec; [|discriminate].
    destruct (utf8_encode t) as [r|e] eqn:Er; [|discriminate].
    intros [= <-]. rewrite (utf8_char_roundtrip c cs r Ec), (IH r eq_refl).
    reflexivity.
Qed.

Lemma utf8_encode_valid (t : text) :
  valid_text t -> exists bs, utf8_encode t = Ok bs /\ len bs <= 4 * len t.
Proof.
  unfold len. induction 1 as [|c t Hc _ [bs [IH Hl]]]; cbn [utf8_encode].
  - exists []. split; [reflexivity | cbn; lia].
  - unfold utf8_encode_char. rewrite Hc. cbn [negb]. rewrite IH.
    repeat match goal with
           | |- context [if ?b then _ else _] => destruct b
           end; eexists; (split; [reflexivity|]);
      rewrite ?length_app; cbn [length]; lia.
Qed.

Lemma utf8_encode_is_valid (t : text) (bs : bytes) :
  utf8_encode t = Ok bs -> valid_text t.
Proof.
  revert bs. induction t as [|c t IH]; intros bs; cbn [utf8_encode].
  - intros _. constructor.
  - unfold utf8_encode_char.
    destruct (is_scalar c) eqn:Hc; cbn [negb]; [|discriminate].
    destruct (utf8_encode t) as [r|e] eqn:Er.
    + intros _. constructor; [exact Hc | exact (IH r eq_refl)].
    + repeat match goal with
             | |- context [if ?b then _ else _] => destruct b
             end; discriminate.
Qed.




(** ** Big-endian integers *)

Lemma len_nil {A} : len (@nil A) = 0.
Proof. reflexivity. Qed.

Lemma len_cons {A} (a : A) (l : list A) : len (a :: l) = 1 + len l.
Proof. unfold len. cbn [length]. lia. Qed.

Lemma len_app {A} (l1 l2 : list A) : len (l1 ++ l2) = len l1 + len l2.
Proof. unfold len. rewrite length_app. lia. Qed.

Lemma len_nonneg {A} (l : list A) : 0 <= len l.
Proof. unfold len. lia. Qed.

Lemma slice_to_app {A} (l1 l2 : list A) : slice_to (len l1) (l1 ++ l2) = l1.
Proof.
  unfold slice_to, len. rewrite Nat2Z.id. apply take_app_length.
Qed.

Lemma slice_from_app {A} (l1 l2 : list A) : slice_from (len l1) (l1 ++ l2) = l2.
Proof.
  unfold slice_from, len. rewrite Nat2Z.id. apply drop_app_length.
Qed.

Lemma int_from_bytes_snoc (bs : bytes) (b : byte) :
  int_from_bytes (bs ++ [b]) = int_from_bytes bs * 256 + Z_of_byte b.
Proof. unfold int_from_bytes. rewrite fold_left_app. reflexivity. Qed.

Lemma int_from_bytes_nonneg (bs : bytes) : 0 <= int_from_bytes bs.
Proof.
  induction bs as [|b bs IH] using rev_ind; [cbn; lia|].
  rewrite int_from_bytes_snoc. pose proof (Z_of_byte_range b). lia.
Qed.

Lemma be_digits_length (n : nat) (v : Z) : length (be_digits n v) = n.
Proof.
  revert v. induction n as [|n IH]; intros v; cbn [be_digits]; [reflexivity|].
  rewrite length_app, IH. cbn. lia.
Qed.

Lemma int_from_be_digits (n : nat) (v : Z) :
  0 <= v < 256 ^ Z.of_nat n -> int_from_bytes (be_digits n v) = v.
Proof.
  revert v. induction n as [|n IH]; intros v Hv; cbn [be_digits].
  - cbn in Hv. cbn. lia.
  - rewrite Nat2Z.inj_succ, Z.pow_succ_r in Hv by lia.
    rewrite int_from_bytes_snoc, IH, Z_of_byte_of_Z by lia.
    rewrite Zmod_mod. lia.
Qed.

Lemma byte_width_spec (fuel : nat) (v : Z) :
  0 <= v < 2 ^ Z.of_nat fuel ->
  v < 256 ^ Z.of_nat (byte_width fuel v)
  /\ (0 < v -> (0 < byte_width fuel v)%nat)
  /\ forall k : nat, v < 256 ^ Z.of_nat k -> (byte_width fuel v <= k)%nat.
Proof.
  revert v. induction fuel as [|fuel IH]; intros v Hv; cbn [byte_width].
  - cbn in Hv. repeat split; [cbn; lia | lia | lia].
  - destruct (Z.leb_spec v 0).
    + repeat split; [cbn; lia | lia | lia].
    + rewrite Nat2Z.inj_succ, Z.pow_succ_r in Hv by lia.
      destruct (IH (v / 256)) as (Hlt & _ & Hk); [lia|].
      repeat split.
      * rewrite Nat2Z.inj_succ, Z.pow_succ_r by lia. lia.
      * lia.
      * intros [|k] Hvk; [cbn in Hvk; lia|].
        rewrite Nat2Z.inj_succ, Z.pow_succ_r in Hvk by lia.
        specialize (Hk k). lia.
Qed.

Lemma int_to_bytes_spec (v : Z) (k : nat) :
  0 < v < 256 ^ Z.of_nat k ->
  int_from_bytes (int_to_bytes v) = v
  /\ (0 < length (int_to_bytes v) <= k)%nat.
Proof.
  intros Hv. unfold int_to_bytes.
  destruct (byte_width_spec (Z.to_nat (Z.log2 v) + 1) v) as (Hlt & Hpos & Hk).
  { split; [lia|].
    replace (Z.of_nat (Z.to_nat (Z.log2 v) + 1)) with (Z.succ (Z.log2 v))
      by (pose proof (Z.log2_nonneg v); lia).
    apply Z.log2_spec. lia. }
  rewrite be_digits_length. split; [apply int_from_be_digits; lia|].
  split; [apply Hpos; lia | apply Hk; lia].
Qed.

Lemma struct_roundtrip (n : Z) (b : bytes) :
  struct_pack_I n = Ok b -> length b = 4%nat /\ struct_unpack_I b = n.
Proof.
  unfold struct_pack_I, struct_unpack_I.
  destruct (_ && _) eqn:Hr; [|discriminate]. intros Hb.
  assert (b = be_digits 4 n) as -> by congruence.
  split; [apply be_digits_length | apply int_from_be_digits]. lia.
Qed.

(** ** The parser on definite lengths *)

Lemma parse_tag_low (first_octet : Z) (r0 : bytes) :
  first_octet mod 32 <> 31 ->
  parse_tag first_octet r0 = Ok (first_octet mod 32, r0).
Proof. intros Ht. unfold parse_tag. zcases. reflexivity. Qed.

Lemma parse_with_short nested (b0 bl : byte) (body : bytes) :
  Z_of_byte b0 mod 32 <> 31 ->
  Z_of_byte bl < 128 ->
  Z_of_byte bl <= len body ->
  parse_with nested (b0 :: bl :: body)
  = Ok (mk_parts (Z_of_byte b0 / 64) ((Z_of_byte b0 / 32) mod 2)
          (Z_of_byte b0 mod 32) (slice_to (Z_of_byte bl) body) [],
        2 + Z_of_byte bl).
Proof.
  intros Ht Hl Hb. pose proof (Z_of_byte_range bl).
  unfold parse_with. rewrite parse_tag_low by assumption.
  unfold element, len in *. cbn [length].
  rewrite (Z.mod_small (Z_of_byte bl) 128) by lia.
  zcases; do 2 f_equal; lia.
Qed.

Lemma parse_with_long nested (b0 bl : byte) (body : bytes) (k n : Z) :
  Z_of_byte b0 mod 32 <> 31 ->
  Z_of_byte bl = 128 + k -> 0 < k ->
  k <= len body ->
  n = int_from_bytes (slice_to k body) ->
  n <= len (slice_from k body) ->
  parse_with nested (b0 :: bl :: body)
  = Ok (mk_parts (Z_of_byte b0 / 64) ((Z_of_byte b0 / 32) mod 2)
          (Z_of_byte b0 mod 32) (slice_to n (slice_from k body)) [],
        2 + k + n).
Proof.
  intros Ht Hl Hk Hb Hn Hc. pose proof (Z_of_byte_range bl).
  unfold parse_with. rewrite parse_tag_low by assumption.
  unfold element. replace (Z_of_byte bl mod 128) with k by lia. rewrite <- Hn.
  unfold len in *. cbn [length].
  zcases; cbn [negb]; zcases; do 2 f_equal; lia.
Qed.

Lemma parse_element_eq (data : bytes) :
  parse_element data = parse_with (_parse _MAX_DEPTH) data.
Proof. reflexivity. Qed.

Lemma dump_value_length (m t : Z) (c : bytes) :
  2 + len c <= len (dump_value m t c).
Proof.
  unfold dump_value, _dump_header. rewrite len_app.
  destruct (len c <=? 127); rewrite ?len_cons, ?len_nil;
    pose proof (len_nonneg (int_to_bytes (len c))); lia.
Qed.

Lemma parse_with_dump nested (m t : Z) (c rest : bytes) :
  m = 0 \/ m = 1 -> 0 <= t < 31 -> len c < DER_MAX ->
  parse_with nested (dump_value m t c ++ rest)
  = Ok (mk_parts 0 m t c [], len (dump_value m t c)).
Proof.
  intros Hm Ht Hc. unfold dump_value, _dump_header.
  replace (0 * 64 + m * 32 + t) with (m * 32 + t) by lia.
  assert (Hid : Z_of_byte (byte_of_Z (m * 32 + t)) = m * 32 + t)
    by (apply Z_of_byte_of_Z_small; lia).
  pose proof (len_nonneg c) as Hc0.
  destruct (Z.leb_spec (len c) 127) as [Hs|Hs].
  - cbn [app]. rewrite parse_with_short.
    + rewrite Hid, Z_of_byte_of_Z_small by lia.
      rewrite slice_to_app, ?len_cons, ?len_app.
      replace ((m * 32 + t) / 64) with 0 by lia.
      replace (((m * 32 + t) / 32) mod 2) with m by lia.
      replace ((m * 32 + t) mod 32) with t by lia.
      do 2 f_equal. lia.
    + rewrite Hid. lia.
    + rewrite Z_of_byte_of_Z_small by lia. lia.
    + rewrite Z_of_byte_of_Z_small, len_app by lia.
      pose proof (len_nonneg rest). lia.
  - destruct (int_to_bytes_spec (len c) 126) as [Hv Hk];
      [unfold DER_MAX in Hc; lia|].
    set (lb := int_to_bytes (len c)) in *.
    assert (Hlb : 0 < len lb <= 126) by (unfold len; lia).
    cbn [app]. rewrite <- app_assoc.
    rewrite parse_with_long with (k := len lb) (n := len c).
    + rewrite Hid, slice_from_app, slice_to_app, ?len_cons, ?len_app.
      replace ((m * 32 + t) / 64) with 0 by lia.
      replace (((m * 32 + t) / 32) mod 2) with m by lia.
      replace ((m * 32 + t) mod 32) with t by lia.
      do 2 f_equal. lia.
    + rewrite Hid. lia.
    + apply Z_of_byte_of_Z_small. lia.
    + lia.
    + rewrite len_app. pose proof (len_nonneg (c ++ rest)). lia.
    + rewrite slice_to_app. symmetry. exact Hv.
    + rewrite slice_from_app, len_app. pose proof (len_nonneg rest). lia.
Qed.

Lemma _build_exact (m t : Z) (constructable : bool) (c : bytes) :
  _build m t constructable (mk_parts 0 m t c []) = Ok (false, c).
Proof.
  unfold _build. cbn [p_class p_method p_tag p_trailer p_contents].
  rewrite !Z.eqb_refl. cbn [negb andb]. reflexivity.
Qed.

Lemma string_field_exact (t : Z) (c : bytes) :
  string_field t (mk_parts 0 0 t c []) = Ok c.
Proof. unfold string_field. rewrite _build_exact. reflexivity. Qed.

(** The contents of a container parse into its two fields. *)
Lemma parse_elements_two (fuel : nat) (t1 t2 : Z) (c1 c2 : bytes) :
  (2 <= fuel)%nat -> 0 <= t1 < 31 -> 0 <= t2 < 31 ->
  len c1 < DER_MAX -> len c2 < DER_MAX ->
  parse_elements fuel (dump_value 0 t1 c1 ++ dump_value 0 t2 c2)
  = Ok [mk_parts 0 0 t1 c1 []; mk_parts 0 0 t2 c2 []].
Proof.
  intros Hf Ht1 Ht2 Hc1 Hc2.
  destruct fuel as [|[|fuel]]; [lia | lia |].
  pose proof (dump_value_length 0 t1 c1) as H1.
  pose proof (dump_value_length 0 t2 c2) as H2.
  pose proof (len_nonneg c1). pose proof (len_nonneg c2).
  cbn [parse_elements].
  destruct (dump_value 0 t1 c1 ++ dump_value 0 t2 c2) as [|x xs] eqn:E.
  { apply (f_equal length) in E. rewrite length_app in E. cbn [length] in E.
    unfold len in *. lia. }
  rewrite <- E. rewrite parse_element_eq, parse_with_dump by (auto; lia).
  rewrite slice_from_app.
  destruct (dump_value 0 t2 c2) as [|y ys] eqn:E2.
  { unfold len in *. cbn [length] in *. lia. }
  rewrite <- E2.
  rewrite <- (app_nil_r (dump_value 0 t2 c2)) at 1.
  rewrite parse_element_eq, parse_with_dump by (auto; lia).
  rewrite <- (app_nil_r (dump_value 0 t2 c2)) at 2.
  rewrite slice_from_app. destruct fuel; reflexivity.
Qed.

Lemma parse_file_container_dump (name data rest : bytes) :
  len name < DER_MAX / 4 -> len data < DER_MAX / 4 ->
  parse_file_container
    (dump_value 1 TAG_SEQUENCE
       (dump_value 0 TAG_UTF8String name ++ dump_value 0 TAG_OctetString data)
     ++ rest)
  = match utf8_decode name with
    | Ok filename => Ok (filename, data)
    | Raise e => Raise e
    end.
Proof.
  intros Hn Hd. unfold parse_file_container, TAG_SEQUENCE, TAG_UTF8String,
    TAG_OctetString.
  set (contents := dump_value 0 12 name ++ dump_value 0 4 data).
  assert (Hmax : DER_MAX = 256 ^ 126) by reflexivity.
  assert (Hlen : 4 <= len contents < DER_MAX).
  { unfold contents. rewrite len_app.
    pose proof (dump_value_length 0 12 name).
    pose proof (dump_value_length 0 4 data).
    pose proof (len_nonneg name). pose proof (len_nonneg data).
    split; [lia|].
    unfold dump_value, _dump_header in *. rewrite !len_app in *.
    assert (Hh : forall c : bytes, len c < DER_MAX ->
               len (if len c <=? 127
                    then [byte_of_Z (0 * 64 + 0 * 32 + 12); byte_of_Z (len c)]
                    else byte_of_Z (0 * 64 + 0 * 32 + 12)
                         :: byte_of_Z (128 + len (int_to_bytes (len c)))
                         :: int_to_bytes (len c)) <= 128).
    { intros c Hc. destruct (Z.leb_spec (len c) 127); rewrite ?len_cons, ?len_nil; [lia|].
      destruct (int_to_bytes_spec (len c) 126) as [_ Hk]; [lia|].
      unfold len at 1. lia. }
    assert (Hh' : forall c : bytes, len c < DER_MAX ->
               len (if len c <=? 127
                    then [byte_of_Z (0 * 64 + 0 * 32 + 4); byte_of_Z (len c)]
                    else byte_of_Z (0 * 64 + 0 * 32 + 4)
                         :: byte_of_Z (128 + len (int_to_bytes (len c)))
                         :: int_to_bytes (len c)) <= 128).
    { intros c Hc. destruct (Z.leb_spec (len c) 127); rewrite ?len_cons, ?len_nil; [lia|].
      destruct (int_to_bytes_spec (len c) 126) as [_ Hk]; [lia|].
      unfold len at 1. lia. }
    specialize (Hh name ltac:(lia)). specialize (Hh' data ltac:(lia)).
    assert (1024 <= DER_MAX) by (rewrite Hmax; apply Z.leb_le; reflexivity).
    lia. }
  assert (1024 <= DER_MAX) by (rewrite Hmax; apply Z.leb_le; reflexivity).
  rewrite parse_element_eq, parse_with_dump by (auto; lia).
  rewrite _build_exact. unfold _parse_children.
  unfold contents in *.
  rewrite parse_elements_two by (unfold len in *; lia).
  cbn [length Nat.ltb Nat.leb]. rewrite !string_field_exact.
  destruct (utf8_decode name); reflexivity.
Qed.

(** ** The file container *)

Lemma create_file_container_eq (filename : text) (data name : bytes) :
  utf8_encode filename = Ok name ->
  create_file_container filename data
  = Ok (dump_value 1 TAG_SEQUENCE
          (dump_value 0 TAG_UTF8String name ++ dump_value 0 TAG_OctetString data)).
Proof. intros E. unfold create_file_container. rewrite E. reflexivity. Qed.

Lemma DER_MAX_large : 2 ^ 70 <= DER_MAX / 4.
Proof. apply Z.leb_le. reflexivity. Qed.

(** C2. Round trip: for every filename that is valid text and every byte
    sequence [data], the empty one included, [create_file_container] yields
    a record, and [parse_file_container] of that record is the pair
    [(filename, data)] again. The two length bounds are those of any Python
    [str] and [bytes] object. *)
Theorem file_container_roundtrip (filename : text) (data : bytes) :
  valid_text filename ->
  len filename <= PY_SSIZE_T_MAX ->
  len data <= PY_SSIZE_T_MAX ->
  exists der : bytes,
    create_file_container filename data = Ok der
    /\ parse_file_container der = Ok (filename, data).
Proof.
  intros Hv Hf Hd.
  destruct (utf8_encode_valid filename Hv) as (name & Hname & Hlen).
  eexists. split; [apply create_file_container_eq; exact Hname|].
  rewrite <- (app_nil_r (dump_value 1 _ _)).
  pose proof DER_MAX_large. unfold PY_SSIZE_T_MAX in *.
  rewrite parse_file_container_dump by lia.
  rewrite (utf8_roundtrip filename name Hname). reflexivity.
Qed.

Lemma file_container_roundtrip_witness :
  valid_text (py_str "hello.txt")
  /\ len (py_str "hello.txt") <= PY_SSIZE_T_MAX
  /\ len (py_bytes "world") <= PY_SSIZE_T_MAX
  /\ exists der : bytes,
       create_file_container (py_str "hello.txt") (py_bytes "world") = Ok der
       /\ parse_file_container der = Ok (py_str "hello.txt", py_bytes "world").
Proof.
  assert (Hv : valid_text (py_str "hello.txt"))
    by (repeat (constructor; [reflexivity|]); constructor).
  assert (Hf : len (py_str "hello.txt") <= PY_SSIZE_T_MAX)
    by (vm_compute; discriminate).
  assert (Hd : len (py_bytes "world") <= PY_SSIZE_T_MAX)
    by (vm_compute; discriminate).
  repeat split; try assumption.
  exact (file_container_roundtrip (py_str "hello.txt") (py_bytes "world") Hv Hf Hd).
Defined.

(** The record of an empty payload under a one-letter name. *)
Example create_file_container_small :
  create_file_container (py_str "a") []
  = Ok [x30; x05; x0c; x01; x61; x04; x00].
Proof. reflexivity. Qed.

(** C3, as stated, fails: [create_file_container] returns the record alone.
    For the name "a" and the empty payload its result is no four-byte
    big-endian length followed by that many bytes. *)
Lemma create_file_container_not_prefixed :
  ~ exists (prefix record : bytes),
      create_file_container (py_str "a") [] = Ok (prefix ++ record)
      /\ length prefix = 4%nat
      /\ struct_unpack_I prefix = len record.
Proof.
  intros (prefix & record & E & Hl & Hu).
  rewrite create_file_container_small in E.
  destruct prefix as [|p0 [|p1 [|p2 [|p3 [|]]]]]; try discriminate Hl.
  cbn [app] in E. injection E as <- <- <- <- <-.
  vm_compute in Hu. discriminate Hu.
Qed.

(** C3, amended. [create_file_container] returns the structured record
    alone, which begins with the SEQUENCE octet; the complete wire message
    is built by the producer's loop: the length of the record as four
    big-endian bytes, then the record. *)
Theorem wire_message_prefixes_record (filename : text) (data msg : bytes) :
  wire_message filename data = Ok msg ->
  exists record : bytes,
    create_file_container filename data = Ok record
    /\ head record = Some x30
    /\ msg = be_digits 4 (len record) ++ record
    /\ struct_unpack_I (slice_to 4 msg) = len record
    /\ slice_from 4 msg = record.
Proof.
  unfold wire_message.
  destruct (create_file_container filename data) as [record|] eqn:Ec; [|discriminate].
  destruct (struct_pack_I (len record)) as [prefix|] eqn:Ep; [|discriminate].
  intros Hm. assert (msg = prefix ++ record) as -> by congruence. clear Hm.
  exists record. destruct (struct_roundtrip _ _ Ep) as [Hl Hu].
  assert (Hp : prefix = be_digits 4 (len record)).
  { unfold struct_pack_I in Ep. destruct (_ && _); congruence. }
  assert (H4 : 4 = len prefix) by (unfold len; lia).
  repeat split.
  - unfold create_file_container in Ec.
    destruct (utf8_encode filename); [|discriminate].
    assert (record = dump_value 1 TAG_SEQUENCE
              (dump_value 0 TAG_UTF8String a ++ dump_value 0 TAG_OctetString data))
      as -> by congruence.
    unfold dump_value, _dump_header. destruct (_ <=? _); reflexivity.
  - rewrite Hp. reflexivity.
  - rewrite H4, slice_to_app. exact Hu.
  - rewrite H4, slice_from_app. reflexivity.
Qed.

Lemma wire_message_prefixes_record_witness :
  wire_message (py_str "a") [] =
    Ok [x00; x00; x00; x07; x30; x05; x0c; x01; x61; x04; x00]
  /\ exists record : bytes,
       create_file_container (py_str "a") [] = Ok record
       /\ head record = Some x30
       /\ [x00; x00; x00; x07; x30; x05; x0c; x01; x61; x04; x00]
          = be_digits 4 (len record) ++ record
       /\ struct_unpack_I
            (slice_to 4 [x00; x00; x00; x07; x30; x05; x0c; x01; x61; x04; x00])
          = len record
       /\ slice_from 4 [x00; x00; x00; x07; x30; x05; x0c; x01; x61; x04; x00]
          = record.
Proof.
  split; [reflexivity|].
  exact (wire_message_prefixes_record (py_str "a") [] _ eq_refl).
Defined.

(** ** Reading from a connection *)

Lemma conn_frame_refl (sock : nat) (w : world) : conn_frame sock w w.
Proof. unfold conn_frame. auto 10. Qed.

Lemma conn_frame_trans (sock : nat) (w1 w2 w3 : world) :
  conn_frame sock w1 w2 -> conn_frame sock w2 w3 -> conn_frame sock w1 w3.
Proof.
  unfold conn_frame. intros (? & ? & ? & ? & ? & H12) (? & ? & ? & ? & ? & H23).
  repeat split; try congruence. intros j Hj. rewrite H23, H12; auto.
Qed.

Lemma conn_frame_update (sock : nat) (w : world) (c : conn_state) :
  conn_frame sock w (set_conns (<[sock := c]> (conns w)) w).
Proof.
  unfold conn_frame, set_conns. cbn. repeat split; auto.
  - apply length_insert.
  - intros j Hj. apply list_lookup_insert_ne. auto.
Qed.

Lemma recv_chunks_spec (bufsize : Z) (chunks : list bytes) :
  0 < bufsize ->
  exists (chunk : bytes) (rest : list bytes),
    recv_chunks bufsize chunks = (chunk, rest)
    /\ chunk ++ concat rest = concat chunks
    /\ len chunk <= bufsize
    /\ (chunk = [] -> concat chunks = [])
    /\ ((length rest < length chunks)%nat \/ len chunk = bufsize \/ chunk = []).
Proof.
  intros Hb. induction chunks as [|c cs IH]; cbn [recv_chunks].
  - exists [], []. repeat split; auto; unfold len; cbn [length]; lia.
  - destruct c as [|b c'].
    + destruct IH as (chunk & rest & E & Hcat & Hlen & Hnil & Hm).
      exists chunk, rest. rewrite E. cbn [concat app length].
      repeat split; auto. destruct Hm as [?|[?|?]]; auto.
    + destruct (Z.leb_spec (len (b :: c')) bufsize).
      * exists (b :: c'), cs. cbn [concat length]. repeat split; auto.
        discriminate.
      * exists (slice_to bufsize (b :: c')), (slice_from bufsize (b :: c') :: cs).
        cbn [concat]. unfold slice_to, slice_from.
        repeat split.
        -- rewrite app_assoc, take_drop. reflexivity.
        -- unfold len in *. rewrite length_take. lia.
        -- intros E. apply (f_equal length) in E.
           rewrite length_take in E. unfold len in *. cbn [length] in *. lia.
        -- right. left. unfold len in *. rewrite length_take. lia.
Qed.

Lemma recvall_loop_done `{Libraries} (fuel sock : nat) (count : Z) (buf : bytes)
    (w : world) :
  count <= len buf -> recvall_loop fuel sock count buf w = (Ok buf, w).
Proof.
  intros Hc. destruct fuel; cbn [recvall_loop]; zcases; reflexivity.
Qed.

Lemma stream_of_update (sock : nat) (w : world) (cs : list bytes) :
  (sock < length (conns w))%nat ->
  stream_of (set_conns (<[sock := mk_conn cs false]> (conns w)) w) sock
  = Some (concat cs).
Proof.
  intros Hs. unfold stream_of, set_conns. cbn [conns].
  rewrite list_lookup_insert_eq by exact Hs. reflexivity.
Qed.

Lemma recvall_loop_step `{Libraries} (fuel sock : nat) (count : Z)
    (buf chunk : bytes) (w : world) (cs rest : list bytes) :
  len buf < count ->
  conns w !! sock = Some (mk_conn cs false) ->
  recv_chunks (count - len buf) cs = (chunk, rest) ->
  recvall_loop (S fuel) sock count buf w
  = if bool_decide (chunk = [])
    then (Raise RuntimeError,
          set_conns (<[sock := mk_conn rest false]> (conns w)) w)
    else recvall_loop fuel sock count (buf ++ chunk)
           (set_conns (<[sock := mk_conn rest false]> (conns w)) w).
Proof.
  intros Hc Hw E. cbn [recvall_loop].
  destruct (Z.ltb_spec (len buf) count); [|lia].
  unfold bind, sock_recv. rewrite Hw. cbn [closed pending]. rewrite E.
  destruct (bool_decide (chunk = [])); reflexivity.
Qed.

Lemma recvall_loop_spec `{Libraries} (fuel sock : nat) (count : Z) (buf : bytes)
    (w : world) (cs : list bytes) :
  conns w !! sock = Some (mk_conn cs false) ->
  (length cs < fuel)%nat ->
  (count - len buf <= len (concat cs) ->
   exists w' : world,
     recvall_loop fuel sock count buf w
     = (Ok (buf ++ slice_to (count - len buf) (concat cs)), w')
     /\ stream_of w' sock = Some (slice_from (count - len buf) (concat cs))
     /\ conn_frame sock w w')
  /\ (len (concat cs) < count - len buf ->
      exists w' : world,
        recvall_loop fuel sock count buf w = (Raise RuntimeError, w')
        /\ conn_frame sock w w').
Proof.
  revert buf w cs. induction fuel as [|fuel IH]; intros buf w cs Hw Hf; [lia|].
  destruct (Z.le_gt_cases count (len buf)) as [Hdone|Hneed].
  { split.
    - intros _. exists w. rewrite recvall_loop_done by assumption.
      unfold slice_to, slice_from.
      replace (Z.to_nat (count - len buf)) with 0%nat by lia.
      rewrite take_0, drop_0, app_nil_r. split; [reflexivity|split].
      + unfold stream_of. rewrite Hw. reflexivity.
      + apply conn_frame_refl.
    - pose proof (len_nonneg (concat cs)). lia. }
  destruct (recv_chunks_spec (count - len buf) cs ltac:(lia))
    as (chunk & rest & E & Hcat & Hlen & Hnil & Hm).
  rewrite (recvall_loop_step fuel sock count buf chunk w cs rest Hneed Hw E).
  set (w1 := set_conns (<[sock := mk_conn rest false]> (conns w)) w).
  assert (Hs : (sock < length (conns w))%nat)
    by (apply lookup_lt_Some in Hw; exact Hw).
  assert (Hw1 : conns w1 !! sock = Some (mk_conn rest false))
    by (unfold w1, set_conns; cbn [conns]; apply list_lookup_insert_eq; exact Hs).
  assert (Hfr : conn_frame sock w w1) by apply conn_frame_update.
  assert (Htot : len (concat cs) = len chunk + len (concat rest))
    by (rewrite <- Hcat, len_app; reflexivity).
  destruct chunk as [|b chunk'].
  { rewrite bool_decide_eq_true_2 by reflexivity.
    specialize (Hnil eq_refl). rewrite Hnil, len_nil. split.
    - intros ?. lia.
    - intros _. exists w1. split; [reflexivity | exact Hfr]. }
  rewrite bool_decide_eq_false_2 by discriminate.
  set (chunk := b :: chunk') in *.
  assert (Hb : len (buf ++ chunk) = len buf + len chunk) by apply len_app.
  pose proof (len_nonneg (concat rest)) as Hrest0.
  destruct (Z.eq_dec (len chunk) (count - len buf)) as [Hfull|Hpart].
  { rewrite recvall_loop_done by lia. split.
    - intros _. exists w1. split; [|split; [|exact Hfr]].
      + rewrite <- Hcat, <- Hfull, slice_to_app. reflexivity.
      + unfold stream_of. rewrite Hw1. cbn [closed pending]. f_equal.
        rewrite <- Hcat, <- Hfull, slice_from_app. reflexivity.
    - lia. }
  assert (Hrest : (length rest < fuel)%nat).
  { destruct Hm as [?|[?|?]]; [lia | lia | discriminate]. }
  destruct (IH (buf ++ chunk) w1 rest Hw1 Hrest) as [IHok IHerr].
  rewrite Hb in IHok, IHerr. split.
  - intros Hen. destruct IHok as (w' & Er & Hst & Hfr'); [lia|].
    exists w'. rewrite Er. split; [|split].
    + do 2 f_equal. rewrite <- app_assoc. f_equal.
      rewrite <- Hcat. unfold slice_to, len.
      rewrite take_app_ge by (unfold len in *; lia).
      f_equal. f_equal. unfold len in *. lia.
    + rewrite Hst. f_equal. rewrite <- Hcat. unfold slice_from.
      rewrite drop_app_ge by (unfold len in *; lia).
      f_equal. unfold len in *. lia.
    + eapply conn_frame_trans; eassumption.
  - intros Hsh. destruct IHerr as (w' & Er & Hfr'); [lia|].
    exists w'. rewrite Er. split; [reflexivity|].
    eapply conn_frame_trans; eassumption.
Qed.

Lemma stream_of_inv (w : world) (sock : nat) (total : bytes) :
  stream_of w sock = Some total ->
  exists cs : list bytes,
    conns w !! sock = Some (mk_conn cs false) /\ total = concat cs.
Proof.
  unfold stream_of. destruct (conns w !! sock) as [[cs [|]]|]; try discriminate.
  intros [= <-]. exists cs. auto.
Qed.

Lemma recvall_spec `{Libraries} (sock : nat) (count : Z) (w : world) (total : bytes) :
  stream_of w sock = Some total ->
  (count <= len total ->
   exists w' : world,
     recvall sock count w = (Ok (slice_to count total), w')
     /\ stream_of w' sock = Some (slice_from count total)
     /\ conn_frame sock w w')
  /\ (len total < count ->
      exists w' : world,
        recvall sock count w = (Raise RuntimeError, w')
        /\ conn_frame sock w w').
Proof.
  intros Hs. destruct (stream_of_inv w sock total Hs) as (cs & Hw & ->).
  unfold recvall. rewrite Hw. cbn [pending].
  destruct (recvall_loop_spec (S (length cs)) sock count [] w cs Hw ltac:(lia))
    as [Hok Herr].
  rewrite len_nil, Z.sub_0_r in Hok, Herr. split; assumption.
Qed.

(** ** Stepping through computations *)

Lemma bind_Ok {A B} (m : M A) (k : A -> M B) (w w' : world) (a : A) :
  m w = (Ok a, w') -> bind m k w = k a w'.
Proof. intros E. unfold bind. rewrite E. reflexivity. Qed.

Lemma bind_Raise {A B} (m : M A) (k : A -> M B) (w w' : world) (e : exn) :
  m w = (Raise e, w') -> bind m k w = (Raise e, w').
Proof. intros E. unfold bind. rewrite E. reflexivity. Qed.

Lemma conn_frame_fs (sock : nat) (w w' : world) :
  conn_frame sock w w' -> fs w' = fs w.
Proof. intros H. apply H. Qed.

(** What [handle_file_data] does when the peer closes too early. *)
Lemma handle_file_data_premature `{Libraries} (conn : nat) (base : text)
    (key : bytes) (w : world) (total : bytes) :
  stream_of w conn = Some total ->
  len total < 4
  \/ (4 <= len total /\ len total < 4 + struct_unpack_I (slice_to 4 total)) ->
  exists w' : world,
    handle_file_data conn base key w = (Raise RuntimeError, w')
    /\ conn_frame conn w w'.
Proof.
  intros Hs Hshort. unfold handle_file_data.
  destruct (recvall_spec conn 4 w total Hs) as [Hok Herr].
  destruct Hshort as [H4|[H4 HN]].
  - destruct (Herr H4) as (w' & E & Hfr). exists w'.
    rewrite (bind_Raise _ _ _ _ _ E). auto.
  - destruct (Hok H4) as (w1 & E1 & Hs1 & Hfr1).
    rewrite (bind_Ok _ _ _ _ _ E1).
    destruct (recvall_spec conn (struct_unpack_I (slice_to 4 total)) w1 _ Hs1)
      as [_ Herr2].
    destruct Herr2 as (w' & E2 & Hfr2).
    { unfold slice_from, len in *. rewrite length_drop. lia. }
    exists w'. rewrite (bind_Raise _ _ _ _ _ E2).
    split; [reflexivity | eapply conn_frame_trans; eassumption].
Qed.

(** C5. [recvall] gathers the partial reads until it has exactly [count]
    bytes, whatever the chunks they arrive in, and raises (a
    [RuntimeError], the premature-close error) when the peer closes before
    that; so [handle_file_data] raises it when fewer than the four prefix
    bytes, or fewer than the [N] record bytes the prefix announces, are
    delivered. *)
Theorem recvall_exact_or_premature_close `{Libraries} (sock : nat) (base : text)
    (key : bytes) (w : world) (total : bytes) :
  stream_of w sock = Some total ->
  (forall count : Z,
     (count <= len total ->
      exists w' : world,
        recvall sock count w = (Ok (slice_to count total), w')
        /\ stream_of w' sock = Some (slice_from count total))
     /\ (len total < count ->
         exists w' : world, recvall sock count w = (Raise RuntimeError, w')))
  /\ (len total < 4 ->
      exists w' : world,
        handle_file_data sock base key w = (Raise RuntimeError, w'))
  /\ (4 <= len total ->
      len total - 4 < struct_unpack_I (slice_to 4 total) ->
      exists w' : world,
        handle_file_data sock base key w = (Raise RuntimeError, w')).
Proof.
  intros Hs. repeat split.
  - intros Hc. destruct (recvall_spec sock count w total Hs) as [Hok _].
    destruct (Hok Hc) as (w' & E & Hs' & _). eauto.
  - intros Hc. destruct (recvall_spec sock count w total Hs) as [_ Herr].
    destruct (Herr Hc) as (w' & E & _). eauto.
  - intros H4.
    destruct (handle_file_data_premature sock base key w total Hs) as (w' & E & _);
      eauto.
  - intros H4 HN.
    destruct (handle_file_data_premature sock base key w total Hs) as (w' & E & _);
      [right; split; lia | eauto].
Qed.

(** ** The errors of the parser *)

Lemma parse_high_tag_error (data : bytes) (tag : Z) (e : exn) :
  parse_high_tag data tag = Raise e -> e = ValueError.
Proof.
  revert tag. induction data as [|b r IH]; intros tag; cbn [parse_high_tag].
  - congruence.
  - destruct (_ && _); [congruence|]. destruct (_ =? _); [discriminate|]. apply IH.
Qed.

Lemma parse_tag_error (first_octet : Z) (r0 : bytes) (e : exn) :
  parse_tag first_octet r0 = Raise e -> e = ValueError.
Proof.
  unfold parse_tag. destruct (_ =? _); [|discriminate].
  destruct (parse_high_tag r0 0) as [[t r]|e'] eqn:E.
  - destruct (_ <? _); congruence.
  - apply parse_high_tag_error in E. congruence.
Qed.

Lemma element_error (fo tag hl : Z) (body : bytes) (n : Z) (trailer : bytes) (e : exn) :
  element fo tag hl body n trailer = Raise e -> e = ValueError.
Proof. unfold element. destruct (_ <? _); congruence. Qed.

Section NestedParser.

Variable nested : bytes -> result (parts * Z).
Hypothesis nested_error : forall data e, nested data = Raise e -> e = ValueError.

Lemma scan_contents_error (fuel : nat) (cur : bytes) (n : Z) (e : exn) :
  scan_contents nested fuel cur n = Raise e -> e = ValueError.
Proof.
  revert cur n. induction fuel as [|fuel IH]; intros cur n; cbn [scan_contents];
    destruct (at_end_of_contents cur); try congruence.
  destruct (nested cur) as [[p k]|e'] eqn:E.
  - apply IH.
  - apply nested_error in E. congruence.
Qed.

Lemma parse_with_error (data : bytes) (e : exn) :
  parse_with nested data = Raise e -> e = ValueError.
Proof.
  unfold parse_with. destruct data as [|b0 r0]; [congruence|].
  destruct (parse_tag (Z_of_byte b0) r0) as [[tag r1]|e'] eqn:Et.
  2: { apply parse_tag_error in Et. congruence. }
  destruct r1 as [|bl r2]; [congruence|].
  destruct (_ =? 0); [apply element_error|].
  destruct (negb _).
  { destruct (_ <? _); [congruence | apply element_error]. }
  destruct (_ =? 0); [congruence|].
  destruct (scan_contents nested (S (length r2)) r2 0) as [n|e'] eqn:Es.
  - apply element_error.
  - apply scan_contents_error in Es. congruence.
Qed.

End NestedParser.

Lemma _parse_error (depth_left : nat) (data : bytes) (e : exn) :
  _parse depth_left data = Raise e -> e = ValueError.
Proof.
  revert data e. induction depth_left as [|d IH]; intros data e; cbn [_parse].
  - congruence.
  - apply parse_with_error. exact IH.
Qed.

Lemma parse_element_error (data : bytes) (e : exn) :
  parse_element data = Raise e -> e = ValueError.
Proof. apply _parse_error. Qed.

Lemma _build_error (m t : Z) (c : bool) (p : parts) (e : exn) :
  _build m t c p = Raise e -> e = ValueError.
Proof.
  unfold _build. repeat (destruct (negb _ && _) || destruct (negb _)); congruence.
Qed.

Lemma parse_elements_error (fuel : nat) (contents : bytes) (e : exn) :
  parse_elements fuel contents = Raise e -> e = ValueError.
Proof.
  revert contents. induction fuel as [|fuel IH]; intros [|b r]; cbn [parse_elements];
    try congruence.
  destruct (parse_element (b :: r)) as [[p k]|e'] eqn:E.
  - destruct (parse_elements fuel _) eqn:E'; [discriminate|].
    intros [= <-]. eapply IH; eassumption.
  - apply parse_element_error in E. congruence.
Qed.

Lemma _parse_children_error (contents : bytes) (e : exn) :
  _parse_children contents = Raise e -> e = ValueError.
Proof.
  unfold _parse_children.
  destruct (parse_elements _ _) eqn:E.
  - destruct (_ <? _)%nat; congruence.
  - apply parse_elements_error in E. congruence.
Qed.

Lemma _merge_chunks_error (fuel : nat) (t : Z) (contents : bytes) (e : exn) :
  _merge_chunks fuel t contents = Raise e -> e = ValueError.
Proof.
  revert contents e. induction fuel as [|fuel IH]; intros [|b r] e;
    cbn [_merge_chunks]; try congruence.
  destruct (parse_element (b :: r)) as [[p k]|e'] eqn:E.
  2: { apply parse_element_error in E. congruence. }
  destruct (_build 0 t true p) as [[indefinite c]|e'] eqn:Eb.
  2: { apply _build_error in Eb. congruence. }
  destruct (if indefinite then _ else _) as [chunk|e'] eqn:Ec.
  - destruct (_merge_chunks fuel t (slice_from k (b :: r))) eqn:Er; [discriminate|].
    intros [= <-]. eapply IH; eassumption.
  - destruct indefinite; [|discriminate]. apply IH in Ec. congruence.
Qed.

Lemma string_field_error (t : Z) (p : parts) (e : exn) :
  string_field t p = Raise e -> e = ValueError.
Proof.
  unfold string_field. destruct (_build 0 t true p) as [[[|] c]|e'] eqn:Eb.
  - apply _merge_chunks_error.
  - discriminate.
  - apply _build_error in Eb. congruence.
Qed.

Lemma utf8_decode_error (bs : bytes) (e : exn) :
  utf8_decode bs = Raise e -> e = UnicodeDecodeError.
Proof.
  remember (length bs) as n eqn:Hn. revert bs Hn.
  induction n as [n IH] using lt_wf_ind. intros bs Hn.
  assert (Hrec : forall (c : Z) (r : bytes),
             (length r < n)%nat ->
             match utf8_decode r with
             | Ok t0 => Ok (c :: t0)
             | Raise e0 => Raise e0
             end = Raise e -> e = UnicodeDecodeError).
  { intros c r Hr. destruct (utf8_decode r) eqn:Er; [discriminate|].
    intros [= <-]. eapply IH; eauto. }
  destruct bs as [|b0 r0]; cbn [utf8_decode]; [discriminate|].
  cbn [length] in Hn.
  repeat match goal with
         | |- (if ?b then _ else _) = _ -> _ => destruct b
         | |- match ?l with [] => _ | _ => _ end = _ -> _ => destruct l; cbn [length] in Hn
         | |- Raise _ = Raise _ -> _ => congruence
         | |- _ => apply Hrec; lia
         end.
Qed.

Lemma parse_file_container_error (der_bytes : bytes) (e : exn) :
  parse_file_container der_bytes = Raise e ->
  e = ValueError \/ e = UnicodeDecodeError.
Proof.
  unfold parse_file_container.
  destruct (parse_element der_bytes) as [[top n]|e'] eqn:E1.
  2: { apply parse_element_error in E1. left. congruence. }
  destruct (_build 1 TAG_SEQUENCE false top) as [[i contents]|e'] eqn:E2.
  2: { apply _build_error in E2. left. congruence. }
  destruct (_parse_children contents) as [children|e'] eqn:E3.
  2: { apply _parse_children_error in E3. left. congruence. }
  destruct children as [|c0 [|c1 rest]]; try (left; congruence).
  destruct (string_field TAG_UTF8String c0) as [name|e'] eqn:E4.
  2: { apply string_field_error in E4. left. congruence. }
  destruct (utf8_decode name) as [filename|e'] eqn:E5.
  2: { apply utf8_decode_error in E5. right. congruence. }
  destruct (string_field TAG_OctetString c1) as [data|e'] eqn:E6; [discriminate|].
  apply string_field_error in E6. left. congruence.
Qed.

(** ** What a computation can raise, and what it leaves alone *)

Section Combinators.

Variable P : exn -> bool.
Variable R : world -> world -> Prop.
Hypothesis R_refl : forall w, R w w.
Hypothesis R_trans : forall w1 w2 w3, R w1 w2 -> R w2 w3 -> R w1 w3.

Lemma raises_in_ret {A} (a : A) : raises_in P (ret a).
Proof. intros w w' e. unfold ret. congruence. Qed.

Lemma raises_in_raise {A} (e : exn) : P e = true -> raises_in P (@raise A e).
Proof. intros He w w' e'. unfold raise. congruence. Qed.

Lemma raises_in_lift {A} (r : result A) :
  (forall e, r = Raise e -> P e = true) -> raises_in P (lift r).
Proof. intros Hr w w' e. unfold lift. intros [= -> _]. auto. Qed.

Lemma raises_in_bind {A B} (m : M A) (k : A -> M B) :
  raises_in P m -> (forall a, raises_in P (k a)) -> raises_in P (bind m k).
Proof.
  intros Hm Hk w w' e. unfold bind.
  destruct (m w) as [[a|e'] w1] eqn:E.
  - apply Hk.
  - intros [= <- <-]. eapply Hm. eassumption.
Qed.

Lemma keeps_ret {A} (a : A) : keeps R (ret a).
Proof. intros w w' r. unfold ret. intros [= _ <-]. apply R_refl. Qed.

Lemma keeps_raise {A} (e : exn) : keeps R (@raise A e).
Proof. intros w w' r. unfold raise. intros [= _ <-]. apply R_refl. Qed.

Lemma keeps_lift {A} (r : result A) : keeps R (lift r).
Proof. intros w w' r'. unfold lift. intros [= _ <-]. apply R_refl. Qed.

Lemma keeps_bind {A B} (m : M A) (k : A -> M B) :
  keeps R m -> (forall a, keeps R (k a)) -> keeps R (bind m k).
Proof.
  intros Hm Hk w w' r. unfold bind.
  destruct (m w) as [[a|e'] w1] eqn:E.
  - intros Hka. eapply R_trans; [eapply Hm | eapply Hk]; eassumption.
  - intros [= _ <-]. eapply Hm. eassumption.
Qed.

Lemma keeps_try_except {A} (body : M A) (handler : exn -> option (M A)) :
  keeps R body -> (forall e h, handler e = Some h -> keeps R h) ->
  keeps R (try_except body handler).
Proof.
  intros Hb Hh w w' r. unfold try_except.
  destruct (body w) as [[a|e] w1] eqn:E.
  - intros [= _ <-]. eapply Hb. eassumption.
  - destruct (handler e) as [h|] eqn:Eh.
    + intros Hr. eapply R_trans; [eapply Hb | eapply Hh]; eassumption.
    + intros [= _ <-]. eapply Hb. eassumption.
Qed.

Lemma keeps_try_finally {A} (body : M A) (final : M unit) :
  keeps R body -> keeps R final -> keeps R (try_finally body final).
Proof.
  intros Hb Hf w w' r. unfold try_finally.
  destruct (body w) as [r1 w1] eqn:E. destruct (final w1) as [[u|e] w2] eqn:E2;
    intros [= _ <-]; (eapply R_trans; [eapply Hb | eapply Hf]; eassumption).
Qed.

End Combinators.

(** The exceptions of the primitives are [Exception]s. *)

Lemma missing_dir_error_Exception (f : gmap text node) (p : text) :
  is_Exception (missing_dir_error f p) = true.
Proof. unfold missing_dir_error. destruct (path_exists f p); reflexivity. Qed.

Lemma raises_in_emit (P : exn -> bool) (ev : event) : raises_in P (emit ev).
Proof. intros w w' e. unfold emit. discriminate. Qed.

Lemma raises_in_write_file (p : text) (content : bytes) :
  raises_in is_Exception (write_file p content).
Proof.
  unfold write_file. apply raises_in_bind; [apply raises_in_emit|]. intros _ w w' e.
  repeat match goal with
         | |- (if ?b then _ else _) = _ -> _ => destruct b
         | |- match ?x with _ => _ end = _ -> _ => destruct x
         end; intros [= <- _]; auto using missing_dir_error_Exception.
Qed.

Lemma mkdir_Exception (p : text) (f f' : gmap text node) (e : exn) :
  mkdir p f = Raise e -> is_Exception e = true.
Proof.
  unfold mkdir.
  repeat match goal with
         | |- (if ?b then _ else _) = _ -> _ => destruct b
         end; intros [= <-]; auto using missing_dir_error_Exception.
Qed.

Lemma makedirs_Exception (fuel : nat) (name : text) (f : gmap text node) (e : exn) :
  makedirs fuel name f = Raise e -> is_Exception e = true.
Proof.
  revert name f e. induction fuel as [|fuel IH]; intros name f e; cbn [makedirs].
  - intros [= <-]. reflexivity.
  - assert (Hlast : forall f1,
               match mkdir name f1 with
               | Ok f2 => Ok f2
               | Raise e0 =>
                   if is_OSError e0 && path_isdir f1 name then Ok f1 else Raise e0
               end = Raise e -> is_Exception e = true).
    { intros f1. destruct (mkdir name f1) eqn:Em; [discriminate|].
      destruct (_ && _); [discriminate|]. intros [= <-].
      eapply mkdir_Exception; eauto. }
    destruct (os_path_split name) as [head0 tail0].
    destruct (if bool_decide (tail0 = []) then _ else _) as [head tail].
    destruct (_ && _); [|apply Hlast].
    destruct (makedirs fuel head f) eqn:Em.
    + destruct (bool_decide _); [discriminate | apply Hlast].
    + destruct (bool_decide (e0 = FileExistsError)).
      * destruct (bool_decide _); [discriminate | apply Hlast].
      * intros [= <-]. eapply IH; eauto.
Qed.

Lemma raises_in_os_makedirs (name : text) : raises_in is_Exception (os_makedirs name).
Proof.
  unfold os_makedirs. apply raises_in_bind; [apply raises_in_emit|]. intros _ w w' e.
  destruct (makedirs _ _ _) eqn:Em; [discriminate|]. intros [= <- _].
  eapply makedirs_Exception; eauto.
Qed.

Lemma raises_in_sock_recv (sock : nat) (bufsize : Z) :
  raises_in is_Exception (sock_recv sock bufsize).
Proof.
  intros w w' e. unfold sock_recv.
  destruct (conns w !! sock) as [c|]; [|intros [= <- _]; reflexivity].
  destruct (closed c); [intros [= <- _]; reflexivity|].
  destruct (recv_chunks _ _). discriminate.
Qed.

Lemma raises_in_recvall_loop `{Libraries} (fuel sock : nat) (count : Z) (buf : bytes) :
  raises_in is_Exception (recvall_loop fuel sock count buf).
Proof.
  revert buf. induction fuel as [|fuel IH]; intros buf; cbn [recvall_loop];
    destruct (_ <? _); try apply raises_in_ret; try (apply raises_in_raise; reflexivity).
  apply raises_in_bind; [apply raises_in_sock_recv|]. intros chunk.
  destruct (bool_decide _); [apply raises_in_raise; reflexivity | apply IH].
Qed.

Lemma raises_in_recvall `{Libraries} (sock : nat) (count : Z) :
  raises_in is_Exception (recvall sock count).
Proof. intros w w' e. unfold recvall. apply raises_in_recvall_loop. Qed.

Lemma raises_in_handle_file_data `{Libraries} (conn : nat) (base : text) (key : bytes) :
  raises_in is_Exception (handle_file_data conn base key).
Proof.
  unfold handle_file_data.
  apply raises_in_bind; [apply raises_in_recvall|]. intros length_bytes.
  apply raises_in_bind; [apply raises_in_recvall|]. intros der_data.
  apply raises_in_bind.
  { apply raises_in_lift. intros e He.
    destruct (parse_file_container_error _ _ He) as [-> | ->]; reflexivity. }
  intros [filename file_data].
  apply raises_in_bind; [intros w w' e; discriminate|]. intros now.
  repeat (apply raises_in_bind;
          [first [apply raises_in_os_makedirs | apply raises_in_write_file
                 | apply raises_in_emit]|]; intros _).
  apply raises_in_emit.
Qed.

(** ** Connections stay closed *)

Lemma conns_steady_refl (w : world) : conns_steady w w.
Proof. unfold conns_steady. auto. Qed.

Lemma conns_steady_trans (w1 w2 w3 : world) :
  conns_steady w1 w2 -> conns_steady w2 w3 -> conns_steady w1 w3.
Proof. unfold conns_steady. intros [? ?] [? ?]. split; [congruence | auto]. Qed.

Lemma conns_steady_same (w w' : world) : conns w' = conns w -> conns_steady w w'.
Proof. unfold conns_steady, closed_at. intros ->. auto. Qed.

Lemma keeps_same_conns {A} (m : M A) :
  (forall w w' r, m w = (r, w') -> conns w' = conns w) -> keeps conns_steady m.
Proof. intros Hm w w' r E. apply conns_steady_same. eapply Hm. eassumption. Qed.

Lemma keeps_emit (ev : event) : keeps conns_steady (emit ev).
Proof. apply keeps_same_conns. unfold emit. intros w w' r [= _ <-]. reflexivity. Qed.

Lemma keeps_write_file (p : text) (content : bytes) :
  keeps conns_steady (write_file p content).
Proof.
  unfold write_file.
  apply keeps_bind; [apply conns_steady_trans | apply keeps_emit|]. intros _.
  apply keeps_same_conns. intros w w' r.
  repeat match goal with
         | |- (if ?b then _ else _) = _ -> _ => destruct b
         | |- match ?x with _ => _ end = _ -> _ => destruct x
         end; intros [= _ <-]; reflexivity.
Qed.

Lemma keeps_os_makedirs (name : text) : keeps conns_steady (os_makedirs name).
Proof.
  unfold os_makedirs.
  apply keeps_bind; [apply conns_steady_trans | apply keeps_emit|]. intros _.
  apply keeps_same_conns. intros w w' r.
  destruct (makedirs _ _ _); intros [= _ <-]; reflexivity.
Qed.

Lemma keeps_sock_recv (sock : nat) (bufsize : Z) :
  keeps conns_steady (sock_recv sock bufsize).
Proof.
  intros w w' r. unfold sock_recv.
  destruct (conns w !! sock) as [c|] eqn:Ec;
    [|intros [= _ <-]; apply conns_steady_refl].
  destruct (closed c) eqn:Hc; [intros [= _ <-]; apply conns_steady_refl|].
  destruct (recv_chunks _ _) as [chunk rest]. intros [= _ <-].
  unfold conns_steady, closed_at, set_conns. cbn [conns].
  rewrite length_insert. split; [reflexivity|].
  intros i (c' & Hi & Hcl). destruct (decide (i = sock)) as [->|Hne].
  - congruence.
  - exists c'. rewrite list_lookup_insert_ne by auto. auto.
Qed.

Lemma keeps_sock_close (sock : nat) : keeps conns_steady (sock_close sock).
Proof.
  intros w w' r. unfold sock_close.
  destruct (conns w !! sock) as [c|] eqn:Ec; intros [= _ <-].
  - unfold conns_steady, closed_at, log_event, set_conns. cbn [conns].
    rewrite length_insert. split; [reflexivity|].
    intros i (c' & Hi & Hcl). destruct (decide (i = sock)) as [->|Hne].
    + eexists. rewrite list_lookup_insert_eq by (eapply lookup_lt_Some; eauto).
      split; reflexivity.
    + exists c'. rewrite list_lookup_insert_ne by auto. auto.
  - apply conns_steady_same. reflexivity.
Qed.

Lemma keeps_recvall_loop `{Libraries} (fuel sock : nat) (count : Z) (buf : bytes) :
  keeps conns_steady (recvall_loop fuel sock count buf).
Proof.
  revert buf. induction fuel as [|fuel IH]; intros buf; cbn [recvall_loop];
    destruct (_ <? _);
    try (apply keeps_ret; apply conns_steady_refl);
    try (apply keeps_raise; apply conns_steady_refl).
  apply keeps_bind; [apply conns_steady_trans | apply keeps_sock_recv|]. intros chunk.
  destruct (bool_decide _); [apply keeps_raise; apply conns_steady_refl | apply IH].
Qed.

Lemma keeps_recvall `{Libraries} (sock : nat) (count : Z) :
  keeps conns_steady (recvall sock count).
Proof. intros w w' r. unfold recvall. apply keeps_recvall_loop. Qed.

Lemma keeps_handle_file_data `{Libraries} (conn : nat) (base : text) (key : bytes) :
  keeps conns_steady (handle_file_data conn base key).
Proof.
  unfold handle_file_data.
  apply keeps_bind; [apply conns_steady_trans | apply keeps_recvall|]. intros ?.
  apply keeps_bind; [apply conns_steady_trans | apply keeps_recvall|]. intros ?.
  apply keeps_bind; [apply conns_steady_trans | apply keeps_lift, conns_steady_refl|].
  intros [filename file_data].
  apply keeps_bind; [apply conns_steady_trans | |].
  { apply keeps_same_conns. unfold time_time. intros w w' r [= _ <-]. reflexivity. }
  intros now.
  repeat (apply keeps_bind;
          [apply conns_steady_trans
          |first [apply keeps_os_makedirs | apply keeps_write_file | apply keeps_emit]
          |]; intros _).
  apply keeps_emit.
Qed.

Lemma handler_of_connection_total (e : exn) :
  is_Exception e = true ->
  exists line : text,
    (if bool_decide (e = AttestationDaemonError)
     then Some (print (py_str "[Error] Protocol error: "))
     else if is_Exception e
          then Some (print (py_str "[Error] Unexpected error while handling connection: "))
          else None) = Some (print line).
Proof.
  intros He. rewrite He. destruct (bool_decide _); eauto.
Qed.

(** [handle_connection] always returns, leaving its connection closed; its
    last act is the [close]. *)
Lemma handle_connection_returns `{Libraries} (conn : nat) (base : text)
    (key : bytes) (w : world) :
  exists w' : world,
    handle_connection conn base key w = (Ok tt, w')
    /\ conns_steady w w'
    /\ (conn < length (conns w) -> closed_at w' conn)%nat
    /\ last (trace w') = Some (EvConnClose conn)
    /\ (forall w1 e, handle_file_data conn base key w = (Raise e, w1) ->
        fs w' = fs w1).
Proof.
  unfold handle_connection, try_finally, try_except.
  destruct (handle_file_data conn base key w) as [[[]|e] w1] eqn:E.
  - pose proof (keeps_handle_file_data conn base key _ _ _ E) as Hg.
    destruct (sock_close conn w1) as [r w2] eqn:Ec.
    pose proof (keeps_sock_close conn _ _ _ Ec) as Hg2.
    unfold sock_close in Ec.
    exists w2. destruct (conns w1 !! conn) as [c|] eqn:Ew;
      injection Ec as <- <-; (split; [reflexivity|]);
      (split; [eapply conns_steady_trans; eassumption|]); repeat split.
    + intros _. eexists. unfold log_event, set_conns. cbn [conns].
      rewrite list_lookup_insert_eq by (eapply lookup_lt_Some; eauto).
      split; reflexivity.
    + unfold log_event. cbn [trace]. apply last_snoc.
    + discriminate.
    + intros Hlt. apply lookup_ge_None in Ew. destruct Hg as [Hg _]. lia.
    + unfold log_event. cbn [trace]. apply last_snoc.
    + discriminate.
  - pose proof (keeps_handle_file_data conn base key _ _ _ E) as Hg.
    pose proof (raises_in_handle_file_data conn base key _ _ _ E) as He.
    destruct (handler_of_connection_total e He) as (line & ->).
    unfold print, emit. cbv beta.
    set (w2 := log_event (EvPrint line) w1).
    assert (Hg12 : conns_steady w1 w2) by (apply conns_steady_same; reflexivity).
    destruct (sock_close conn w2) as [r w3] eqn:Ec.
    pose proof (keeps_sock_close conn _ _ _ Ec) as Hg2.
    unfold sock_close in Ec.
    exists w3. destruct (conns w2 !! conn) as [c|] eqn:Ew;
      injection Ec as <- <-. all: (split; [reflexivity|]).
    all: split.
    1, 3: eapply conns_steady_trans; [exact Hg|]; eapply conns_steady_trans;
      [exact Hg12 | exact Hg2].
    all: repeat split.
    + intros _. eexists. unfold log_event, set_conns. cbn [conns].
      rewrite list_lookup_insert_eq by (eapply lookup_lt_Some; eauto).
      split; reflexivity.
    + unfold log_event. cbn [trace]. apply last_snoc.
    + intros w1' e' [= <- <-]. reflexivity.
    + intros Hlt. apply lookup_ge_None in Ew. destruct Hg as [Hg _].
      unfold w2, log_event in Ew. cbn [conns] in Ew. lia.
    + unfold log_event. cbn [trace]. apply last_snoc.
    + intros w1' e' [= <- <-]. reflexivity.
Qed.

Lemma keeps_handle_connection `{Libraries} (conn : nat) (base : text) (key : bytes) :
  keeps conns_steady (handle_connection conn base key).
Proof.
  intros w w' r E.
  destruct (handle_connection_returns conn base key w) as (w'' & E' & Hg & _).
  congruence.
Qed.

Lemma sock_accept_spec (a : arrival) (w : world) :
  exists w' : world,
    sock_accept a w = (Ok (length (conns w)), w')
    /\ conns w' = conns w ++ [mk_conn (arrival_chunks a) false]
    /\ fs w' = fs w
    /\ stream_of w' (length (conns w)) = Some (concat (arrival_chunks a)).
Proof.
  eexists. split; [reflexivity|]. unfold log_event, set_clock, set_conns, stream_of.
  cbn [conns fs]. repeat split.
  rewrite lookup_app_r, Nat.sub_diag by lia. reflexivity.
Qed.

(** One turn of the accept loop: the connection is accepted, handled and
    closed, and the loop goes on. *)
Lemma accept_loop_step `{Libraries} (a : arrival) (rest : list arrival)
    (base : text) (key : bytes) (w : world) :
  exists w1 : world,
    accept_loop (a :: rest) base key w = accept_loop rest base key w1
    /\ length (conns w1) = S (length (conns w))
    /\ closed_at w1 (length (conns w))
    /\ (forall i, closed_at w i -> closed_at w1 i)
    /\ (truncated (concat (arrival_chunks a)) -> fs w1 = fs w).
Proof.
  destruct (sock_accept_spec a w) as (wa & Ea & Hca & Hfa & Hsa).
  set (wp := log_event (EvPrint (py_str "Accepted connection.")) wa).
  destruct (handle_connection_returns (length (conns w)) base key wp)
    as (w1 & Eh & [Hlen Hcl] & Hclosed & _ & Hfs).
  assert (Hcp : conns wp = conns w ++ [mk_conn (arrival_chunks a) false])
    by (unfold wp, log_event; cbn [conns]; exact Hca).
  assert (Hlp : length (conns wp) = S (length (conns w)))
    by (rewrite Hcp, length_app; cbn [length]; lia).
  exists w1. repeat split.
  - cbn [accept_loop]. rewrite (bind_Ok _ _ _ _ _ Ea).
    unfold print, emit. unfold bind at 1. fold wp.
    rewrite (bind_Ok _ _ _ _ _ Eh). reflexivity.
  - lia.
  - apply Hclosed. lia.
  - intros i (c & Hi & Hc). apply Hcl. exists c. split; [|exact Hc].
    rewrite Hcp. apply lookup_app_l_Some. exact Hi.
  - intros Ht.
    assert (Hsp : stream_of wp (length (conns w)) = Some (concat (arrival_chunks a)))
      by exact Hsa.
    destruct (handle_file_data_premature (length (conns w)) base key wp _ Hsp)
      as (wx & Ex & Hfr).
    { destruct Ht as [?|?]; [left; assumption|].
      destruct (Z.lt_ge_cases (len (concat (arrival_chunks a))) 4); [left|right]; lia. }
    rewrite (Hfs _ _ Ex). rewrite (conn_frame_fs _ _ _ Hfr). exact Hfa.
Qed.

Lemma accept_loop_spec `{Libraries} (arrivals : list arrival) (base : text)
    (key : bytes) (w : world) :
  exists w' : world,
    accept_loop arrivals base key w = (Raise KeyboardInterrupt, w')
    /\ length (conns w') = (length (conns w) + length arrivals)%nat
    /\ (forall i, closed_at w i -> closed_at w' i)
    /\ forall i, (length (conns w) <= i < length (conns w'))%nat -> closed_at w' i.
Proof.
  revert w. induction arrivals as [|a rest IH]; intros w.
  - exists w. cbn [accept_loop length]. repeat split; auto; lia.
  - destruct (accept_loop_step a rest base key w) as (w1 & E1 & Hl1 & Hc1 & Hk1 & _).
    destruct (IH w1) as (w' & E' & Hl' & Hk' & Hc').
    exists w'. rewrite E1. repeat split; auto.
    + rewrite Hl', Hl1. cbn [length]. lia.
    + intros i Hi. destruct (decide (i = length (conns w))) as [->|Hne].
      * apply Hk'. exact Hc1.
      * apply Hc'. lia.
Qed.



(** The run of the daemon on the truncated message followed by the
    well-formed one: both connections end closed, and the receipt of the
    second is on disk. *)
Example isolation_run :
  let w' := snd (main (H := sample_libraries) [truncated_arrival; hello_arrival]
                   (world_of prepared_fs)) in
  conns w' = [mk_conn [] true; mk_conn [] true]
  /\ fs w' !! py_str "/var/lib/attestation_results/1700000001/hello.txt"
     = Some (File (py_bytes "world"))
  /\ fs w' !! py_str "/var/lib/attestation_results/1700000001/hello.txt.sig"
     = Some (File (b64encode (Libraries := sample_libraries)
                     (sign (Libraries := sample_libraries)
                        (py_bytes "seed-one") (py_bytes "world")))).
Proof. vm_compute. repeat split; reflexivity. Qed.

(** ** The primitives, inverted *)

Lemma emit_eq (ev : event) (w : world) : emit ev w = (Ok tt, log_event ev w).
Proof. reflexivity. Qed.

Lemma write_file_Ok (p : text) (content : bytes) (w w' : world) :
  write_file p content w = (Ok tt, w') ->
  fs w' = <[p := File content]> (fs w)
  /\ clock w' = clock w /\ conns w' = conns w /\ entropy w' = entropy w
  /\ trace w' = trace w ++ [EvOpenWrite p].
Proof.
  unfold write_file. rewrite (bind_Ok _ _ _ _ _ (emit_eq _ w)).
  cbn [fs log_event].
  repeat match goal with
         | |- (if ?b then _ else _) = _ -> _ => destruct b
         | |- match ?x with _ => _ end = _ -> _ => destruct x
         end; intros [= <-]; auto.
Qed.

Lemma write_file_Raise (p : text) (content : bytes) (w w' : world) (e : exn) :
  write_file p content w = (Raise e, w') ->
  fs w' = fs w /\ conns w' = conns w /\ entropy w' = entropy w
  /\ trace w' = trace w ++ [EvOpenWrite p].
Proof.
  unfold write_file. rewrite (bind_Ok _ _ _ _ _ (emit_eq _ w)).
  cbn [fs log_event].
  repeat match goal with
         | |- (if ?b then _ else _) = _ -> _ => destruct b
         | |- match ?x with _ => _ end = _ -> _ => destruct x
         end; intros [= <- <-]; auto.
Qed.

Lemma os_makedirs_inv (name : text) (w w' : world) (r : result unit) :
  os_makedirs name w = (r, w') ->
  clock w' = clock w /\ conns w' = conns w /\ entropy w' = entropy w
  /\ trace w' = trace w ++ [EvMakedirs name]
  /\ match r with
     | Ok _ => makedirs (S (length name)) name (fs w) = Ok (fs w')
     | Raise e => makedirs (S (length name)) name (fs w) = Raise e /\ fs w' = fs w
     end.
Proof.
  unfold os_makedirs. rewrite (bind_Ok _ _ _ _ _ (emit_eq _ w)).
  cbn [fs log_event].
  destruct (makedirs _ _ _) as [f|e]; intros [= <- <-]; auto 10.
Qed.

Lemma print_eq (line : text) (w : world) :
  print line w = (Ok tt, log_event (EvPrint line) w).
Proof. reflexivity. Qed.

(** ** Timestamps and paths *)

Lemma str_digits_last (fuel : nat) (n : Z) (acc : text) :
  exists pre : text, str_digits fuel n acc = pre ++ (48 + n mod 10) :: acc.
Proof.
  revert n acc. induction fuel as [|fuel IH]; intros n acc; cbn [str_digits].
  - exists []. reflexivity.
  - destruct (n <? 10); [exists []; reflexivity|].
    destruct (IH (n / 10) ((48 + n mod 10) :: acc)) as (pre & ->).
    exists (pre ++ [48 + (n / 10) mod 10]). rewrite <- app_assoc. reflexivity.
Qed.

Lemma str_int_last (z : Z) :
  exists (pre : text) (d : Z), str_int z = pre ++ [d] /\ 48 <= d <= 57.
Proof.
  unfold str_int. destruct (z <? 0).
  - destruct (str_digits_last (Z.to_nat (Z.log2 (- z))) (- z) []) as (pre & ->).
    exists (45 :: pre), (48 + (- z) mod 10). split; [reflexivity | lia].
  - destruct (str_digits_last (Z.to_nat (Z.log2 z)) z []) as (pre & ->).
    exists pre, (48 + z mod 10). split; [reflexivity | lia].
Qed.

Lemma ends_with_sep_snoc (p : text) (d : Z) :
  ends_with_sep (p ++ [d]) = (d =? SEP).
Proof. unfold ends_with_sep. rewrite rev_app_distr. reflexivity. Qed.

(** The receipt directory is a path that does not end in a separator. *)
Lemma receipt_dir_shape (base : text) (z : Z) :
  exists (pre : text) (d : Z),
    os_path_join base (str_int z) = pre ++ [d] /\ d <> SEP.
Proof.
  destruct (str_int_last z) as (pre & d & E & Hd). rewrite E.
  assert (d <> SEP) by (unfold SEP; lia).
  unfold os_path_join.
  destruct (starts_with_sep _); [eauto|].
  destruct (_ || _).
  - exists (base ++ pre), d. rewrite app_assoc. auto.
  - exists (base ++ [SEP] ++ pre), d. rewrite <- !app_assoc. auto.
Qed.

(** Under a receipt directory, a name that does not begin with a separator
    is joined by one. *)
Lemma os_path_join_relative (base : text) (z : Z) (filename : text) :
  starts_with_sep filename = false ->
  os_path_join (os_path_join base (str_int z)) filename
  = os_path_join base (str_int z) ++ [SEP] ++ filename.
Proof.
  intros Hrel. destruct (receipt_dir_shape base z) as (pre & d & -> & Hd).
  unfold os_path_join at 1. rewrite Hrel, ends_with_sep_snoc.
  destruct (Z.eqb_spec d SEP); [contradiction|].
  rewrite bool_decide_eq_false_2 by (destruct pre; discriminate).
  reflexivity.
Qed.

(** ** The receipt of a connection *)





(** ** The trace only grows *)

Lemma trace_extends_refl (w : world) : trace_extends w w.
Proof. exists []. symmetry. apply app_nil_r. Qed.

Lemma trace_extends_trans (w1 w2 w3 : world) :
  trace_extends w1 w2 -> trace_extends w2 w3 -> trace_extends w1 w3.
Proof.
  intros [e1 H1] [e2 H2]. exists (e1 ++ e2). rewrite H2, H1, app_assoc. reflexivity.
Qed.

Lemma trace_extends_same (w w' : world) : trace w' = trace w -> trace_extends w w'.
Proof. intros E. exists []. rewrite E, app_nil_r. reflexivity. Qed.

Lemma trace_extends_log (ev : event) (w w' : world) :
  trace w' = trace w -> trace_extends w (log_event ev w').
Proof. intros E. exists [ev]. unfold log_event. cbn [trace]. rewrite E. reflexivity. Qed.

Create HintDb trace.

#[local] Hint Resolve trace_extends_refl trace_extends_same trace_extends_log : trace.

(** Settle [keeps trace_extends] for a primitive by running through its
    branches. *)
Ltac keeps_trace_prim :=
  intros ? ? ?;
  repeat match goal with
         | |- (if ?b then _ else _) = _ -> _ => destruct b
         | |- match ?x with _ => _ end = _ -> _ => destruct x
         | |- (let (_, _) := ?x in _) = _ -> _ => destruct x
         end;
  intros [= _ <-]; auto with trace.

Ltac keeps_trace_bind :=
  apply keeps_bind; [apply trace_extends_trans | | intros ?].

Lemma trace_emit (ev : event) : keeps trace_extends (emit ev).
Proof. unfold emit. keeps_trace_prim. Qed.

Lemma trace_os_path_exists (p : text) : keeps trace_extends (os_path_exists p).
Proof. unfold os_path_exists. keeps_trace_prim. Qed.

Lemma trace_write_file (p : text) (c : bytes) : keeps trace_extends (write_file p c).
Proof.
  unfold write_file. keeps_trace_bind; [apply trace_emit|]. keeps_trace_prim.
Qed.

Lemma trace_read_file (p : text) : keeps trace_extends (read_file p).
Proof.
  unfold read_file. keeps_trace_bind; [apply trace_emit|]. keeps_trace_prim.
Qed.

Lemma trace_os_remove (p : text) : keeps trace_extends (os_remove p).
Proof.
  unfold os_remove. keeps_trace_bind; [apply trace_emit|]. keeps_trace_prim.
Qed.

Lemma trace_os_makedirs (p : text) : keeps trace_extends (os_makedirs p).
Proof.
  unfold os_makedirs. keeps_trace_bind; [apply trace_emit|]. keeps_trace_prim.
Qed.

Lemma trace_sock_bind (p : text) : keeps trace_extends (sock_bind p).
Proof.
  unfold sock_bind. keeps_trace_bind; [apply trace_emit|]. keeps_trace_prim.
Qed.

Lemma trace_sock_accept (a : arrival) : keeps trace_extends (sock_accept a).
Proof. unfold sock_accept. keeps_trace_prim. Qed.

Lemma trace_sock_recv (sock : nat) (n : Z) : keeps trace_extends (sock_recv sock n).
Proof. unfold sock_recv. keeps_trace_prim. Qed.

Lemma trace_sock_close (sock : nat) : keeps trace_extends (sock_close sock).
Proof. unfold sock_close. keeps_trace_prim. Qed.

Lemma trace_generate `{Libraries} : keeps trace_extends generate.
Proof. unfold generate. keeps_trace_prim. Qed.

Lemma trace_time_time : keeps trace_extends time_time.
Proof. unfold time_time. keeps_trace_prim. Qed.

#[local] Hint Resolve trace_emit trace_os_path_exists trace_write_file trace_read_file
  trace_os_remove trace_os_makedirs trace_sock_bind trace_sock_accept trace_sock_recv
  trace_sock_close trace_time_time : trace.

Lemma trace_recvall `{Libraries} (sock : nat) (count : Z) :
  keeps trace_extends (recvall sock count).
Proof.
  assert (Hloop : forall fuel buf, keeps trace_extends (recvall_loop fuel sock count buf)).
  { induction fuel as [|fuel IH]; intros buf; cbn [recvall_loop];
      destruct (_ <? _);
      try (apply keeps_ret; auto with trace);
      try (apply keeps_raise; auto with trace).
    keeps_trace_bind; [auto with trace|].
    destruct (bool_decide _); [apply keeps_raise; auto with trace | apply IH]. }
  intros w w' r. unfold recvall. apply Hloop.
Qed.

Lemma trace_handle_file_data `{Libraries} (conn : nat) (base : text) (key : bytes) :
  keeps trace_extends (handle_file_data conn base key).
Proof.
  unfold handle_file_data.
  keeps_trace_bind; [apply trace_recvall|].
  keeps_trace_bind; [apply trace_recvall|].
  keeps_trace_bind; [apply keeps_lift; auto with trace|].
  destruct a1 as [filename file_data].
  keeps_trace_bind; [auto with trace|].
  unfold print.
  repeat (keeps_trace_bind; [auto with trace|]).
  auto with trace.
Qed.

Lemma trace_handle_connection `{Libraries} (conn : nat) (base : text) (key : bytes) :
  keeps trace_extends (handle_connection conn base key).
Proof.
  unfold handle_connection.
  apply keeps_try_finally; [apply trace_extends_trans | | auto with trace].
  apply keeps_try_except;
    [apply trace_extends_trans | apply trace_handle_file_data |].
  intros e h. unfold print.
  destruct (bool_decide _); [intros [= <-]; auto with trace|].
  destruct (is_Exception e); [intros [= <-]; auto with trace | discriminate].
Qed.

Lemma trace_accept_loop `{Libraries} (arrivals : list arrival) (base : text)
    (key : bytes) :
  keeps trace_extends (accept_loop arrivals base key).
Proof.
  induction arrivals as [|a rest IH]; cbn [accept_loop].
  - apply keeps_raise. auto with trace.
  - keeps_trace_bind; [auto with trace|].
    unfold print. keeps_trace_bind; [auto with trace|].
    keeps_trace_bind; [apply trace_handle_connection | apply IH].
Qed.

Lemma trace_get_signing_key `{Libraries} (key_path : text) :
  keeps trace_extends (get_signing_key key_path).
Proof.
  unfold get_signing_key. keeps_trace_bind; [auto with trace|].
  destruct a.
  - apply keeps_try_except; [apply trace_extends_trans | |].
    + keeps_trace_bind; [auto with trace|].
      destruct (load_pem_private_key a);
        [apply keeps_ret | apply keeps_raise | apply keeps_raise]; auto with trace.
    + intros e h. destruct (_ || _); [intros [= <-]|discriminate].
      apply keeps_raise. auto with trace.
  - keeps_trace_bind; [apply trace_generate|].
    keeps_trace_bind; [apply trace_write_file|].
    keeps_trace_bind; [|apply keeps_ret; auto with trace].
    unfold save_public_key. keeps_trace_bind; auto with trace.
Qed.

(** ** Start-up *)

Lemma run_server_eq `{Libraries} (sp base : text) (arrivals : list arrival) :
  run_server sp base arrivals
  = (remove_stale sp ;;;
     let* signing_key := get_signing_key SIGNING_KEY_PATH in
     serve sp base arrivals signing_key).
Proof. reflexivity. Qed.

Lemma path_exists_delete (f : gmap text node) (sp p : text) :
  path_exists f p = false -> path_exists (delete sp f) p = false.
Proof.
  unfold path_exists, node_at. destruct (bool_decide (p = ROOT)); [discriminate|].
  destruct (f !! p) eqn:E; [discriminate|]. intros _.
  destruct (decide (sp = p)) as [->|Hne].
  - rewrite lookup_delete_eq. reflexivity.
  - rewrite lookup_delete_ne, E by exact Hne. reflexivity.
Qed.


(** What removing a stale socket does: nothing without one; otherwise one
    [unlink], which deletes the entry or fails. *)
Lemma remove_stale_spec (sp : text) (w : world) :
  exists (r : result unit) (w0 : world),
    remove_stale sp w = (r, w0)
    /\ conns w0 = conns w /\ entropy w0 = entropy w
    /\ ((path_exists (fs w) sp = false /\ r = Ok tt /\ w0 = w)
        \/ (path_exists (fs w) sp = true
            /\ trace w0 = trace w ++ [EvUnlink sp]
            /\ ((r = Ok tt /\ fs w0 = delete sp (fs w))
                \/ (exists e, r = Raise e /\ is_OSError e = true /\ fs w0 = fs w
                               /\ path_isdir (fs w) sp = true)))).
Proof.
  unfold remove_stale, bind, os_path_exists.
  destruct (path_exists (fs w) sp) eqn:Hex.
  - unfold os_remove, bind, emit. cbn [fs log_event].
    unfold path_exists in Hex. unfold path_isdir.
    destruct (node_at (fs w) sp) as [[| |]|]; try discriminate;
      do 2 eexists; (split; [reflexivity|]); cbn [conns entropy trace fs set_fs];
      repeat split; right; repeat split; eauto 10.
  - exists (Ok tt), w. unfold ret. auto 10.
Qed.

Lemma read_file_inv (p : text) (w w' : world) (r : result bytes) :
  read_file p w = (r, w') ->
  w' = log_event (EvOpenRead p) w
  /\ match r with
     | Ok c => node_at (fs w) p = Some (File c) /\ has_nul p = false
     | Raise e => True
     end.
Proof.
  unfold read_file, bind, emit. cbn [fs log_event].
  destruct (has_nul p); [intros [= <- <-]; auto|].
  destruct (node_at (fs w) p) as [[| |]|]; intros [= <- <-]; auto.
Qed.

Lemma read_file_file (p : text) (w : world) (c : bytes) :
  node_at (fs w) p = Some (File c) -> has_nul p = false ->
  read_file p w = (Ok c, log_event (EvOpenRead p) w).
Proof.
  intros Hn Hz. unfold read_file, bind, emit. cbn [fs log_event].
  rewrite Hz, Hn. reflexivity.
Qed.

(** [get_signing_key] on an existing key file. *)
Lemma get_signing_key_existing `{Libraries} (key_path : text) (w : world) (pem : bytes) :
  node_at (fs w) key_path = Some (File pem) ->
  has_nul key_path = false ->
  get_signing_key key_path w
  = (match load_pem_private_key pem with
     | LoadedEd25519 key => Ok key
     | LoadedOther => Raise AttestationDaemonError
     | LoadRaises e =>
         if is_ValueError e || bool_decide (e = InvalidKey)
         then Raise AttestationDaemonError else Raise e
     end, log_event (EvOpenRead key_path) w).
Proof.
  intros Hn Hz. unfold get_signing_key, bind at 1, os_path_exists, path_exists.
  rewrite Hn. unfold try_except.
  rewrite (bind_Ok _ _ _ _ _ (read_file_file _ _ _ Hn Hz)).
  destruct (load_pem_private_key pem) as [k| |e]; try reflexivity.
  unfold raise. destruct (_ || _); reflexivity.
Qed.

(** The events of [get_signing_key]: it starts by opening the key file, and
    none of its events is one of serving. *)
Lemma get_signing_key_events `{Libraries} (key_path : text) (w w1 : world)
    (r : result bytes) :
  get_signing_key key_path w = (r, w1) ->
  exists (ev : event) (evs : list event),
    trace w1 = trace w ++ ev :: evs
    /\ (ev = EvOpenRead key_path \/ ev = EvOpenWrite key_path)
    /\ Forall (fun e => is_serving_event e = false) (ev :: evs)
    /\ conns w1 = conns w.
Proof.
  unfold get_signing_key, bind at 1, os_path_exists.
  destruct (path_exists (fs w) key_path).
  - unfold try_except, bind.
    destruct (read_file key_path w) as [[pem|e] w2] eqn:Er;
      apply read_file_inv in Er as [-> _].
    + assert (Hshape : forall r', (r', log_event (EvOpenRead key_path) w) = (r, w1) ->
                exists ev evs, trace w1 = trace w ++ ev :: evs
                  /\ (ev = EvOpenRead key_path \/ ev = EvOpenWrite key_path)
                  /\ Forall (fun e => is_serving_event e = false) (ev :: evs)
                  /\ conns w1 = conns w).
      { intros r' [= _ <-]. exists (EvOpenRead key_path), [].
        repeat split; auto. }
      destruct (load_pem_private_key pem) as [k| |e]; unfold ret, raise;
        try apply Hshape.
      destruct (_ || _); apply Hshape.
    + destruct (_ || _); unfold raise; intros [= _ <-];
        exists (EvOpenRead key_path), []; repeat split; auto.
  - unfold bind at 1.
    destruct (generate w) as [rk wg] eqn:Eg.
    assert (Hg : trace wg = trace w /\ conns wg = conns w /\ exists k, rk = Ok k).
    { unfold generate in Eg. destruct (entropy w); injection Eg as <- <-; eauto. }
    destruct Hg as (Htg & Hcg & k & ->).
    unfold save_private_key, bind at 1.
    destruct (write_file key_path (private_bytes k) wg) as [[[]|e] w2] eqn:E2.
    2: { apply write_file_Raise in E2 as (_ & Hc2 & _ & Ht2). intros [= _ <-].
         exists (EvOpenWrite key_path), []. rewrite Ht2, Htg.
         repeat split; auto. congruence. }
    apply write_file_Ok in E2 as (_ & _ & Hc2 & _ & Ht2).
    unfold save_public_key, bind at 1, bind at 1.
    destruct (os_makedirs OUTPUT_BASE_DIR w2) as [[[]|e] w3] eqn:E3;
      apply os_makedirs_inv in E3 as (_ & Hc3 & _ & Ht3 & _).
    2: { intros [= _ <-]. exists (EvOpenWrite key_path), [EvMakedirs OUTPUT_BASE_DIR].
         rewrite Ht3, Ht2, Htg, <- app_assoc. repeat split; auto. congruence. }
    destruct (write_file _ _ w3) as [[[]|e] w4] eqn:E4.
    2: { apply write_file_Raise in E4 as (_ & Hc4 & _ & Ht4). intros [= _ <-].
         eexists (EvOpenWrite key_path), [EvMakedirs OUTPUT_BASE_DIR; _].
         rewrite Ht4, Ht3, Ht2, Htg, <- !app_assoc. repeat split; auto. congruence. }
    apply write_file_Ok in E4 as (_ & _ & Hc4 & _ & Ht4). unfold ret. intros [= _ <-].
    eexists (EvOpenWrite key_path), [EvMakedirs OUTPUT_BASE_DIR; _].
    rewrite Ht4, Ht3, Ht2, Htg, <- !app_assoc. repeat split; auto. congruence.
Qed.

Lemma trace_serve `{Libraries} (sp base : text) (arrivals : list arrival) (key : bytes) :
  keeps trace_extends (serve sp base arrivals key).
Proof.
  unfold serve, sock_listen, print, server_close.
  keeps_trace_bind; [auto with trace|].
  keeps_trace_bind; [auto with trace|].
  keeps_trace_bind; [auto with trace|].
  apply keeps_try_finally; [apply trace_extends_trans | |].
  - apply keeps_try_except; [apply trace_extends_trans | apply trace_accept_loop |].
    intros e h. destruct (bool_decide _); [intros [= <-]; auto with trace | discriminate].
  - keeps_trace_bind; [auto with trace|].
    keeps_trace_bind; [auto with trace|].
    match goal with
    | |- keeps _ (if ?b then _ else _) => destruct b
    end; [auto with trace | apply keeps_ret; auto with trace].
Qed.

(** The events of a run of [run_server]: the [unlink] of a stale socket
    if there is one, then, unless that failed, the events of
    [get_signing_key], then, if a key came out of it, those of serving. *)
Lemma run_server_events `{Libraries} (sp base : text) (arrivals : list arrival)
    (w w' : world) (r : result unit) :
  run_server sp base arrivals w = (r, w') ->
  exists (unlinks : list event),
    (unlinks = [] /\ path_exists (fs w) sp = false
     \/ unlinks = [EvUnlink sp] /\ path_exists (fs w) sp = true)
    /\ ((trace w' = trace w ++ unlinks /\ conns w' = conns w
         /\ path_isdir (fs w) sp = true
         /\ exists e, r = Raise e /\ is_OSError e = true)
        \/ exists (w0 w1 : world) (rk : result bytes) (ev : event) (evs : list event),
             remove_stale sp w = (Ok tt, w0)
             /\ get_signing_key SIGNING_KEY_PATH w0 = (rk, w1)
             /\ is_key_event ev = true
             /\ Forall (fun e => is_serving_event e = false) (ev :: evs)
             /\ trace w1 = trace w ++ unlinks ++ ev :: evs
             /\ conns w1 = conns w
             /\ match rk with
                | Raise e => r = Raise e /\ w' = w1
                | Ok key => serve sp base arrivals key w1 = (r, w')
                end).
Proof.
  rewrite run_server_eq. intros Hrun.
  destruct (remove_stale_spec sp w) as (r0 & w0 & E0 & Hc0 & _ & Hcase).
  unfold bind at 1 in Hrun. rewrite E0 in Hrun.
  assert (Hshape : exists unlinks : list event,
             (unlinks = [] /\ path_exists (fs w) sp = false
              \/ unlinks = [EvUnlink sp] /\ path_exists (fs w) sp = true)
             /\ trace w0 = trace w ++ unlinks).
  { destruct Hcase as [(Hn & _ & ->)|(Hy & Ht & _)].
    - exists []. rewrite app_nil_r. auto.
    - exists [EvUnlink sp]. auto. }
  destruct Hshape as (unlinks & Hu & Ht0). exists unlinks. split; [exact Hu|].
  destruct r0 as [[]|e0].
  2: { injection Hrun as <- <-. left.
       destruct Hcase as [(_ & Hr & _)|(_ & _ & [[Hr _]|(e & Hr & He & _ & Hd)])];
         try discriminate. injection Hr as ->. repeat split; eauto. }
  right. unfold bind in Hrun.
  destruct (get_signing_key SIGNING_KEY_PATH w0) as [rk w1] eqn:Ek.
  destruct (get_signing_key_events _ _ _ _ Ek) as (ev & evs & Ht1 & Hev & Hns & Hc1).
  exists w0, w1, rk, ev, evs. repeat split; auto.
  - unfold is_key_event. destruct Hev as [-> | ->];
      rewrite ?bool_decide_eq_true_2 by reflexivity; auto using orb_true_r.
  - rewrite Ht1, Ht0, <- app_assoc. reflexivity.
  - congruence.
  - destruct rk as [key|e]; [exact Hrun|]. injection Hrun as <- <-. auto.
Qed.

Lemma key_event_not_bind (ev : event) (p : text) :
  is_key_event ev = true -> ev <> EvBind p.
Proof.
  unfold is_key_event. intros Hk ->.
  rewrite !bool_decide_eq_false_2 in Hk by discriminate. discriminate.
Qed.

(** In a trace that starts with at most the [unlink] of the stale socket
    and then a key event, every [bind] comes after that key event. *)
Lemma bind_after_key (sp : text) (stale : bool) (unlinks : list event) (ev : event)
    (rest : list event) :
  (unlinks = [] /\ stale = false \/ unlinks = [EvUnlink sp] /\ stale = true) ->
  is_key_event ev = true ->
  (stale = true -> head (unlinks ++ ev :: rest) = Some (EvUnlink sp))
  /\ forall (i : nat) (p : text),
       (unlinks ++ ev :: rest) !! i = Some (EvBind p) ->
       exists (j : nat) (kev : event),
         (j < i)%nat /\ (unlinks ++ ev :: rest) !! j = Some kev
         /\ is_key_event kev = true /\ (stale = true -> (0 < j)%nat).
Proof.
  intros Hu Hk. split.
  - intros Hs. destruct Hu as [[_ ?]|[-> _]]; [congruence | reflexivity].
  - intros i p Hi. pose proof (key_event_not_bind ev p Hk) as Hne.
    destruct Hu as [[-> Hs]|[-> Hs]]; cbn [app] in *.
    + destruct i as [|i]; [cbn in Hi; congruence|].
      exists 0%nat, ev. repeat split; auto; [lia | congruence].
    + destruct i as [|[|i]]; [discriminate Hi | cbn in Hi; congruence|].
      exists 1%nat, ev. repeat split; auto; lia.
Qed.

(** C8, as stated, fails. On a host with a stale socket and no key yet,
    the daemon's first system calls are: the stale socket is removed, the
    key file written, the directory of the public key made, the public key
    written, and only then the socket bound. The identity comes before the
    endpoint, not after it. *)
Lemma startup_order_counterexample :
  let w := world_of (<[SOCKET_PATH := Sock]> prepared_fs) in
  take 5 (trace (snd (main (H := sample_libraries) [] w)))
  = [EvUnlink SOCKET_PATH;
     EvOpenWrite SIGNING_KEY_PATH;
     EvMakedirs OUTPUT_BASE_DIR;
     EvOpenWrite (os_path_join OUTPUT_BASE_DIR (py_str "signing_key.pub.pem"));
     EvBind SOCKET_PATH].
Proof. vm_compute. reflexivity. Qed.

(** C8, amended. In every run of [run_server] the trace grows by: first
    the removal of the stale endpoint, if there is one; then the loading or
    creation of the signing identity; and only after that, if at all, the
    binding of the new endpoint. *)
Theorem startup_loads_key_before_binding `{Libraries} (sp base : text)
    (arrivals : list arrival) (w : world) :
  exists evs : list event,
    trace (snd (run_server sp base arrivals w)) = trace w ++ evs
    /\ (path_exists (fs w) sp = true -> head evs = Some (EvUnlink sp))
    /\ forall (i : nat) (p : text),
         evs !! i = Some (EvBind p) ->
         exists (j : nat) (kev : event),
           (j < i)%nat /\ evs !! j = Some kev /\ is_key_event kev = true
           /\ (path_exists (fs w) sp = true -> (0 < j)%nat).
Proof.
  destruct (run_server sp base arrivals w) as [r w'] eqn:Hrun. cbn [snd].
  destruct (run_server_events sp base arrivals w w' r Hrun)
    as (unlinks & Hu & [(Ht & _)|(w0 & w1 & rk & ev & evs & _ & _ & Hk & _ & Ht1 & _ & Hrk)]).
  - exists unlinks. split; [exact Ht|].
    destruct Hu as [[-> Hs]|[-> Hs]]; rewrite Hs;
      (split; [try discriminate; auto|]).
    + intros [|i] p Hi; discriminate Hi.
    + intros [|[|i]] p Hi; discriminate Hi.
  - assert (Hrest : exists rest, trace w' = trace w ++ unlinks ++ ev :: rest).
    { destruct rk as [key|e].
      - destruct (trace_serve sp base arrivals key _ _ _ Hrk) as [evs' Hs].
        exists (evs ++ evs'). rewrite Hs, Ht1, <- !app_assoc. reflexivity.
      - destruct Hrk as [_ ->]. exists evs. exact Ht1. }
    destruct Hrest as (rest & Ht). exists (unlinks ++ ev :: rest).
    split; [exact Ht|].
    apply (bind_after_key sp (path_exists (fs w) sp) unlinks ev rest); auto.
Qed.

(** ** The key file *)

Lemma SIGNING_KEY_PATH_plain :
  has_nul SIGNING_KEY_PATH = false
  /\ ends_with_sep SIGNING_KEY_PATH = false
  /\ SIGNING_KEY_PATH <> []
  /\ SIGNING_KEY_PATH <> ROOT
  /\ os_path_dirname SIGNING_KEY_PATH <> [].
Proof. repeat split; try reflexivity; discriminate. Qed.


Lemma remove_stale_keeps_absent (sp p : text) (w w0 : world) :
  remove_stale sp w = (Ok tt, w0) ->
  path_exists (fs w) p = false -> path_exists (fs w0) p = false.
Proof.
  intros E Hp.
  destruct (remove_stale_spec sp w) as (r & w0' & E' & _ & _ & Hcase).
  rewrite E in E'. injection E' as <- <-.
  destruct Hcase as [(_ & _ & ->)|(_ & _ & [[_ Hf]|(e & Hr & _)])];
    [exact Hp | | discriminate].
  rewrite Hf. apply path_exists_delete. exact Hp.
Qed.

Lemma Forall_not_serving_unlinks (sp : text) (stale : bool) (unlinks : list event) :
  (unlinks = [] /\ stale = false \/ unlinks = [EvUnlink sp] /\ stale = true) ->
  Forall (fun e => is_serving_event e = false) unlinks.
Proof. intros [[-> _]|[-> _]]; repeat constructor. Qed.

(** A failure of [get_signing_key] is the failure of [run_server], before
    any event of serving and with no connection accepted. *)
Lemma key_failure_is_fatal `{Libraries} (sp base : text) (arrivals : list arrival)
    (w : world) (e : exn) :
  (forall w0, remove_stale sp w = (Ok tt, w0) ->
              exists w1, get_signing_key SIGNING_KEY_PATH w0 = (Raise e, w1)) ->
  exists (e' : exn) (w' : world) (evs : list event),
    run_server sp base arrivals w = (Raise e', w')
    /\ trace w' = trace w ++ evs
    /\ Forall (fun ev => is_serving_event ev = false) evs
    /\ conns w' = conns w
    /\ (e' = e \/ is_OSError e' = true /\ path_isdir (fs w) sp = true).
Proof.
  intros Hkey.
  destruct (run_server sp base arrivals w) as [r w'] eqn:Hrun.
  destruct (run_server_events sp base arrivals w w' r Hrun)
    as (unlinks & Hu & [(Ht & Hc & Hd & e' & -> & Hos)
                       |(w0 & w1 & rk & ev & evs & E0 & Ek & _ & Hns & Ht1 & Hc1 & Hrk)]).
  - exists e', w', unlinks. repeat split; auto.
    eapply Forall_not_serving_unlinks; eassumption.
  - destruct (Hkey w0 E0) as (w1' & Ek'). rewrite Ek in Ek'. injection Ek' as -> <-.
    destruct Hrk as [-> ->].
    exists e, w1, (unlinks ++ ev :: evs). repeat split; auto.
    apply Forall_app. split; [|exact Hns].
    eapply Forall_not_serving_unlinks; eassumption.
Qed.


(** [get_signing_key] when neither the key file nor its directory exists. *)
Lemma get_signing_key_no_directory `{Libraries} (w : world) :
  path_exists (fs w) SIGNING_KEY_PATH = false ->
  path_exists (fs w) (os_path_dirname SIGNING_KEY_PATH) = false ->
  exists w1 : world,
    get_signing_key SIGNING_KEY_PATH w = (Raise FileNotFoundError, w1)
    /\ fs w1 = fs w.
Proof.
  intros Hk Hd.
  destruct SIGNING_KEY_PATH_plain as (Hnul & Hend & Hne & Hroot & Hdir).
  unfold get_signing_key, bind at 1, os_path_exists. rewrite Hk.
  unfold bind at 1.
  destruct (generate w) as [rk wg] eqn:Eg.
  assert (Hg : fs wg = fs w /\ exists k, rk = Ok k).
  { unfold generate in Eg. destruct (entropy w); injection Eg as <- <-; eauto. }
  destruct Hg as (Hfg & k & ->).
  unfold save_private_key, bind at 1, write_file, bind at 1, emit.
  cbn [fs log_event]. rewrite Hfg, Hnul, Hend.
  rewrite bool_decide_eq_false_2 by exact Hne.
  unfold path_exists in Hk.
  destruct (node_at (fs w) SIGNING_KEY_PATH); [discriminate|].
  unfold dir_usable, path_isdir, missing_dir_error. rewrite Hd.
  rewrite bool_decide_eq_false_2 by exact Hdir.
  unfold path_exists in Hd.
  destruct (node_at (fs w) (os_path_dirname SIGNING_KEY_PATH)); [discriminate|].
  cbn [orb]. eexists. split; [reflexivity|]. cbn [fs]. exact Hfg.
Qed.

Lemma OUTPUT_BASE_DIR_plain :
  has_nul OUTPUT_BASE_DIR = false
  /\ OUTPUT_BASE_DIR <> []
  /\ os_path_split OUTPUT_BASE_DIR
     = (os_path_dirname OUTPUT_BASE_DIR, py_str "attestation_results")
  /\ os_path_dirname OUTPUT_BASE_DIR <> []
  /\ os_path_dirname (os_path_join OUTPUT_BASE_DIR (py_str "signing_key.pub.pem"))
     = OUTPUT_BASE_DIR
  /\ has_nul (os_path_join OUTPUT_BASE_DIR (py_str "signing_key.pub.pem")) = false
  /\ ends_with_sep (os_path_join OUTPUT_BASE_DIR (py_str "signing_key.pub.pem")) = false
  /\ os_path_join OUTPUT_BASE_DIR (py_str "signing_key.pub.pem") <> []
  /\ os_path_join OUTPUT_BASE_DIR (py_str "signing_key.pub.pem") <> ROOT
  /\ os_path_join OUTPUT_BASE_DIR (py_str "signing_key.pub.pem") <> OUTPUT_BASE_DIR
  /\ OUTPUT_BASE_DIR <> ROOT.
Proof. repeat split; try reflexivity; discriminate. Qed.

(** [save_public_key] makes its directory when it is missing. *)
Lemma save_public_key_makes_directory `{Libraries} (key : bytes) (w : world) :
  path_isdir (fs w) (os_path_dirname OUTPUT_BASE_DIR) = true ->
  path_exists (fs w) OUTPUT_BASE_DIR = false ->
  path_exists (fs w) (os_path_join OUTPUT_BASE_DIR (py_str "signing_key.pub.pem"))
  = false ->
  exists w' : world,
    save_public_key key OUTPUT_BASE_DIR w = (Ok tt, w')
    /\ path_isdir (fs w') OUTPUT_BASE_DIR = true
    /\ fs w' !! os_path_join OUTPUT_BASE_DIR (py_str "signing_key.pub.pem")
       = Some (File (public_bytes key)).
Proof.
  intros Hparent Hout Hpub.
  destruct OUTPUT_BASE_DIR_plain
    as (Hnul & Hne & Hsplit & Hdne & Hpd & Hpnul & Hpend & Hpne & Hproot & Hpo & Hroot).
  set (pub := os_path_join OUTPUT_BASE_DIR (py_str "signing_key.pub.pem")) in *.
  assert (Hmk : makedirs (S (length OUTPUT_BASE_DIR)) OUTPUT_BASE_DIR (fs w)
                = Ok (<[OUTPUT_BASE_DIR := Dir]> (fs w))).
  { cbn [makedirs]. rewrite Hsplit.
    rewrite (bool_decide_eq_false_2 (py_str "attestation_results" = [])) by discriminate.
    assert (Hpe : path_exists (fs w) (os_path_dirname OUTPUT_BASE_DIR) = true).
    { unfold path_isdir in Hparent. unfold path_exists.
      destruct (node_at _ _); [reflexivity | discriminate]. }
    rewrite Hpe, andb_false_r.
    unfold mkdir. rewrite Hnul, Hout.
    rewrite bool_decide_eq_false_2 by exact Hne.
    unfold dir_usable. rewrite Hparent, orb_true_r. reflexivity. }
  unfold save_public_key, bind at 1, os_makedirs, bind at 1, emit.
  cbn [fs log_event]. rewrite Hmk.
  unfold write_file, bind at 1, emit. cbn [fs log_event set_fs]. fold pub.
  rewrite Hpnul, Hpend. rewrite bool_decide_eq_false_2 by exact Hpne.
  assert (Hnode : node_at (<[OUTPUT_BASE_DIR := Dir]> (fs w)) pub = None).
  { unfold path_exists, node_at in *.
    rewrite bool_decide_eq_false_2 in * by exact Hproot.
    rewrite lookup_insert_ne by congruence.
    destruct (fs w !! pub); [discriminate | reflexivity]. }
  rewrite Hnode, Hpd.
  assert (Hdir : path_isdir (<[OUTPUT_BASE_DIR := Dir]> (fs w)) OUTPUT_BASE_DIR = true).
  { unfold path_isdir, node_at. rewrite bool_decide_eq_false_2 by exact Hroot.
    rewrite lookup_insert_eq. reflexivity. }
  unfold dir_usable. rewrite Hdir, orb_true_r.
  eexists. split; [reflexivity|]. cbn [fs set_fs log_event]. split.
  - unfold path_isdir, node_at. rewrite bool_decide_eq_false_2 by exact Hroot.
    rewrite lookup_insert_ne by congruence. rewrite lookup_insert_eq. reflexivity.
  - apply lookup_insert_eq.
Qed.

(** C10. [save_private_key] opens the key path as it is: on a first run
    with no key file, when the directory of the key path does not exist,
    [get_signing_key] raises ([FileNotFoundError]) and writes nothing, and
    [run_server] fails at start-up before the endpoint is bound and before
    any connection is accepted. [save_public_key], by contrast, makes its
    directory when it is missing. *)
Theorem missing_key_directory_is_fatal `{Libraries} (sp base : text)
    (arrivals : list arrival) (w : world) :
  path_exists (fs w) SIGNING_KEY_PATH = false ->
  path_exists (fs w) (os_path_dirname SIGNING_KEY_PATH) = false ->
  (exists w1 : world,
     get_signing_key SIGNING_KEY_PATH w = (Raise FileNotFoundError, w1)
     /\ fs w1 = fs w)
  /\ (exists (e : exn) (w' : world) (evs : list event),
        run_server sp base arrivals w = (Raise e, w')
        /\ is_OSError e = true
        /\ trace w' = trace w ++ evs
        /\ Forall (fun ev => is_serving_event ev = false) evs
        /\ conns w' = conns w)
  /\ (forall (key : bytes) (v : world),
        path_isdir (fs v) (os_path_dirname OUTPUT_BASE_DIR) = true ->
        path_exists (fs v) OUTPUT_BASE_DIR = false ->
        path_exists (fs v) (os_path_join OUTPUT_BASE_DIR (py_str "signing_key.pub.pem"))
        = false ->
        exists v' : world,
          save_public_key key OUTPUT_BASE_DIR v = (Ok tt, v')
          /\ path_isdir (fs v') OUTPUT_BASE_DIR = true).
Proof.
  intros Hk Hd. split; [apply get_signing_key_no_directory; assumption|]. split.
  - destruct (key_failure_is_fatal sp base arrivals w FileNotFoundError)
      as (e & w' & evs & Hrun & Ht & Hns & Hc & He).
    { intros w0 E0.
      destruct (get_signing_key_no_directory w0
                  (remove_stale_keeps_absent sp _ w w0 E0 Hk)
                  (remove_stale_keeps_absent sp _ w w0 E0 Hd)) as (w1 & E1 & _).
      exists w1. exact E1. }
    exists e, w', evs. repeat split; auto.
    destruct He as [-> | [Hos _]]; [reflexivity | exact Hos].
  - intros key v H1 H2 H3.
    destruct (save_public_key_makes_directory key v H1 H2 H3) as (v' & E & Hdir & _).
    eauto.
Qed.

Lemma write_file_Ok_plain (p : text) (content : bytes) (w w' : world) :
  write_file p content w = (Ok tt, w') -> has_nul p = false.
Proof.
  unfold write_file. rewrite (bind_Ok _ _ _ _ _ (emit_eq _ w)).
  destruct (has_nul p); [discriminate | reflexivity].
Qed.

Lemma mkdir_keeps (p q : text) (f f' : gmap text node) (x : node) :
  mkdir p f = Ok f' -> f !! q = Some x -> f' !! q = Some x.
Proof.
  unfold mkdir. destruct (has_nul p); [discriminate|].
  destruct (bool_decide (p = [])); [discriminate|].
  destruct (path_exists f p) eqn:Hex; [discriminate|].
  destruct (dir_usable _ _); [|discriminate]. intros [= <-] Hq.
  destruct (decide (p = q)) as [->|Hne].
  - unfold path_exists, node_at in Hex. rewrite Hq in Hex.
    destruct (bool_decide _); discriminate.
  - rewrite lookup_insert_ne by exact Hne. exact Hq.
Qed.

(** [makedirs] adds directories and changes nothing that is there. *)
Lemma makedirs_keeps (fuel : nat) (name q : text) (f f' : gmap text node) (x : node) :
  makedirs fuel name f = Ok f' -> f !! q = Some x -> f' !! q = Some x.
Proof.
  revert name f f'. induction fuel as [|fuel IH]; intros name f f'; cbn [makedirs];
    [discriminate|].
  assert (Hlast : forall f1 f2,
             match mkdir name f1 with
             | Ok f2 => Ok f2
             | Raise e0 =>
                 if is_OSError e0 && path_isdir f1 name then Ok f1 else Raise e0
             end = Ok f2 -> f1 !! q = Some x -> f2 !! q = Some x).
  { intros f1 f2. destruct (mkdir name f1) eqn:Em.
    - intros [= <-]. eapply mkdir_keeps; eassumption.
    - destruct (_ && _); [|discriminate]. intros [= <-]. auto. }
  destruct (os_path_split name) as [head0 tail0].
  destruct (if bool_decide (tail0 = []) then _ else _) as [head tail].
  destruct (_ && _); [|apply Hlast].
  destruct (makedirs fuel head f) as [f1|e] eqn:Em.
  - destruct (bool_decide _).
    + intros [= <-]. eapply IH; eassumption.
    + intros Hl Hq. eapply Hlast; [exact Hl|]. eapply IH; eassumption.
  - destruct (bool_decide (e = FileExistsError)); [|discriminate].
    destruct (bool_decide _); [intros [= <-]; auto | apply Hlast].
Qed.

(** What a first call of [get_signing_key] leaves behind: unless the key
    path is the very path of the public key, the key file holds the
    serialized key. *)
Lemma get_signing_key_persists `{Libraries} (key_path : text) (w w1 : world)
    (key : bytes) :
  path_exists (fs w) key_path = false ->
  get_signing_key key_path w = (Ok key, w1) ->
  has_nul key_path = false
  /\ (key_path <> os_path_join OUTPUT_BASE_DIR (py_str "signing_key.pub.pem") ->
      fs w1 !! key_path = Some (File (private_bytes key))).
Proof.
  intros Hk. unfold get_signing_key, bind at 1, os_path_exists. rewrite Hk.
  unfold bind at 1. destruct (generate w) as [[k|e] wg]; [|discriminate].
  unfold save_private_key, bind at 1.
  destruct (write_file key_path (private_bytes k) wg) as [[[]|e] w2] eqn:E2;
    [|discriminate].
  pose proof (write_file_Ok_plain _ _ _ _ E2) as Hnul.
  apply write_file_Ok in E2 as (Hf2 & _).
  unfold save_public_key, bind at 1, bind at 1.
  destruct (os_makedirs OUTPUT_BASE_DIR w2) as [[[]|e] w3] eqn:E3; [|discriminate].
  apply os_makedirs_inv in E3 as (_ & _ & _ & _ & Hmk).
  destruct (write_file _ _ w3) as [[[]|e] w4] eqn:E4; [|discriminate].
  apply write_file_Ok in E4 as (Hf4 & _).
  unfold ret. intros [= <- <-]. split; [exact Hnul|]. intros Hne.
  rewrite Hf4, lookup_insert_ne by congruence.
  eapply makedirs_keeps; [exact Hmk|]. rewrite Hf2. apply lookup_insert_eq.
Qed.

(** C6. After a first call of [get_signing_key] has generated a key and
    persisted it at the key path, a call against the same path, in any
    world with that file system, returns the same key, byte for byte, and
    does no more than open the key file for reading: the file system is
    unchanged, so the public key file is not written again; and so for
    every later call. The first hypothesis is the contract of the library:
    a serialized key loads as that key. *)
Theorem key_load_is_idempotent `{Libraries} (key_path : text) (w w1 : world)
    (key : bytes) :
  (forall k : bytes, load_pem_private_key (private_bytes k) = LoadedEd25519 k) ->
  path_exists (fs w) key_path = false ->
  get_signing_key key_path w = (Ok key, w1) ->
  node_at (fs w1) key_path = Some (File (private_bytes key)) ->
  forall w2 : world,
    fs w2 = fs w1 ->
    exists w3 : world,
      get_signing_key key_path w2 = (Ok key, w3)
      /\ fs w3 = fs w2
      /\ trace w3 = trace w2 ++ [EvOpenRead key_path].
Proof.
  intros Hlib Hk Hfirst Hpersisted w2 Hfs.
  destruct (get_signing_key_persists key_path w w1 key Hk Hfirst) as [Hnul _].
  rewrite <- Hfs in Hpersisted.
  rewrite (get_signing_key_existing key_path w2 _ Hpersisted Hnul), Hlib.
  eexists. split; [reflexivity|]. split; reflexivity.
Qed.

Lemma sample_libraries_roundtrip (k : bytes) :
  load_pem_private_key (Libraries := sample_libraries)
    (private_bytes (Libraries := sample_libraries) k)
  = LoadedEd25519 k.
Proof. reflexivity. Qed.

Lemma key_load_is_idempotent_witness :
  let w := world_of prepared_fs in
  let w1 := snd (get_signing_key (H := sample_libraries) SIGNING_KEY_PATH w) in
  path_exists (fs w) SIGNING_KEY_PATH = false
  /\ get_signing_key (H := sample_libraries) SIGNING_KEY_PATH w
     = (Ok (py_bytes "seed-one"), w1)
  /\ node_at (fs w1) SIGNING_KEY_PATH
     = Some (File (private_bytes (Libraries := sample_libraries) (py_bytes "seed-one")))
  /\ exists w3 : world,
       get_signing_key (H := sample_libraries) SIGNING_KEY_PATH w1
       = (Ok (py_bytes "seed-one"), w3)
       /\ fs w3 = fs w1
       /\ trace w3 = trace w1 ++ [EvOpenRead SIGNING_KEY_PATH].
Proof.
  cbn zeta.
  assert (Hk : path_exists (fs (world_of prepared_fs)) SIGNING_KEY_PATH = false)
    by (vm_compute; reflexivity).
  assert (Hr : fst (get_signing_key (H := sample_libraries) SIGNING_KEY_PATH
                      (world_of prepared_fs))
               = Ok (py_bytes "seed-one")) by (vm_compute; reflexivity).
  assert (Hp : node_at
                 (fs (snd (get_signing_key (H := sample_libraries) SIGNING_KEY_PATH
                             (world_of prepared_fs))))
                 SIGNING_KEY_PATH
               = Some (File (private_bytes (Libraries := sample_libraries)
                               (py_bytes "seed-one"))))
    by (vm_compute; reflexivity).
  destruct (get_signing_key (H := sample_libraries) SIGNING_KEY_PATH
              (world_of prepared_fs)) as [r w1] eqn:Hrun.
  cbn [fst snd] in Hr, Hp |- *. subst r.
  split; [exact Hk|]. split; [reflexivity|]. split; [exact Hp|].
  exact (key_load_is_idempotent (H := sample_libraries) SIGNING_KEY_PATH
           (world_of prepared_fs) w1 (py_bytes "seed-one")
           sample_libraries_roundtrip Hk Hrun Hp w1 eq_refl).
Defined.

(** ** Malformed records *)















(** ** The theorems at concrete inputs *)

Lemma recvall_exact_or_premature_close_witness :
  let w := world_with_conn 0 short_chunks in
  stream_of w 0 = Some (concat short_chunks)
  /\ (exists w' : world,
        recvall 0 4 w = (Ok [x00; x00; x00; x05], w')
        /\ stream_of w' 0 = Some [x41])
  /\ exists w' : world,
       handle_file_data (H := sample_libraries) 0 OUTPUT_BASE_DIR (py_bytes "k") w
       = (Raise RuntimeError, w').
Proof.
  cbn zeta. set (w := world_with_conn 0 short_chunks).
  assert (Hs : stream_of w 0 = Some (concat short_chunks)) by reflexivity.
  destruct (recvall_exact_or_premature_close (H := sample_libraries) 0
              OUTPUT_BASE_DIR (py_bytes "k") w (concat short_chunks) Hs)
    as (Hrecv & _ & Hshort).
  split; [exact Hs|]. split.
  - apply (proj1 (Hrecv 4)). vm_compute. discriminate.
  - apply Hshort; vm_compute; [discriminate | reflexivity].
Defined.


Lemma missing_key_directory_is_fatal_witness :
  let w := world_of bare_fs in
  path_exists (fs w) SIGNING_KEY_PATH = false
  /\ path_exists (fs w) (os_path_dirname SIGNING_KEY_PATH) = false
  /\ (exists w1 : world,
        get_signing_key (H := sample_libraries) SIGNING_KEY_PATH w
        = (Raise FileNotFoundError, w1)
        /\ fs w1 = fs w)
  /\ exists (e : exn) (w' : world) (evs : list event),
       run_server (H := sample_libraries) SOCKET_PATH OUTPUT_BASE_DIR
         [hello_arrival] w = (Raise e, w')
       /\ is_OSError e = true
       /\ trace w' = trace w ++ evs
       /\ Forall (fun ev => is_serving_event ev = false) evs
       /\ conns w' = conns w.
Proof.
  cbn zeta. set (w := world_of bare_fs).
  assert (Hk : path_exists (fs w) SIGNING_KEY_PATH = false) by reflexivity.
  assert (Hd : path_exists (fs w) (os_path_dirname SIGNING_KEY_PATH) = false)
    by reflexivity.
  destruct (missing_key_directory_is_fatal (H := sample_libraries) SOCKET_PATH
              OUTPUT_BASE_DIR [hello_arrival] w Hk Hd) as (Hget & Hrun & _).
  split; [exact Hk|]. split; [exact Hd|]. split; [exact Hget | exact Hrun].
Defined.

(** The same two failures, run: the daemon exits with the error, and the
    socket was never bound. *)
Example corrupt_key_run :
  let out := main (H := sample_libraries) [hello_arrival] (world_of corrupt_key_fs) in
  fst out = Raise AttestationDaemonError
  /\ trace (snd out) = [EvOpenRead SIGNING_KEY_PATH]
  /\ fs (snd out) !! SOCKET_PATH = None.
Proof. vm_compute. repeat split; reflexivity. Qed.

Example missing_key_directory_run :
  let out := main (H := sample_libraries) [hello_arrival] (world_of bare_fs) in
  fst out = Raise FileNotFoundError
  /\ trace (snd out) = [EvOpenWrite SIGNING_KEY_PATH]
  /\ fs (snd out) = bare_fs.
Proof.
  cbn zeta. split; [vm_compute; reflexivity|]. split; [vm_compute; reflexivity|].
  apply (bool_decide_unpack _). vm_compute. exact I.
Qed.

(** ** Enough fuel

    The loops of the parser consume at least the two header bytes of an
    element per turn, so the length of the input bounds their turns: the
    fuel the definitions give them is never used up, and more of it changes
    nothing. *)

Lemma parse_high_tag_suffix (data r : bytes) (tag t : Z) :
  parse_high_tag data tag = Ok (t, r) -> len r < len data.
Proof.
  revert tag. induction data as [|b d IH]; intros tag; cbn [parse_high_tag];
    [discriminate|].
  destruct (_ && _); [discriminate|]. rewrite len_cons.
  destruct (_ =? 0).
  - intros [= _ <-]. lia.
  - intros E. apply IH in E. lia.
Qed.

Lemma parse_tag_suffix (fo : Z) (r0 r1 : bytes) (t : Z) :
  parse_tag fo r0 = Ok (t, r1) -> len r1 <= len r0.
Proof.
  unfold parse_tag. destruct (_ =? 31).
  - destruct (parse_high_tag r0 0) as [[t' r']|] eqn:E; [|discriminate].
    destruct (_ <? _); [discriminate|]. intros [= _ <-].
    apply parse_high_tag_suffix in E. lia.
  - intros [= _ <-]. lia.
Qed.

Lemma len_slice_to_le {A} (n : Z) (l : list A) : 0 <= n -> len (slice_to n l) <= n.
Proof. intros Hn. unfold len, slice_to. rewrite length_take. lia. Qed.

Lemma len_slice_from {A} (n : Z) (l : list A) :
  0 <= n <= len l -> len (slice_from n l) = len l - n.
Proof. intros Hn. unfold len, slice_from in *. rewrite length_drop. lia. Qed.

Lemma element_consumes (fo tag hl : Z) (body : bytes) (n : Z) (trailer : bytes)
    (p : parts) (k : Z) :
  0 <= n ->
  element fo tag hl body n trailer = Ok (p, k) ->
  k = hl + n + len trailer /\ n + len trailer <= len body
  /\ len (p_contents p) <= n.
Proof.
  intros Hn. unfold element. destruct (Z.ltb_spec (len body) (n + len trailer));
    [discriminate|].
  intros [= <- <-]. cbn [p_contents]. repeat split; auto.
  apply len_slice_to_le. exact Hn.
Qed.

Section NestedConsumes.

Variable nested : bytes -> result (parts * Z).
Hypothesis nested_consumes : consumes nested.

Lemma scan_contents_bounds (fuel : nat) (cur : bytes) (n n' : Z) :
  scan_contents nested fuel cur n = Ok n' ->
  n <= n' <= n + len cur.
Proof.
  revert cur n. induction fuel as [|fuel IH]; intros cur n; cbn [scan_contents];
    pose proof (len_nonneg cur);
    (destruct (at_end_of_contents cur); [intros [= <-]; lia|]); [discriminate|].
  destruct (nested cur) as [[p k]|] eqn:E; [|discriminate].
  apply nested_consumes in E. pose proof (len_nonneg (p_contents p)).
  intros Hs. apply IH in Hs. rewrite len_slice_from in Hs by lia. lia.
Qed.

Lemma scan_contents_stable (fuel1 fuel2 : nat) (cur : bytes) (n : Z) :
  (length cur < fuel1)%nat -> (length cur < fuel2)%nat ->
  scan_contents nested fuel1 cur n = scan_contents nested fuel2 cur n.
Proof.
  revert fuel2 cur n. induction fuel1 as [|fuel1 IH]; intros fuel2 cur n H1 H2;
    [lia|].
  destruct fuel2 as [|fuel2]; [lia|].
  - cbn [scan_contents]. destruct (at_end_of_contents cur); [reflexivity|].
    destruct (nested cur) as [[p k]|] eqn:E; [|reflexivity].
    apply nested_consumes in E. pose proof (len_nonneg (p_contents p)).
    assert (Hd : (length (slice_from k cur) < length cur)%nat).
    { pose proof (len_slice_from k cur ltac:(lia)). unfold len in *. lia. }
    apply IH; lia.
Qed.

Lemma parse_with_consumes : consumes (parse_with nested).
Proof.
  intros data p k. unfold parse_with. destruct data as [|b0 r0]; [discriminate|].
  destruct (parse_tag (Z_of_byte b0) r0) as [[tag r1]|] eqn:Et; [|discriminate].
  apply parse_tag_suffix in Et.
  destruct r1 as [|bl r2]; [discriminate|].
  rewrite !len_cons in *. pose proof (len_nonneg r2).
  pose proof (Z_of_byte_range bl).
  destruct (_ =? 0).
  { intros E. apply element_consumes in E as (-> & Hb & Hc); [|lia].
    rewrite len_nil in *. lia. }
  destruct (negb _).
  { destruct (Z.ltb_spec (len r2) (Z_of_byte bl mod 128)); [discriminate|].
    intros E. pose proof (int_from_bytes_nonneg (slice_to (Z_of_byte bl mod 128) r2)).
    apply element_consumes in E as (-> & Hb & Hc); [|lia].
    rewrite len_slice_from in Hb by lia. rewrite len_nil in *. lia. }
  destruct (_ =? 0); [discriminate|].
  destruct (scan_contents nested (S (length r2)) r2 0) as [n|] eqn:Es; [|discriminate].
  apply scan_contents_bounds in Es.
  intros E. apply element_consumes in E as (-> & Hb & Hc); [|lia].
  rewrite !len_cons, len_nil in *. lia.
Qed.

End NestedConsumes.

Lemma _parse_consumes (depth_left : nat) : consumes (_parse depth_left).
Proof.
  induction depth_left as [|d IH]; cbn [_parse].
  - intros data p k. discriminate.
  - apply parse_with_consumes. exact IH.
Qed.

Lemma parse_element_consumes : consumes parse_element.
Proof. apply _parse_consumes. Qed.

Lemma parse_elements_stable (fuel1 fuel2 : nat) (contents : bytes) :
  (length contents <= fuel1)%nat -> (length contents <= fuel2)%nat ->
  parse_elements fuel1 contents = parse_elements fuel2 contents.
Proof.
  revert fuel2 contents.
  induction fuel1 as [|fuel1 IH]; intros fuel2 contents H1 H2.
  - destruct contents; [|cbn [length] in H1; lia]. destruct fuel2; reflexivity.
  - destruct fuel2 as [|fuel2].
    { destruct contents; [reflexivity | cbn [length] in H2; lia]. }
    cbn [parse_elements]. destruct contents as [|b r]; [reflexivity|].
    destruct (parse_element (b :: r)) as [[p k]|] eqn:E; [|reflexivity].
    apply parse_element_consumes in E. pose proof (len_nonneg (p_contents p)).
    assert (Hd : (length (slice_from k (b :: r)) < length (b :: r))%nat).
    { pose proof (len_slice_from k (b :: r) ltac:(lia)). unfold len in *. lia. }
    rewrite (IH fuel2) by lia. reflexivity.
Qed.

Lemma _build_contents (m t : Z) (c : bool) (p : parts) (i : bool) (bs : bytes) :
  _build m t c p = Ok (i, bs) -> bs = p_contents p.
Proof.
  unfold _build. repeat (destruct (negb _ && _) || destruct (negb _)); congruence.
Qed.

Lemma _merge_chunks_stable (fuel1 fuel2 : nat) (t : Z) (contents : bytes) :
  (length contents <= fuel1)%nat -> (length contents <= fuel2)%nat ->
  _merge_chunks fuel1 t contents = _merge_chunks fuel2 t contents.
Proof.
  revert fuel2 contents.
  induction fuel1 as [|fuel1 IH]; intros fuel2 contents H1 H2.
  - destruct contents; [|cbn [length] in H1; lia]. destruct fuel2; reflexivity.
  - destruct fuel2 as [|fuel2].
    { destruct contents; [reflexivity | cbn [length] in H2; lia]. }
    cbn [_merge_chunks]. destruct contents as [|b r]; [reflexivity|].
    destruct (parse_element (b :: r)) as [[p k]|] eqn:E; [|reflexivity].
    apply parse_element_consumes in E. pose proof (len_nonneg (p_contents p)).
    assert (Hd : (length (slice_from k (b :: r)) < length (b :: r))%nat).
    { pose proof (len_slice_from k (b :: r) ltac:(lia)). unfold len in *. lia. }
    destruct (_build 0 t true p) as [[indefinite c]|] eqn:Eb; [|reflexivity].
    apply _build_contents in Eb. subst c.
    assert (Hc : (length (p_contents p) < length (b :: r))%nat)
      by (unfold len in *; lia).
    rewrite (IH fuel2 (slice_from k (b :: r))) by lia.
    destruct indefinite; [|reflexivity].
    rewrite (IH fuel2 (p_contents p)) by lia. reflexivity.
Qed.

(** * Further properties of the daemon *)

(** ** Writing a file *)

Lemma write_file_writable (p : text) (content : bytes) (w : world) :
  writable (fs w) p = true ->
  write_file p content w
  = (Ok tt, set_fs (<[p := File content]> (fs w)) (log_event (EvOpenWrite p) w)).
Proof.
  unfold writable, write_file. rewrite (bind_Ok _ _ _ _ _ (emit_eq _ w)).
  cbn [fs log_event].
  destruct (has_nul p); [discriminate|].
  destruct (bool_decide (p = [])); [discriminate|]. cbn [negb andb].
  destruct (node_at (fs w) p) as [[| |]|]; try discriminate; [reflexivity|].
  destruct (ends_with_sep p); [discriminate|]. cbn [negb andb].
  intros ->. reflexivity.
Qed.

Lemma write_file_not_writable (p : text) (content : bytes) (w : world) :
  writable (fs w) p = false ->
  exists e : exn,
    write_file p content w = (Raise e, log_event (EvOpenWrite p) w)
    /\ (is_ValueError e || is_OSError e = true).
Proof.
  unfold writable, write_file. rewrite (bind_Ok _ _ _ _ _ (emit_eq _ w)).
  cbn [fs log_event]. unfold missing_dir_error.
  destruct (has_nul p); [eauto|].
  destruct (bool_decide (p = [])); [eauto|]. cbn [negb andb].
  destruct (node_at (fs w) p) as [[| |]|]; try discriminate; eauto.
  destruct (ends_with_sep p); cbn [negb andb].
  - destruct (path_exists _ _); eauto.
  - intros ->. destruct (path_exists _ _); eauto.
Qed.

(** ** One run of [handle_file_data], by cases *)

Lemma handle_file_data_inv `{Libraries} (conn : nat) (base : text) (key : bytes)
    (w w' : world) (r : result unit) (total : bytes) :
  stream_of w conn = Some total ->
  handle_file_data conn base key w = (r, w') ->
  let count := struct_unpack_I (slice_to 4 total) in
  let dir := os_path_join base (str_int (clock w)) in
  (r = Raise RuntimeError /\ conn_frame conn w w'
   /\ (len total < 4 \/ len total - 4 < count))
  \/ (4 <= len total /\ count <= len total - 4
      /\ stream_of w' conn = Some (slice_from count (slice_from 4 total))
      /\ (forall j : nat, j <> conn -> conns w' !! j = conns w !! j)
      /\ length (conns w') = length (conns w)
      /\ clock w' = clock w /\ entropy w' = entropy w
      /\ match parse_file_container (slice_to count (slice_from 4 total)) with
         | Raise e => r = Raise e /\ fs w' = fs w /\ trace w' = trace w
         | Ok (filename, data) =>
             let file_path := os_path_join dir filename in
             let signature_path := file_path ++ py_str ".sig" in
             match makedirs (S (length dir)) dir (fs w) with
             | Raise e =>
                 r = Raise e /\ fs w' = fs w
                 /\ trace w' = trace w ++ [EvMakedirs dir]
             | Ok f1 =>
                 let f2 := <[file_path := File data]> f1 in
                 let begun :=
                   [EvMakedirs dir; EvOpenWrite file_path;
                    EvPrint (py_str "Received file: " ++ filename ++ py_str " ("
                             ++ str_int (len data) ++ py_str " bytes) -> "
                             ++ file_path);
                    EvPrint (py_str "SHA256: " ++ sha256_hexdigest data);
                    EvOpenWrite signature_path] in
                 if writable f1 file_path then
                   if writable f2 signature_path then
                     r = Ok tt
                     /\ fs w' = <[signature_path := File (b64encode (sign key data))]> f2
                     /\ trace w'
                        = trace w ++ begun
                          ++ [EvPrint (py_str "Signature written to: "
                                       ++ signature_path)]
                   else
                     (exists e : exn,
                        r = Raise e /\ (is_ValueError e || is_OSError e = true))
                     /\ fs w' = f2 /\ trace w' = trace w ++ begun
                 else
                   (exists e : exn,
                      r = Raise e /\ (is_ValueError e || is_OSError e = true))
                   /\ fs w' = f1
                   /\ trace w' = trace w ++ [EvMakedirs dir; EvOpenWrite file_path]
             end
         end).
Proof.
  intros Hs Hrun count dir. unfold handle_file_data in Hrun.
  destruct (recvall_spec conn 4 w total Hs) as [Hok Herr].
  destruct (Z.lt_ge_cases (len total) 4) as [H4|H4].
  { destruct (Herr H4) as (wx & E & Hfr). rewrite (bind_Raise _ _ _ _ _ E) in Hrun.
    injection Hrun as <- <-. left. auto. }
  destruct (Hok ltac:(lia)) as (w1 & E1 & Hs1 & Hfr1). clear Hok Herr.
  rewrite (bind_Ok _ _ _ _ _ E1) in Hrun. fold count in Hrun.
  destruct (recvall_spec conn count w1 _ Hs1) as [Hok Herr].
  assert (Hrest : len (slice_from 4 total) = len total - 4)
    by (unfold slice_from, len in *; rewrite length_drop; lia).
  destruct (Z.lt_ge_cases (len (slice_from 4 total)) count) as [HN|HN].
  { destruct (Herr HN) as (wx & E & Hfr). rewrite (bind_Raise _ _ _ _ _ E) in Hrun.
    injection Hrun as <- <-. left. split; [reflexivity|].
    split; [eapply conn_frame_trans; eassumption | right; lia]. }
  destruct (Hok ltac:(lia)) as (w2 & E2 & Hs2 & Hfr2). clear Hok Herr.
  rewrite (bind_Ok _ _ _ _ _ E2) in Hrun.
  pose proof (conn_frame_trans _ _ _ _ Hfr1 Hfr2)
    as (Hfs & Hclock & Hent & Htr & Hlen & Hothers).
  right. split; [lia|]. split; [lia|].
  unfold bind at 1, lift at 1 in Hrun.
  destruct (parse_file_container _) as [[filename data]|e] eqn:Ep.
  2: { injection Hrun as <- <-. repeat split; auto. }
  unfold bind at 1, time_time at 1 in Hrun. rewrite Hclock in Hrun. fold dir in Hrun.
  cbn zeta.
  set (file_path := os_path_join dir filename) in *.
  set (signature_path := file_path ++ py_str ".sig") in *.
  unfold bind at 1 in Hrun.
  destruct (os_makedirs dir w2) as [rm w3] eqn:E3.
  apply os_makedirs_inv in E3 as (Hc3 & Hn3 & He3 & Ht3 & Hmk).
  rewrite Hfs in Hmk.
  assert (Hs3 : stream_of w3 conn = Some (slice_from count (slice_from 4 total)))
    by (unfold stream_of in *; rewrite Hn3; exact Hs2).
  destruct rm as [[]|e].
  2: { destruct Hmk as [Hmk Hf3]. rewrite Hmk. injection Hrun as <- <-.
       repeat split; try congruence.
       intros j Hj. rewrite Hn3. auto. }
  rewrite Hmk.
  destruct (writable (fs w3) file_path) eqn:Hw1.
  2: { destruct (write_file_not_writable file_path data w3 Hw1) as (e & E4 & He).
       rewrite (bind_Raise _ _ _ _ _ E4) in Hrun. injection Hrun as <- <-.
       unfold stream_of. cbn [conns clock entropy fs trace log_event set_fs].
       split; [exact Hs3|]. split; [intros j Hj; rewrite Hn3; auto|].
       split; [rewrite Hn3; exact Hlen|]. split; [rewrite Hc3; exact Hclock|].
       split; [rewrite He3; exact Hent|].
       split; [exists e; split; [reflexivity | exact He]|]. split; [reflexivity|].
       rewrite Ht3, Htr, <- app_assoc. reflexivity. }
  rewrite (bind_Ok _ _ _ _ _ (write_file_writable file_path data w3 Hw1)) in Hrun.
  rewrite (bind_Ok _ _ _ _ _ (print_eq _ _)) in Hrun.
  rewrite (bind_Ok _ _ _ _ _ (print_eq _ _)) in Hrun.
  unfold bind at 1 in Hrun.
  match type of Hrun with
  | context [write_file _ _ ?v] => set (w5 := v) in Hrun
  end.
  assert (Hf5 : fs w5 = <[file_path := File data]> (fs w3)) by reflexivity.
  rewrite <- Hf5.
  destruct (writable (fs w5) signature_path) eqn:Hw2.
  2: { destruct (write_file_not_writable signature_path
                   (b64encode (sign key data)) w5 Hw2) as (e & E6 & He).
       rewrite E6 in Hrun. injection Hrun as <- <-.
       unfold w5, stream_of.
       cbn [conns clock entropy fs trace log_event set_fs].
       split; [exact Hs3|]. split; [intros j Hj; rewrite Hn3; auto|].
       split; [rewrite Hn3; exact Hlen|]. split; [rewrite Hc3; exact Hclock|].
       split; [rewrite He3; exact Hent|].
       split; [exists e; split; [reflexivity | exact He]|]. split; [reflexivity|].
       rewrite Ht3, Htr, <- !app_assoc. reflexivity. }
  rewrite (write_file_writable signature_path _ w5 Hw2) in Hrun.
  rewrite print_eq in Hrun. injection Hrun as <- <-.
  unfold w5, stream_of. cbn [conns clock entropy fs trace log_event set_fs].
  split; [exact Hs3|]. split; [intros j Hj; rewrite Hn3; auto|].
  split; [rewrite Hn3; exact Hlen|]. split; [rewrite Hc3; exact Hclock|].
  split; [rewrite He3; exact Hent|].
  split; [reflexivity|]. split; [reflexivity|].
  rewrite Ht3, Htr, <- !app_assoc. reflexivity.
Qed.

(** ** Entries are kept *)

Lemma entries_kept_refl (f : gmap text node) : entries_kept f f.
Proof. intros q x Hq. auto. Qed.

Lemma entries_kept_trans (f1 f2 f3 : gmap text node) :
  entries_kept f1 f2 -> entries_kept f2 f3 -> entries_kept f1 f3.
Proof.
  intros H12 H23 q x Hq.
  destruct (H12 q x Hq) as [H2|(c & c' & -> & H2)].
  - apply H23. exact H2.
  - right. exists c.
    destruct (H23 q _ H2) as [H3|(c0 & c3 & _ & H3)]; eauto.
Qed.

Lemma entries_kept_write (f : gmap text node) (p : text) (content : bytes) :
  writable f p = true -> entries_kept f (<[p := File content]> f).
Proof.
  intros Hw q x Hq. destruct (decide (p = q)) as [->|Hne].
  - right. unfold writable, node_at in Hw.
    destruct (has_nul q); [discriminate|].
    destruct (bool_decide (q = [])); [discriminate|]. cbn [negb andb] in Hw.
    destruct (bool_decide (q = ROOT)); [discriminate|]. rewrite Hq in Hw.
    destruct x as [|c|]; try discriminate.
    exists c, content. split; [reflexivity | apply lookup_insert_eq].
  - left. rewrite lookup_insert_ne by exact Hne. exact Hq.
Qed.

Lemma entries_kept_makedirs (fuel : nat) (name : text) (f f' : gmap text node) :
  makedirs fuel name f = Ok f' -> entries_kept f f'.
Proof. intros Hm q x Hq. left. eapply makedirs_keeps; eassumption. Qed.

(** The relation on worlds: the file system keeps its entries. *)
Lemma keeps_weaken {A} (R1 R2 : world -> world -> Prop) (m : M A) :
  (forall w w', R1 w w' -> R2 w w') -> keeps R1 m -> keeps R2 m.
Proof. intros Hsub Hm w w' r E. apply Hsub. eapply Hm. exact E. Qed.

Lemma same_fs_kept (w w' : world) : fs w' = fs w -> entries_kept (fs w) (fs w').
Proof. intros ->. apply entries_kept_refl. Qed.

Lemma kept_trans (w1 w2 w3 : world) :
  entries_kept (fs w1) (fs w2) -> entries_kept (fs w2) (fs w3) ->
  entries_kept (fs w1) (fs w3).
Proof. apply entries_kept_trans. Qed.

Lemma kept_emit (ev : event) :
  keeps (fun w w' => entries_kept (fs w) (fs w')) (emit ev).
Proof. intros w w' r. unfold emit. intros [= _ <-]. apply entries_kept_refl. Qed.

Lemma kept_write_file (p : text) (content : bytes) :
  keeps (fun w w' => entries_kept (fs w) (fs w')) (write_file p content).
Proof.
  intros w w' r. destruct (writable (fs w) p) eqn:Hw.
  - rewrite (write_file_writable p content w Hw). intros [= _ <-].
    cbn [fs set_fs]. apply entries_kept_write. exact Hw.
  - destruct (write_file_not_writable p content w Hw) as (e & -> & _).
    intros [= _ <-]. apply entries_kept_refl.
Qed.

Lemma kept_os_makedirs (name : text) :
  keeps (fun w w' => entries_kept (fs w) (fs w')) (os_makedirs name).
Proof.
  intros w w' r E. apply os_makedirs_inv in E as (_ & _ & _ & _ & Hm).
  destruct r as [[]|e].
  - eapply entries_kept_makedirs. exact Hm.
  - destruct Hm as [_ ->]. apply entries_kept_refl.
Qed.

Lemma kept_sock_recv (sock : nat) (bufsize : Z) :
  keeps (fun w w' => entries_kept (fs w) (fs w')) (sock_recv sock bufsize).
Proof.
  intros w w' r. unfold sock_recv.
  destruct (conns w !! sock) as [c|]; [|intros [= _ <-]; apply entries_kept_refl].
  destruct (closed c); [intros [= _ <-]; apply entries_kept_refl|].
  destruct (recv_chunks _ _). intros [= _ <-]. apply entries_kept_refl.
Qed.

Lemma kept_sock_close (sock : nat) :
  keeps (fun w w' => entries_kept (fs w) (fs w')) (sock_close sock).
Proof.
  intros w w' r. unfold sock_close.
  destruct (conns w !! sock); intros [= _ <-]; apply entries_kept_refl.
Qed.

Lemma kept_recvall `{Libraries} (sock : nat) (count : Z) :
  keeps (fun w w' => entries_kept (fs w) (fs w')) (recvall sock count).
Proof.
  assert (Hloop : forall fuel buf,
             keeps (fun w w' => entries_kept (fs w) (fs w'))
               (recvall_loop fuel sock count buf)).
  { induction fuel as [|fuel IH]; intros buf; cbn [recvall_loop];
      destruct (_ <? _);
      try (apply keeps_ret; intros; apply entries_kept_refl);
      try (apply keeps_raise; intros; apply entries_kept_refl).
    apply keeps_bind; [apply kept_trans | apply kept_sock_recv|]. intros chunk.
    destruct (bool_decide _);
      [apply keeps_raise; intros; apply entries_kept_refl | apply IH]. }
  intros w w' r. unfold recvall. apply Hloop.
Qed.

Lemma kept_handle_file_data `{Libraries} (conn : nat) (base : text) (key : bytes) :
  keeps (fun w w' => entries_kept (fs w) (fs w')) (handle_file_data conn base key).
Proof.
  unfold handle_file_data.
  apply keeps_bind; [apply kept_trans | apply kept_recvall|]. intros ?.
  apply keeps_bind; [apply kept_trans | apply kept_recvall|]. intros ?.
  apply keeps_bind;
    [apply kept_trans | apply keeps_lift; intros; apply entries_kept_refl|].
  intros [filename file_data].
  apply keeps_bind; [apply kept_trans | |].
  { intros w w' r. unfold time_time. intros [= _ <-]. apply entries_kept_refl. }
  intros now. unfold print.
  repeat (apply keeps_bind;
          [apply kept_trans
          |first [apply kept_os_makedirs | apply kept_write_file | apply kept_emit]
          |]; intros _).
  apply kept_emit.
Qed.

Lemma kept_handle_connection `{Libraries} (conn : nat) (base : text) (key : bytes) :
  keeps (fun w w' => entries_kept (fs w) (fs w')) (handle_connection conn base key).
Proof.
  unfold handle_connection.
  apply keeps_try_finally; [apply kept_trans | | apply kept_sock_close].
  apply keeps_try_except; [apply kept_trans | apply kept_handle_file_data |].
  intros e h. unfold print.
  destruct (bool_decide _); [intros [= <-]; apply kept_emit|].
  destruct (is_Exception e); [intros [= <-]; apply kept_emit | discriminate].
Qed.

Lemma kept_accept_loop `{Libraries} (arrivals : list arrival) (base : text)
    (key : bytes) :
  keeps (fun w w' => entries_kept (fs w) (fs w')) (accept_loop arrivals base key).
Proof.
  induction arrivals as [|a rest IH]; cbn [accept_loop].
  - apply keeps_raise. intros. apply entries_kept_refl.
  - apply keeps_bind; [apply kept_trans | |].
    { intros w w' r. unfold sock_accept. intros [= _ <-]. apply entries_kept_refl. }
    intros conn. unfold print.
    apply keeps_bind; [apply kept_trans | apply kept_emit|]. intros _.
    apply keeps_bind; [apply kept_trans | apply kept_handle_connection|]. intros _.
    apply IH.
Qed.

(** X3. Handling connections never removes an entry of the file system and
    never replaces a directory or a socket: across the whole accept loop,
    whatever arrives, an entry that was there is still there, the same
    unless it is a regular file, whose content may have been overwritten by
    a received payload or signature. *)
Theorem handling_never_removes_entries `{Libraries} (arrivals : list arrival)
    (base : text) (key : bytes) (w : world) :
  entries_kept (fs w) (fs (snd (accept_loop arrivals base key w))).
Proof.
  destruct (accept_loop arrivals base key w) as [r w'] eqn:E.
  exact (kept_accept_loop arrivals base key w w' r E).
Qed.

(** ** Where the payload goes *)






(** ** The errors of the receiving side *)

Lemma raises_in_weaken {A} (P Q : exn -> bool) (m : M A) :
  (forall e, P e = true -> Q e = true) -> raises_in P m -> raises_in Q m.
Proof. intros Hsub Hm w w' e E. apply Hsub. eapply Hm. exact E. Qed.

Lemma mkdir_error_class (p : text) (f : gmap text node) (e : exn) :
  mkdir p f = Raise e -> is_receipt_error e = true.
Proof.
  unfold mkdir, missing_dir_error.
  repeat match goal with
         | |- (if ?b then _ else _) = _ -> _ => destruct b
         end; intros [= <-]; try reflexivity.
  all: destruct (path_exists _ _); reflexivity.
Qed.

Lemma makedirs_error_class (fuel : nat) (name : text) (f : gmap text node) (e : exn) :
  makedirs fuel name f = Raise e -> is_receipt_error e = true.
Proof.
  revert name f e. induction fuel as [|fuel IH]; intros name f e; cbn [makedirs].
  - intros [= <-]. reflexivity.
  - assert (Hlast : forall f1,
               match mkdir name f1 with
               | Ok f2 => Ok f2
               | Raise e0 =>
                   if is_OSError e0 && path_isdir f1 name then Ok f1 else Raise e0
               end = Raise e -> is_receipt_error e = true).
    { intros f1. destruct (mkdir name f1) eqn:Em; [discriminate|].
      destruct (_ && _); [discriminate|]. intros [= <-].
      eapply mkdir_error_class; eauto. }
    destruct (os_path_split name) as [head0 tail0].
    destruct (if bool_decide (tail0 = []) then _ else _) as [head tail].
    destruct (_ && _); [|apply Hlast].
    destruct (makedirs fuel head f) eqn:Em.
    + destruct (bool_decide _); [discriminate | apply Hlast].
    + destruct (bool_decide (e0 = FileExistsError)).
      * destruct (bool_decide _); [discriminate | apply Hlast].
      * intros [= <-]. eapply IH; eauto.
Qed.

Lemma receipt_error_write_file (p : text) (content : bytes) :
  raises_in is_receipt_error (write_file p content).
Proof.
  intros w w' e. destruct (writable (fs w) p) eqn:Hw.
  - rewrite (write_file_writable p content w Hw). discriminate.
  - destruct (write_file_not_writable p content w Hw) as (e' & -> & He).
    intros [= <- _]. unfold is_receipt_error. rewrite <- orb_assoc, He.
    apply orb_true_r.
Qed.

Lemma receipt_error_os_makedirs (name : text) :
  raises_in is_receipt_error (os_makedirs name).
Proof.
  intros w w' e E. apply os_makedirs_inv in E as (_ & _ & _ & _ & Hm & _).
  eapply makedirs_error_class. exact Hm.
Qed.

Lemma receipt_error_recvall `{Libraries} (sock : nat) (count : Z) :
  raises_in is_receipt_error (recvall sock count).
Proof.
  assert (Hrecv : forall n, raises_in is_receipt_error (sock_recv sock n)).
  { intros n w w' e. unfold sock_recv.
    destruct (conns w !! sock) as [c|]; [|intros [= <- _]; reflexivity].
    destruct (closed c); [intros [= <- _]; reflexivity|].
    destruct (recv_chunks _ _). discriminate. }
  assert (Hloop : forall fuel buf,
             raises_in is_receipt_error (recvall_loop fuel sock count buf)).
  { induction fuel as [|fuel IH]; intros buf; cbn [recvall_loop];
      destruct (_ <? _); try apply raises_in_ret;
      try (apply raises_in_raise; reflexivity).
    apply raises_in_bind; [apply Hrecv|]. intros chunk.
    destruct (bool_decide _); [apply raises_in_raise; reflexivity | apply IH]. }
  intros w w' e. unfold recvall. apply Hloop.
Qed.

Lemma receipt_error_handle_file_data `{Libraries} (conn : nat) (base : text)
    (key : bytes) :
  raises_in is_receipt_error (handle_file_data conn base key).
Proof.
  unfold handle_file_data.
  apply raises_in_bind; [apply receipt_error_recvall|]. intros length_bytes.
  apply raises_in_bind; [apply receipt_error_recvall|]. intros der_data.
  apply raises_in_bind.
  { apply raises_in_lift. intros e He.
    destruct (parse_file_container_error _ _ He) as [-> | ->]; reflexivity. }
  intros [filename file_data].
  apply raises_in_bind; [intros w w' e; discriminate|]. intros now.
  repeat (apply raises_in_bind;
          [first [apply receipt_error_os_makedirs | apply receipt_error_write_file
                 | apply raises_in_emit]|]; intros _).
  apply raises_in_emit.
Qed.

Lemma sock_close_eq (sock : nat) (w : world) :
  exists w' : world,
    sock_close sock w = (Ok tt, w')
    /\ fs w' = fs w
    /\ trace w' = trace w ++ [EvConnClose sock]
    /\ (forall c, conns w !! sock = Some c ->
                  conns w' !! sock = Some (mk_conn (pending c) true)).
Proof.
  unfold sock_close. destruct (conns w !! sock) as [c|] eqn:Ec.
  - eexists. split; [reflexivity|]. unfold log_event, set_conns.
    cbn [fs trace conns]. repeat split.
    intros c' [= <-]. apply list_lookup_insert_eq. eapply lookup_lt_Some. exact Ec.
  - eexists. split; [reflexivity|]. repeat split. discriminate.
Qed.

Lemma receipt_error_is_Exception (e : exn) :
  is_receipt_error e = true -> is_Exception e = true /\ e <> AttestationDaemonError.
Proof. destruct e; try discriminate; split; try reflexivity; discriminate. Qed.

(** [handle_connection] after a failure of [handle_file_data]: the line of
    the unexpected error, then the close. *)
Lemma handle_connection_failure `{Libraries} (conn : nat) (base : text)
    (key : bytes) (w w1 : world) (e : exn) :
  handle_file_data conn base key w = (Raise e, w1) ->
  exists w' : world,
    handle_connection conn base key w = (Ok tt, w')
    /\ fs w' = fs w1
    /\ trace w'
       = trace w1
         ++ [EvPrint (py_str "[Error] Unexpected error while handling connection: ");
             EvConnClose conn]
    /\ (forall c, conns w1 !! conn = Some c ->
                  conns w' !! conn = Some (mk_conn (pending c) true)).
Proof.
  intros E. pose proof (receipt_error_handle_file_data conn base key w w1 e E) as He.
  destruct (receipt_error_is_Exception e He) as [Hex Hne].
  unfold handle_connection, try_finally, try_except. rewrite E.
  rewrite bool_decide_eq_false_2 by exact Hne.
  rewrite Hex, print_eq.
  destruct (sock_close_eq conn
              (log_event
                 (EvPrint (py_str "[Error] Unexpected error while handling connection: "))
                 w1)) as (w' & -> & Hfs & Ht & Hc).
  exists w'. split; [reflexivity|]. split; [exact Hfs|]. split.
  - rewrite Ht. unfold log_event. cbn [trace]. rewrite <- app_assoc. reflexivity.
  - exact Hc.
Qed.

(** [handle_connection] after a success of [handle_file_data]: the close. *)
Lemma handle_connection_success `{Libraries} (conn : nat) (base : text)
    (key : bytes) (w w1 : world) :
  handle_file_data conn base key w = (Ok tt, w1) ->
  exists w' : world,
    handle_connection conn base key w = (Ok tt, w')
    /\ fs w' = fs w1
    /\ trace w' = trace w1 ++ [EvConnClose conn]
    /\ (forall c, conns w1 !! conn = Some c ->
                  conns w' !! conn = Some (mk_conn (pending c) true)).
Proof.
  intros E. unfold handle_connection, try_finally, try_except. rewrite E.
  destruct (sock_close_eq conn w1) as (w' & -> & Hfs & Ht & Hc).
  exists w'. auto.
Qed.

(** X5. Whatever [handle_file_data] raises is a [RuntimeError] (the peer
    closed too early), a [ValueError] (a record or a path was refused) or
    an [OSError] (a system call was refused): never the daemon's own
    [AttestationDaemonError]. So the first [except] clause of
    [handle_connection] is never taken: every failure of a connection is
    printed as an unexpected error, and the connection is then closed. *)
Theorem failures_are_reported_as_unexpected `{Libraries} (conn : nat) (base : text)
    (key : bytes) (w w1 : world) (e : exn) :
  handle_file_data conn base key w = (Raise e, w1) ->
  is_receipt_error e = true
  /\ e <> AttestationDaemonError
  /\ exists w' : world,
       handle_connection conn base key w = (Ok tt, w')
       /\ fs w' = fs w1
       /\ trace w'
          = trace w1
            ++ [EvPrint (py_str "[Error] Unexpected error while handling connection: ");
                EvConnClose conn].
Proof.
  intros E. pose proof (receipt_error_handle_file_data conn base key w w1 e E) as He.
  destruct (receipt_error_is_Exception e He) as [_ Hne].
  split; [exact He|]. split; [exact Hne|].
  destruct (handle_connection_failure conn base key w w1 e E) as (w' & Eh & Hfs & Ht & _).
  exists w'. auto.
Qed.

Lemma failures_are_reported_as_unexpected_witness :
  let w := world_with_conn 1700000000 short_chunks in
  exists w1 : world,
    handle_file_data (H := sample_libraries) 0 OUTPUT_BASE_DIR (py_bytes "k") w
    = (Raise RuntimeError, w1)
    /\ is_receipt_error RuntimeError = true
    /\ RuntimeError <> AttestationDaemonError
    /\ exists w' : world,
         handle_connection (H := sample_libraries) 0 OUTPUT_BASE_DIR (py_bytes "k") w
         = (Ok tt, w')
         /\ fs w' = fs w1
         /\ trace w'
            = trace w1
              ++ [EvPrint (py_str "[Error] Unexpected error while handling connection: ");
                  EvConnClose 0%nat].
Proof.
  cbn zeta.
  set (w := world_with_conn 1700000000 short_chunks).
  assert (Hr : fst (handle_file_data (H := sample_libraries) 0 OUTPUT_BASE_DIR
                      (py_bytes "k") w) = Raise RuntimeError)
    by (vm_compute; reflexivity).
  destruct (handle_file_data (H := sample_libraries) 0 OUTPUT_BASE_DIR (py_bytes "k") w)
    as [r w1] eqn:Hrun.
  cbn [fst] in Hr. subst r. exists w1. split; [reflexivity|].
  exact (failures_are_reported_as_unexpected (H := sample_libraries) 0
           OUTPUT_BASE_DIR (py_bytes "k") w w1 RuntimeError Hrun).
Defined.

Lemma stream_of_pending (w : world) (conn : nat) (rest : bytes) :
  stream_of w conn = Some rest ->
  exists c : conn_state, conns w !! conn = Some c /\ concat (pending c) = rest.
Proof.
  intros Hs. destruct (stream_of_inv w conn rest Hs) as (cs & Hc & ->).
  exists (mk_conn cs false). auto.
Qed.

(** X4. A message whose record is all there but does not decode leaves
    nothing on disk: [parse_file_container] raises before the receipt
    directory is made, [handle_connection] prints the line of the
    unexpected error and closes the connection, and the file system is what
    it was. *)
Theorem undecodable_record_writes_nothing `{Libraries} (conn : nat) (base : text)
    (key : bytes) (w : world) (total : bytes) (e : exn) :
  stream_of w conn = Some total ->
  4 <= len total ->
  struct_unpack_I (slice_to 4 total) <= len total - 4 ->
  parse_file_container
    (slice_to (struct_unpack_I (slice_to 4 total)) (slice_from 4 total))
  = Raise e ->
  exists w' : world,
    handle_connection conn base key w = (Ok tt, w')
    /\ fs w' = fs w
    /\ trace w'
       = trace w
         ++ [EvPrint (py_str "[Error] Unexpected error while handling connection: ");
             EvConnClose conn]
    /\ closed_at w' conn.
Proof.
  intros Hs H4 HN Hp.
  destruct (handle_file_data conn base key w) as [r w1] eqn:E.
  destruct (handle_file_data_inv conn base key w w1 r total Hs E)
    as [(_ & _ & Hshort)|(_ & _ & Hs1 & _ & _ & _ & _ & Hcase)]; [lia|].
  rewrite Hp in Hcase. destruct Hcase as (-> & Hfs & Ht).
  destruct (handle_connection_failure conn base key w w1 e E)
    as (w' & Eh & Hfs' & Ht' & Hc).
  destruct (stream_of_pending _ _ _ Hs1) as (c & Hc1 & _).
  exists w'. split; [exact Eh|]. split; [congruence|]. split; [congruence|].
  eexists. split; [apply Hc; exact Hc1 | reflexivity].
Qed.

Lemma undecodable_record_writes_nothing_witness :
  let total := [x00; x00; x00; x02; x41; x42] in
  let w := world_with_conn 1700000000 [total] in
  stream_of w 0 = Some total
  /\ 4 <= len total
  /\ struct_unpack_I (slice_to 4 total) <= len total - 4
  /\ parse_file_container
       (slice_to (struct_unpack_I (slice_to 4 total)) (slice_from 4 total))
     = Raise ValueError
  /\ exists w' : world,
       handle_connection (H := sample_libraries) 0 OUTPUT_BASE_DIR (py_bytes "k") w
       = (Ok tt, w')
       /\ fs w' = fs w
       /\ trace w'
          = trace w
            ++ [EvPrint (py_str "[Error] Unexpected error while handling connection: ");
                EvConnClose 0%nat]
       /\ closed_at w' 0.
Proof.
  cbn zeta.
  set (total := [x00; x00; x00; x02; x41; x42]).
  set (w := world_with_conn 1700000000 [total]).
  assert (Hs : stream_of w 0 = Some total) by reflexivity.
  assert (H4 : 4 <= len total) by (vm_compute; discriminate).
  assert (HN : struct_unpack_I (slice_to 4 total) <= len total - 4)
    by (vm_compute; discriminate).
  assert (Hp : parse_file_container
                 (slice_to (struct_unpack_I (slice_to 4 total)) (slice_from 4 total))
               = Raise ValueError) by reflexivity.
  split; [exact Hs|]. split; [exact H4|]. split; [exact HN|]. split; [exact Hp|].
  exact (undecodable_record_writes_nothing (H := sample_libraries) 0 OUTPUT_BASE_DIR
           (py_bytes "k") w total ValueError Hs H4 HN Hp).
Defined.

(** X6. One message is read from a connection, and no more: when the
    prefix and the record it announces have arrived, [handle_connection]
    returns with the connection closed and everything the peer sent after
    the record still unread, whether the message was stored or refused. *)
Theorem bytes_after_the_record_stay_unread `{Libraries} (conn : nat) (base : text)
    (key : bytes) (w : world) (total : bytes) :
  stream_of w conn = Some total ->
  4 <= len total ->
  struct_unpack_I (slice_to 4 total) <= len total - 4 ->
  exists (w' : world) (unread : list bytes),
    handle_connection conn base key w = (Ok tt, w')
    /\ conns w' !! conn = Some (mk_conn unread true)
    /\ concat unread
       = slice_from (struct_unpack_I (slice_to 4 total)) (slice_from 4 total).
Proof.
  intros Hs H4 HN.
  destruct (handle_file_data conn base key w) as [r w1] eqn:E.
  destruct (handle_file_data_inv conn base key w w1 r total Hs E)
    as [(_ & _ & Hshort)|(_ & _ & Hs1 & _)]; [lia|].
  destruct (stream_of_pending _ _ _ Hs1) as (c & Hc1 & Hcat).
  destruct r as [[]|e].
  - destruct (handle_connection_success conn base key w w1 E)
      as (w' & Eh & _ & _ & Hc).
    exists w', (pending c). split; [exact Eh|]. split; [apply Hc; exact Hc1 | exact Hcat].
  - destruct (handle_connection_failure conn base key w w1 e E)
      as (w' & Eh & _ & _ & Hc).
    exists w', (pending c). split; [exact Eh|]. split; [apply Hc; exact Hc1 | exact Hcat].
Qed.

Lemma bytes_after_the_record_stay_unread_witness :
  let total := hello_message ++ absolute_name_message in
  let w := world_with_conn 1700000000 [total] in
  stream_of w 0 = Some total
  /\ 4 <= len total
  /\ struct_unpack_I (slice_to 4 total) <= len total - 4
  /\ exists (w' : world) (unread : list bytes),
       handle_connection (H := sample_libraries) 0 OUTPUT_BASE_DIR (py_bytes "k") w
       = (Ok tt, w')
       /\ conns w' !! 0%nat = Some (mk_conn unread true)
       /\ concat unread
          = slice_from (struct_unpack_I (slice_to 4 total)) (slice_from 4 total).
Proof.
  cbn zeta.
  set (total := hello_message ++ absolute_name_message).
  set (w := world_with_conn 1700000000 [total]).
  assert (Hs : stream_of w 0 = Some total)
    by reflexivity.
  assert (H4 : 4 <= len total) by (vm_compute; discriminate).
  assert (HN : struct_unpack_I (slice_to 4 total) <= len total - 4)
    by (vm_compute; discriminate).
  split; [exact Hs|]. split; [exact H4|]. split; [exact HN|].
  exact (bytes_after_the_record_stay_unread (H := sample_libraries) 0 OUTPUT_BASE_DIR
           (py_bytes "k") w total Hs H4 HN).
Defined.

(** ** The first run *)

Lemma generate_eq `{Libraries} (w : world) :
  exists (k : bytes) (wg : world),
    generate w = (Ok k, wg) /\ fs wg = fs w /\ trace wg = trace w
    /\ conns wg = conns w.
Proof.
  unfold generate. destruct (entropy w); do 2 eexists; split; try reflexivity; auto.
Qed.

(** The runs of [get_signing_key] without a key file, by cases: the key
    file cannot be written; or it is written and the public key is not;
    or both are. *)
Lemma get_signing_key_first_run `{Libraries} (key_path : text) (w w1 : world)
    (r : result bytes) :
  path_exists (fs w) key_path = false ->
  get_signing_key key_path w = (r, w1) ->
  let pub := os_path_join OUTPUT_BASE_DIR (py_str "signing_key.pub.pem") in
  exists k : bytes,
    if writable (fs w) key_path then
      fs w1 !! key_path = Some (File (private_bytes k))
      \/ (key_path = pub /\ r = Ok k)
    else (exists e, r = Raise e) /\ fs w1 = fs w.
Proof.
  intros Hk. unfold get_signing_key, bind at 1, os_path_exists. rewrite Hk.
  destruct (generate_eq w) as (k & wg & Eg & Hfg & _).
  rewrite (bind_Ok _ _ _ _ _ Eg). unfold save_private_key. intros Hrun.
  cbv zeta. set (pub := os_path_join OUTPUT_BASE_DIR (py_str "signing_key.pub.pem")) in *.
  exists k. rewrite <- Hfg.
  destruct (writable (fs wg) key_path) eqn:Hw.
  - rewrite (bind_Ok _ _ _ _ _ (write_file_writable _ _ _ Hw)) in Hrun.
    unfold save_public_key, bind at 1, bind at 1 in Hrun.
    match type of Hrun with
    | context [os_makedirs _ ?v] => set (w2 := v) in *
    end.
    assert (Hf2 : fs w2 !! key_path = Some (File (private_bytes k)))
      by (unfold w2; cbn [fs set_fs]; apply lookup_insert_eq).
    destruct (os_makedirs OUTPUT_BASE_DIR w2) as [[[]|e] w3] eqn:E3;
      apply os_makedirs_inv in E3 as (_ & _ & _ & _ & Hmk).
    2: { destruct Hmk as [_ Hf3]. injection Hrun as <- <-. left. congruence. }
    assert (Hf3 : fs w3 !! key_path = Some (File (private_bytes k)))
      by (eapply makedirs_keeps; eassumption).
    fold pub in Hrun.
    destruct (write_file pub (public_bytes k) w3) as [[[]|e] w4] eqn:E4.
    + apply write_file_Ok in E4 as (Hf4 & _). unfold ret in Hrun.
      injection Hrun as <- <-.
      destruct (decide (key_path = pub)) as [->|Hne]; [right; auto|].
      left. rewrite Hf4, lookup_insert_ne by congruence. exact Hf3.
    + apply write_file_Raise in E4 as (Hf4 & _). injection Hrun as <- <-.
      left. congruence.
  - destruct (write_file_not_writable key_path (private_bytes k) wg Hw)
      as (e & E2 & _).
    rewrite (bind_Raise _ _ _ _ _ E2) in Hrun. injection Hrun as <- <-.
    split; [eauto | reflexivity].
Qed.

(** X8. A first run that returns a key has written it twice: the private
    key at the key path and the public key of the same key at
    [signing_key.pub.pem] under the default results directory, in that
    order, the directory made in between. *)
Theorem first_run_writes_both_keys `{Libraries} (key_path : text) (w w1 : world)
    (key : bytes) :
  path_exists (fs w) key_path = false ->
  get_signing_key key_path w = (Ok key, w1) ->
  let pub := os_path_join OUTPUT_BASE_DIR (py_str "signing_key.pub.pem") in
  fs w1 !! pub = Some (File (public_bytes key))
  /\ (key_path <> pub -> fs w1 !! key_path = Some (File (private_bytes key)))
  /\ trace w1
     = trace w ++ [EvOpenWrite key_path; EvMakedirs OUTPUT_BASE_DIR; EvOpenWrite pub].
Proof.
  intros Hk Hrun pub.
  destruct (get_signing_key_persists key_path w w1 key Hk Hrun) as [_ Hpriv].
  split; [|split; [exact Hpriv|]].
  all: revert Hrun; unfold get_signing_key, bind at 1, os_path_exists; rewrite Hk.
  all: destruct (generate_eq w) as (k & wg & Eg & _ & Htg & _).
  all: rewrite (bind_Ok _ _ _ _ _ Eg); unfold save_private_key, bind at 1.
  all: destruct (write_file key_path (private_bytes k) wg) as [[[]|e] w2] eqn:E2;
    [|discriminate].
  all: apply write_file_Ok in E2 as (_ & _ & _ & _ & Ht2).
  all: unfold save_public_key, bind at 1, bind at 1.
  all: destruct (os_makedirs OUTPUT_BASE_DIR w2) as [[[]|e] w3] eqn:E3; [|discriminate].
  all: apply os_makedirs_inv in E3 as (_ & _ & _ & Ht3 & _).
  all: fold pub.
  all: destruct (write_file pub (public_bytes k) w3) as [[[]|e] w4] eqn:E4;
    [|discriminate].
  all: apply write_file_Ok in E4 as (Hf4 & _ & _ & _ & Ht4).
  all: unfold ret; intros [= <- <-].
  - rewrite Hf4. apply lookup_insert_eq.
  - rewrite Ht4, Ht3, Ht2, Htg, <- !app_assoc. reflexivity.
Qed.

Lemma first_run_writes_both_keys_witness :
  let w := world_of prepared_fs in
  let pub := os_path_join OUTPUT_BASE_DIR (py_str "signing_key.pub.pem") in
  path_exists (fs w) SIGNING_KEY_PATH = false
  /\ exists w1 : world,
       get_signing_key (H := sample_libraries) SIGNING_KEY_PATH w
       = (Ok (py_bytes "seed-one"), w1)
       /\ fs w1 !! pub
          = Some (File (public_bytes (Libraries := sample_libraries)
                          (py_bytes "seed-one")))
       /\ (SIGNING_KEY_PATH <> pub ->
           fs w1 !! SIGNING_KEY_PATH
           = Some (File (private_bytes (Libraries := sample_libraries)
                           (py_bytes "seed-one"))))
       /\ trace w1
          = trace w ++ [EvOpenWrite SIGNING_KEY_PATH; EvMakedirs OUTPUT_BASE_DIR;
                        EvOpenWrite pub].
Proof.
  cbn zeta.
  set (w := world_of prepared_fs).
  assert (Hk : path_exists (fs w) SIGNING_KEY_PATH = false) by reflexivity.
  assert (Hr : fst (get_signing_key (H := sample_libraries) SIGNING_KEY_PATH w)
               = Ok (py_bytes "seed-one")) by (vm_compute; reflexivity).
  destruct (get_signing_key (H := sample_libraries) SIGNING_KEY_PATH w)
    as [r w1] eqn:Hrun.
  cbn [fst] in Hr. subst r.
  split; [exact Hk|]. exists w1. split; [reflexivity|].
  exact (first_run_writes_both_keys (H := sample_libraries) SIGNING_KEY_PATH
           w w1 (py_bytes "seed-one") Hk Hrun).
Defined.

(** X9. The two keys are not written as one step. When a first run gets
    as far as writing the private key and then fails, the directory or the
    file of the public key being refused, the private key stays on disk;
    the next start finds it, returns it, and writes nothing: the public
    key that could not be written the first time is not written then
    either. The first hypothesis is the contract of the library: a
    serialized key loads as that key. *)
Theorem failed_first_run_keeps_private_key `{Libraries} (key_path : text)
    (w w1 : world) (e : exn) :
  (forall k : bytes, load_pem_private_key (private_bytes k) = LoadedEd25519 k) ->
  path_exists (fs w) key_path = false ->
  writable (fs w) key_path = true ->
  get_signing_key key_path w = (Raise e, w1) ->
  exists (key : bytes) (w2 : world),
    fs w1 !! key_path = Some (File (private_bytes key))
    /\ get_signing_key key_path w1 = (Ok key, w2)
    /\ fs w2 = fs w1
    /\ trace w2 = trace w1 ++ [EvOpenRead key_path].
Proof.
  intros Hlib Hk Hw Hrun.
  destruct (get_signing_key_first_run key_path w w1 _ Hk Hrun) as (k & Hcase).
  cbn zeta in Hcase. rewrite Hw in Hcase.
  destruct Hcase as [Hfile|[_ Habs]]; [|discriminate].
  assert (Hnul : has_nul key_path = false).
  { unfold writable in Hw. destruct (has_nul key_path); [discriminate | reflexivity]. }
  assert (Hroot : key_path <> ROOT).
  { intros ->. discriminate Hk. }
  assert (Hnode : node_at (fs w1) key_path = Some (File (private_bytes k))).
  { unfold node_at. rewrite bool_decide_eq_false_2 by exact Hroot. exact Hfile. }
  exists k. eexists. split; [exact Hfile|].
  rewrite (get_signing_key_existing key_path w1 _ Hnode Hnul), Hlib.
  split; [reflexivity|]. split; reflexivity.
Qed.

Lemma failed_first_run_keeps_private_key_witness :
  let w := world_of blocked_results_fs in
  path_exists (fs w) SIGNING_KEY_PATH = false
  /\ writable (fs w) SIGNING_KEY_PATH = true
  /\ exists w1 : world,
       get_signing_key (H := sample_libraries) SIGNING_KEY_PATH w
       = (Raise FileExistsError, w1)
       /\ exists (key : bytes) (w2 : world),
            fs w1 !! SIGNING_KEY_PATH
            = Some (File (private_bytes (Libraries := sample_libraries) key))
            /\ get_signing_key (H := sample_libraries) SIGNING_KEY_PATH w1
               = (Ok key, w2)
            /\ fs w2 = fs w1
            /\ trace w2 = trace w1 ++ [EvOpenRead SIGNING_KEY_PATH].
Proof.
  cbn zeta.
  set (w := world_of blocked_results_fs).
  assert (Hk : path_exists (fs w) SIGNING_KEY_PATH = false) by reflexivity.
  assert (Hw : writable (fs w) SIGNING_KEY_PATH = true) by reflexivity.
  assert (Hr : fst (get_signing_key (H := sample_libraries) SIGNING_KEY_PATH w)
               = Raise FileExistsError) by (vm_compute; reflexivity).
  destruct (get_signing_key (H := sample_libraries) SIGNING_KEY_PATH w)
    as [r w1] eqn:Hrun.
  cbn [fst] in Hr. subst r.
  split; [exact Hk|]. split; [exact Hw|]. exists w1. split; [reflexivity|].
  exact (failed_first_run_keeps_private_key (H := sample_libraries) SIGNING_KEY_PATH
           w w1 FileExistsError sample_libraries_roundtrip Hk Hw Hrun).
Defined.

(** ** Shutting down *)

Lemma sock_bind_inv (p : text) (w w' : world) (r : result unit) :
  sock_bind p w = (r, w') ->
  trace w' = trace w ++ [EvBind p] /\ conns w' = conns w
  /\ match r with
     | Ok _ => fs w' = <[p := Sock]> (fs w) /\ p <> ROOT
     | Raise _ => fs w' = fs w
     end.
Proof.
  unfold sock_bind. rewrite (bind_Ok _ _ _ _ _ (emit_eq _ w)). cbn [fs log_event].
  destruct (has_nul p); [intros [= <- <-]; auto|].
  destruct (path_exists (fs w) p) eqn:Hex; [intros [= <- <-]; auto|].
  destruct (_ && _); intros [= <- <-]; cbn [fs set_fs trace conns]; auto.
  repeat split. intros ->. discriminate Hex.
Qed.

(** Serving, from the [bind] on: either the [bind] is refused, or the
    daemon listens, handles what arrives, and leaves on the interrupt with
    its endpoint removed. *)
Lemma serve_inv `{Libraries} (sp base : text) (arrivals : list arrival)
    (key : bytes) (w w' : world) (r : result unit) :
  serve sp base arrivals key w = (r, w') ->
  (exists e : exn,
     r = Raise e /\ trace w' = trace w ++ [EvBind sp] /\ conns w' = conns w)
  \/ (r = Ok tt
      /\ path_exists (fs w') sp = false
      /\ last (trace w') = Some (EvUnlink sp)
      /\ length (conns w') = (length (conns w) + length arrivals)%nat
      /\ forall i, (length (conns w) <= i < length (conns w'))%nat -> closed_at w' i).
Proof.
  unfold serve. unfold bind at 1.
  destruct (sock_bind sp w) as [rb w1] eqn:Eb.
  apply sock_bind_inv in Eb as (Ht1 & Hc1 & Hb).
  destruct rb as [[]|e]; [|intros [= <- <-]; left; eauto].
  destruct Hb as [Hf1 Hroot]. intros Hrun. right. revert Hrun.
  unfold sock_listen, server_close, print.
  rewrite (bind_Ok _ _ _ _ _ (emit_eq _ _)).
  rewrite (bind_Ok _ _ _ _ _ (emit_eq _ _)).
  match goal with
  | |- context [try_finally _ _ ?v] => set (w2 := v)
  end.
  assert (Hf2 : fs w2 = <[sp := Sock]> (fs w)) by exact Hf1.
  assert (Hc2 : conns w2 = conns w) by exact Hc1.
  destruct (accept_loop_spec arrivals base key w2) as (w3 & E3 & Hl3 & _ & Hcl3).
  pose proof (kept_accept_loop arrivals base key w2 w3 _ E3) as Hkept.
  assert (Hsock : fs w3 !! sp = Some Sock).
  { destruct (Hkept sp Sock) as [Hs|(c & c' & Hx & _)]; [|exact Hs|discriminate].
    rewrite Hf2. apply lookup_insert_eq. }
  unfold try_finally, try_except. rewrite E3. cbv beta iota.
  rewrite bool_decide_eq_true_2 by reflexivity. rewrite emit_eq.
  rewrite (bind_Ok _ _ _ _ _ (emit_eq _ _)).
  unfold bind at 1, os_path_exists, path_exists, node_at. cbn [fs log_event].
  rewrite bool_decide_eq_false_2 by exact Hroot. rewrite Hsock.
  unfold os_remove. rewrite (bind_Ok _ _ _ _ _ (emit_eq _ _)).
  unfold node_at. cbn [fs log_event].
  rewrite bool_decide_eq_false_2 by exact Hroot. rewrite Hsock.
  intros [= <- <-]. cbn [fs set_fs trace conns].
  split; [reflexivity|]. split.
  { rewrite lookup_delete_eq. reflexivity. }
  split; [apply last_snoc|].
  rewrite <- Hc2. split; [exact Hl3 | exact Hcl3].
Qed.

(** X10. Once the daemon listens, it ends in one way only: the accept loop
    is left by the interrupt, which [run_server] catches, and the [finally]
    clause closes the server and removes the endpoint. So a run that got as
    far as [listen] returns normally, has accepted and closed every
    connection that arrived, and leaves no entry at the socket path; its
    last system call is the [unlink] of that path. *)
Theorem listening_daemon_shuts_down_cleanly `{Libraries} (sp base : text)
    (arrivals : list arrival) (w w' : world) (r : result unit) :
  run_server sp base arrivals w = (r, w') ->
  ~ In EvListen (trace w) ->
  In EvListen (trace w') ->
  r = Ok tt
  /\ path_exists (fs w') sp = false
  /\ last (trace w') = Some (EvUnlink sp)
  /\ length (conns w') = (length (conns w) + length arrivals)%nat
  /\ forall i, (length (conns w) <= i < length (conns w'))%nat -> closed_at w' i.
Proof.
  intros Hrun Hnot Hin.
  destruct (run_server_events sp base arrivals w w' r Hrun)
    as (unlinks & Hu & [(Ht & _)
                       |(w0 & w1 & rk & ev & evs & _ & _ & _ & Hns & Ht1 & Hc1 & Hrk)]).
  - exfalso. rewrite Ht in Hin. apply in_app_or in Hin as [Hin|Hin]; [auto|].
    destruct Hu as [[-> _]|[-> _]]; [destruct Hin|].
    destruct Hin as [Hin|[]]. discriminate Hin.
  - assert (Hno1 : ~ In EvListen (trace w1)).
    { rewrite Ht1. intros Hin1.
      apply in_app_or in Hin1 as [Hin1|Hin1]; [auto|].
      apply in_app_or in Hin1 as [Hin1|Hin1].
      - destruct Hu as [[-> _]|[-> _]]; [destruct Hin1|].
        destruct Hin1 as [Hin1|[]]. discriminate Hin1.
      - rewrite List.Forall_forall in Hns. apply Hns in Hin1. discriminate Hin1. }
    destruct rk as [key|e]; [|destruct Hrk as [_ ->]; contradiction].
    destruct (serve_inv sp base arrivals key w1 w' r Hrk)
      as [(e & _ & Ht & _)|(Hr & Hgone & Hlast & Hlen & Hcl)].
    + exfalso. rewrite Ht in Hin. apply in_app_or in Hin as [Hin|Hin]; [auto|].
      destruct Hin as [Hin|[]]. discriminate Hin.
    + rewrite Hc1 in Hlen, Hcl. auto.
Qed.

Lemma listening_daemon_shuts_down_cleanly_witness :
  let w := world_of prepared_fs in
  exists (r : result unit) (w' : world),
    run_server (H := sample_libraries) SOCKET_PATH OUTPUT_BASE_DIR
      [truncated_arrival; hello_arrival] w = (r, w')
    /\ ~ In EvListen (trace w)
    /\ In EvListen (trace w')
    /\ r = Ok tt
    /\ path_exists (fs w') SOCKET_PATH = false
    /\ last (trace w') = Some (EvUnlink SOCKET_PATH)
    /\ length (conns w')
       = (length (conns w) + length [truncated_arrival; hello_arrival])%nat
    /\ forall i, (length (conns w) <= i < length (conns w'))%nat -> closed_at w' i.
Proof.
  cbn zeta.
  set (w := world_of prepared_fs).
  assert (Hb : existsb (fun ev => bool_decide (ev = EvListen))
                 (trace (snd (run_server (H := sample_libraries) SOCKET_PATH
                                OUTPUT_BASE_DIR [truncated_arrival; hello_arrival] w)))
               = true) by (vm_compute; reflexivity).
  destruct (run_server (H := sample_libraries) SOCKET_PATH OUTPUT_BASE_DIR
              [truncated_arrival; hello_arrival] w) as [r w'] eqn:Hrun.
  cbn [snd] in Hb.
  assert (Hnot : ~ In EvListen (trace w)) by (intros []).
  assert (Hin : In EvListen (trace w')).
  { apply existsb_exists in Hb as (ev & Hev & Heq).
    apply bool_decide_eq_true_1 in Heq. subst ev. exact Hev. }
  exists r, w'. split; [reflexivity|]. split; [exact Hnot|]. split; [exact Hin|].
  exact (listening_daemon_shuts_down_cleanly (H := sample_libraries) SOCKET_PATH
           OUTPUT_BASE_DIR [truncated_arrival; hello_arrival] w w' r Hrun Hnot Hin).
Defined.

(** ** The length prefix and the message on the wire *)

Lemma int_from_bytes_bound (b : bytes) :
  0 <= int_from_bytes b < 256 ^ Z.of_nat (length b).
Proof.
  induction b as [|x l IH] using rev_ind.
  - cbn. lia.
  - rewrite int_from_bytes_snoc, length_app. cbn [length].
    replace (Z.of_nat (length l + 1)) with (Z.succ (Z.of_nat (length l))) by lia.
    rewrite Z.pow_succ_r by lia. pose proof (Z_of_byte_range x). lia.
Qed.

Lemma be_digits_int_from_bytes (b : bytes) :
  be_digits (length b) (int_from_bytes b) = b.
Proof.
  induction b as [|x l IH] using rev_ind; [reflexivity|].
  rewrite int_from_bytes_snoc, length_app. cbn [length].
  replace (length l + 1)%nat with (S (length l)) by lia. cbn [be_digits].
  pose proof (Z_of_byte_range x).
  replace ((int_from_bytes l * 256 + Z_of_byte x) / 256) with (int_from_bytes l)
    by lia.
  replace ((int_from_bytes l * 256 + Z_of_byte x) mod 256) with (Z_of_byte x)
    by lia.
  rewrite IH, byte_of_Z_of_byte. reflexivity.
Qed.

(** X11. The length prefix, [struct.pack("!I", n)] on the sending side and
    [struct.unpack("!I", b)] on the receiving side, is a bijection between
    the integers from 0 to 2^32 - 1 and the strings of four bytes: packing
    then unpacking gives the integer back, unpacking then packing gives the
    bytes back, and an integer out of that range is refused with
    [struct.error]. *)
Theorem length_prefix_is_a_bijection :
  (forall n : Z,
     0 <= n < 2 ^ 32 ->
     exists b : bytes,
       struct_pack_I n = Ok b /\ length b = 4%nat /\ struct_unpack_I b = n)
  /\ (forall n : Z, n < 0 \/ 2 ^ 32 <= n -> struct_pack_I n = Raise StructError)
  /\ (forall b : bytes,
        length b = 4%nat ->
        0 <= struct_unpack_I b < 2 ^ 32
        /\ struct_pack_I (struct_unpack_I b) = Ok b).
Proof.
  split; [|split].
  - intros n Hn. exists (be_digits 4 n).
    assert (E : struct_pack_I n = Ok (be_digits 4 n)).
    { unfold struct_pack_I.
      destruct (Z.leb_spec 0 n); [|lia]. destruct (Z.ltb_spec n (2 ^ 32)); [|lia].
      reflexivity. }
    split; [exact E|]. exact (struct_roundtrip n _ E).
  - intros n Hn. unfold struct_pack_I.
    destruct (Z.leb_spec 0 n); destruct (Z.ltb_spec n (2 ^ 32)); try reflexivity; lia.
  - intros b Hb. unfold struct_unpack_I, struct_pack_I.
    pose proof (int_from_bytes_bound b) as Hr. rewrite Hb in Hr.
    change (256 ^ Z.of_nat 4) with (2 ^ 32) in Hr. split; [exact Hr|].
    destruct (Z.leb_spec 0 (int_from_bytes b)); [|lia].
    destruct (Z.ltb_spec (int_from_bytes b) (2 ^ 32)); [|lia].
    cbn [andb]. rewrite <- Hb at 1. rewrite be_digits_int_from_bytes. reflexivity.
Qed.

Lemma wire_message_inv (filename : text) (data msg : bytes) :
  wire_message filename data = Ok msg ->
  exists name : bytes,
    utf8_encode filename = Ok name
    /\ msg = be_digits 4 (len (dump_value 1 TAG_SEQUENCE
                                 (dump_value 0 TAG_UTF8String name
                                  ++ dump_value 0 TAG_OctetString data)))
             ++ dump_value 1 TAG_SEQUENCE
                  (dump_value 0 TAG_UTF8String name
                   ++ dump_value 0 TAG_OctetString data)
    /\ len (dump_value 1 TAG_SEQUENCE
              (dump_value 0 TAG_UTF8String name
               ++ dump_value 0 TAG_OctetString data)) < 2 ^ 32.
Proof.
  unfold wire_message, create_file_container.
  destruct (utf8_encode filename) as [name|]; [|discriminate].
  unfold struct_pack_I.
  destruct (Z.leb_spec 0 (len (dump_value 1 TAG_SEQUENCE
              (dump_value 0 TAG_UTF8String name
               ++ dump_value 0 TAG_OctetString data)))); [|discriminate].
  destruct (Z.ltb_spec (len (dump_value 1 TAG_SEQUENCE
              (dump_value 0 TAG_UTF8String name
               ++ dump_value 0 TAG_OctetString data))) (2 ^ 32)); [|discriminate].
  cbn [andb]. intros [= <-]. exists name. auto.
Qed.

Lemma record_size (name data : bytes) :
  6 + len name + len data
  <= len (dump_value 1 TAG_SEQUENCE
            (dump_value 0 TAG_UTF8String name ++ dump_value 0 TAG_OctetString data)).
Proof.
  pose proof (dump_value_length 1 TAG_SEQUENCE
                (dump_value 0 TAG_UTF8String name
                 ++ dump_value 0 TAG_OctetString data)) as H1.
  rewrite len_app in H1.
  pose proof (dump_value_length 0 TAG_UTF8String name).
  pose proof (dump_value_length 0 TAG_OctetString data). lia.
Qed.

Lemma small_below_DER_MAX (n : Z) : n < 2 ^ 32 -> n < DER_MAX / 4.
Proof.
  intros Hn. pose proof DER_MAX_large.
  assert (2 ^ 32 <= 2 ^ 70) by (apply Z.pow_le_mono_r; lia). lia.
Qed.

(** The parts of a message: the four bytes of the length of the record,
    and the record, which decodes whatever follows it. *)
Lemma wire_message_parts (filename : text) (data msg : bytes) :
  wire_message filename data = Ok msg ->
  exists record : bytes,
    msg = be_digits 4 (len record) ++ record
    /\ len record < 2 ^ 32
    /\ forall junk : bytes,
         parse_file_container (record ++ junk) = Ok (filename, data).
Proof.
  intros Hm. destruct (wire_message_inv filename data msg Hm) as (name & Hn & -> & Hlt).
  eexists. split; [reflexivity|]. split; [exact Hlt|]. intros junk.
  pose proof (record_size name data) as Hsize.
  pose proof (len_nonneg name). pose proof (len_nonneg data).
  rewrite parse_file_container_dump by (apply small_below_DER_MAX; lia).
  rewrite (utf8_roundtrip filename name Hn). reflexivity.
Qed.

(** The receiver's first two reads on a stream that begins with a
    message. *)
Lemma framing_of_message (record rest : bytes) :
  len record < 2 ^ 32 ->
  struct_unpack_I (slice_to 4 ((be_digits 4 (len record) ++ record) ++ rest))
  = len record
  /\ slice_from 4 ((be_digits 4 (len record) ++ record) ++ rest) = record ++ rest.
Proof.
  intros Hlt. pose proof (len_nonneg record) as Hpos.
  assert (H4 : len (be_digits 4 (len record)) = 4)
    by (unfold len at 1; rewrite be_digits_length; reflexivity).
  rewrite <- app_assoc. split.
  - rewrite <- H4 at 1. rewrite slice_to_app.
    unfold struct_unpack_I. apply int_from_be_digits.
    change (256 ^ Z.of_nat 4) with (2 ^ 32). lia.
  - rewrite <- H4 at 1. apply slice_from_app.
Qed.

(** X12. What the producer writes, the daemon reads: when the producer's
    loop builds a message for [(filename, data)], the daemon's steps on a
    stream that begins with that message, whatever follows it, recover the
    pair. The four bytes it reads first unpack to the length of the rest
    of the message, and [parse_file_container] of that many following
    bytes is [(filename, data)]. *)
Theorem wire_message_is_decoded (filename : text) (data msg rest : bytes) :
  wire_message filename data = Ok msg ->
  struct_unpack_I (slice_to 4 (msg ++ rest)) = len msg - 4
  /\ parse_file_container
       (slice_to (struct_unpack_I (slice_to 4 (msg ++ rest)))
          (slice_from 4 (msg ++ rest)))
     = Ok (filename, data).
Proof.
  intros Hm.
  destruct (wire_message_parts filename data msg Hm) as (record & -> & Hlt & Hparse).
  destruct (framing_of_message record rest Hlt) as [Hu Hr].
  rewrite Hu, Hr, slice_to_app. split.
  - rewrite len_app. unfold len at 2. rewrite be_digits_length. lia.
  - rewrite <- (app_nil_r record). apply Hparse.
Qed.

Lemma wire_message_is_decoded_witness :
  wire_message (py_str "hello.txt") (py_bytes "world") = Ok hello_message
  /\ struct_unpack_I (slice_to 4 (hello_message ++ absolute_name_message))
     = len hello_message - 4
  /\ parse_file_container
       (slice_to (struct_unpack_I (slice_to 4 (hello_message ++ absolute_name_message)))
          (slice_from 4 (hello_message ++ absolute_name_message)))
     = Ok (py_str "hello.txt", py_bytes "world").
Proof.
  assert (Hm : wire_message (py_str "hello.txt") (py_bytes "world") = Ok hello_message)
    by reflexivity.
  split; [exact Hm|].
  exact (wire_message_is_decoded (py_str "hello.txt") (py_bytes "world")
           hello_message absolute_name_message Hm).
Defined.

(** X13. The prefix has four bytes, so a record of 2^32 bytes or more is
    not sent: for a payload that long, under any valid name, the record is
    built and [struct.pack] then refuses its length with [struct.error];
    no message comes out. *)
Theorem payload_of_four_gibibytes_is_not_sent (filename : text) (data : bytes) :
  valid_text filename ->
  2 ^ 32 <= 6 + len data ->
  (exists record : bytes, create_file_container filename data = Ok record)
  /\ wire_message filename data = Raise StructError.
Proof.
  intros Hv Hbig. destruct (utf8_encode_valid filename Hv) as (name & Hn & _).
  pose proof (create_file_container_eq filename data name Hn) as Hc.
  split; [eauto|]. unfold wire_message. rewrite Hc.
  pose proof (record_size name data). pose proof (len_nonneg name).
  unfold struct_pack_I.
  destruct (Z.ltb_spec (len (dump_value 1 TAG_SEQUENCE
              (dump_value 0 TAG_UTF8String name
               ++ dump_value 0 TAG_OctetString data))) (2 ^ 32)); [lia|].
  rewrite andb_false_r. reflexivity.
Qed.

(** X14. The record may be followed by anything: [load] reads the one
    element at the head of its input and does not look at what comes after
    it. So a message whose prefix announces more bytes than its record has
    is decoded all the same, when that many bytes arrive. *)
Theorem bytes_after_the_record_are_ignored (filename : text) (data record junk : bytes) :
  len filename <= PY_SSIZE_T_MAX ->
  len data <= PY_SSIZE_T_MAX ->
  create_file_container filename data = Ok record ->
  parse_file_container (record ++ junk) = Ok (filename, data).
Proof.
  intros Hf Hd. unfold create_file_container.
  destruct (utf8_encode filename) as [name|] eqn:Hn; [|discriminate].
  intros [= <-].
  destruct (utf8_encode_valid filename (utf8_encode_is_valid _ _ Hn))
    as (name' & Hn' & Hlen).
  assert (name' = name) by congruence. subst name'.
  pose proof DER_MAX_large. unfold PY_SSIZE_T_MAX in *.
  rewrite parse_file_container_dump by lia.
  rewrite (utf8_roundtrip filename name Hn). reflexivity.
Qed.

Lemma bytes_after_the_record_are_ignored_witness :
  len (py_str "a") <= PY_SSIZE_T_MAX
  /\ len (@nil byte) <= PY_SSIZE_T_MAX
  /\ create_file_container (py_str "a") []
     = Ok [x30; x05; x0c; x01; x61; x04; x00]
  /\ parse_file_container ([x30; x05; x0c; x01; x61; x04; x00] ++ py_bytes "junk")
     = Ok (py_str "a", []).
Proof.
  assert (Hf : len (py_str "a") <= PY_SSIZE_T_MAX) by (vm_compute; discriminate).
  assert (Hd : len (@nil byte) <= PY_SSIZE_T_MAX) by (vm_compute; discriminate).
  assert (Hc : create_file_container (py_str "a") []
               = Ok [x30; x05; x0c; x01; x61; x04; x00]) by reflexivity.
  split; [exact Hf|]. split; [exact Hd|]. split; [exact Hc|].
  exact (bytes_after_the_record_are_ignored (py_str "a") [] _ (py_bytes "junk")
           Hf Hd Hc).
Defined.

Lemma payload_of_four_gibibytes_is_not_sent_witness :
  let data := replicate (Z.to_nat (2 ^ 32)) x00 in
  valid_text (py_str "a")
  /\ 2 ^ 32 <= 6 + len data
  /\ (exists record : bytes, create_file_container (py_str "a") data = Ok record)
  /\ wire_message (py_str "a") data = Raise StructError.
Proof.
  cbn zeta.
  assert (Hv : valid_text (py_str "a")) by (repeat constructor).
  assert (Hbig : 2 ^ 32 <= 6 + len (replicate (Z.to_nat (2 ^ 32)) x00))
    by (unfold len; rewrite length_replicate; lia).
  split; [exact Hv|]. split; [exact Hbig|].
  exact (payload_of_four_gibibytes_is_not_sent (py_str "a")
           (replicate (Z.to_nat (2 ^ 32)) x00) Hv Hbig).
Defined.

(** ** A plain name under the receipt directory *)

Lemma take_name_app (a b : text) :
  existsb (Z.eqb SEP) a = false -> take_name (a ++ SEP :: b) = a.
Proof.
  induction a as [|c a IH]; cbn [existsb app take_name].
  - intros _. rewrite Z.eqb_refl. reflexivity.
  - intros Hc. apply orb_false_elim in Hc as [Hc Ha].
    rewrite Z.eqb_sym, Hc, IH by exact Ha. reflexivity.
Qed.

Lemma drop_name_app (a b : text) :
  existsb (Z.eqb SEP) a = false -> drop_name (a ++ SEP :: b) = SEP :: b.
Proof.
  induction a as [|c a IH]; cbn [existsb app drop_name].
  - intros _. rewrite Z.eqb_refl. reflexivity.
  - intros Hc. apply orb_false_elim in Hc as [Hc Ha].
    rewrite Z.eqb_sym, Hc, IH by exact Ha. reflexivity.
Qed.

Lemma existsb_rev {A} (P : A -> bool) (l : list A) :
  existsb P (rev l) = existsb P l.
Proof.
  induction l as [|x l IH]; [reflexivity|].
  cbn [rev existsb]. rewrite existsb_app, IH. cbn [existsb].
  rewrite orb_false_r. apply orb_comm.
Qed.

(** [os.path.split] of a name joined to a directory by a separator. *)
Lemma os_path_split_joined (pre : text) (d : Z) (name : text) :
  d <> SEP -> existsb (Z.eqb SEP) name = false ->
  os_path_split ((pre ++ [d]) ++ [SEP] ++ name) = (pre ++ [d], name).
Proof.
  intros Hd Hn. unfold os_path_split.
  rewrite !rev_app_distr. cbn [rev app]. rewrite <- !app_assoc. cbn [app].
  rewrite take_name_app, drop_name_app by (rewrite existsb_rev; exact Hn).
  cbn [lstrip_sep]. rewrite Z.eqb_refl. cbn [lstrip_sep].
  destruct (Z.eqb_spec d SEP); [contradiction|].
  rewrite rev_involutive. cbn [rev]. rewrite rev_involutive. reflexivity.
Qed.

Lemma os_path_split_last (pre : text) (d : Z) :
  d <> SEP ->
  exists (head tail : text),
    os_path_split (pre ++ [d]) = (head, tail ++ [d]).
Proof.
  intros Hd. unfold os_path_split. rewrite rev_app_distr. cbn [rev app take_name].
  destruct (Z.eqb_spec d SEP); [contradiction|]. cbn [rev].
  eexists _, _. reflexivity.
Qed.

(** When [makedirs] succeeds on a path whose last component ends in a
    character that is neither a separator nor a dot, the path has no NUL
    and is a directory afterwards. *)
Lemma makedirs_makes_directory (fuel : nat) (pre : text) (d : Z)
    (f f1 : gmap text node) :
  d <> SEP -> d <> 46 ->
  makedirs fuel (pre ++ [d]) f = Ok f1 ->
  has_nul (pre ++ [d]) = false /\ path_isdir f1 (pre ++ [d]) = true.
Proof.
  intros Hd Hdot. destruct fuel as [|fuel]; cbn [makedirs]; [discriminate|].
  set (name := pre ++ [d]).
  assert (Hlast : forall f0,
             match mkdir name f0 with
             | Ok f2 => Ok f2
             | Raise e0 =>
                 if is_OSError e0 && path_isdir f0 name then Ok f0 else Raise e0
             end = Ok f1 ->
             has_nul name = false /\ path_isdir f1 name = true).
  { intros f0. unfold mkdir. destruct (has_nul name); [discriminate|].
    destruct (bool_decide (name = [])); cbn [is_OSError andb].
    { destruct (path_isdir f0 name) eqn:Hdir; [|discriminate].
      intros [= <-]. auto. }
    destruct (path_exists f0 name); cbn [is_OSError andb].
    { destruct (path_isdir f0 name) eqn:Hdir; [|discriminate].
      intros [= <-]. auto. }
    destruct (dir_usable f0 (os_path_dirname name)).
    - intros [= <-]. split; [reflexivity|].
      unfold path_isdir, node_at. destruct (bool_decide (name = ROOT)); [reflexivity|].
      rewrite lookup_insert_eq. reflexivity.
    - unfold missing_dir_error.
      destruct (path_exists f0 (os_path_dirname name)); cbn [is_OSError andb];
        (destruct (path_isdir f0 name) eqn:Hdir; [|discriminate]);
        intros [= <-]; auto. }
  destruct (os_path_split_last pre d Hd) as (head0 & tail0 & Hsplit).
  fold name in Hsplit. rewrite Hsplit.
  rewrite (bool_decide_eq_false_2 (tail0 ++ [d] = []))
    by (destruct tail0; discriminate).
  assert (Hnotdot : tail0 ++ [d] <> [46]).
  { intros E. destruct tail0 as [|t [|t' tail0]]; cbn in E; try discriminate.
    injection E as E. contradiction. }
  rewrite (bool_decide_eq_false_2 (tail0 ++ [d] = [46])) by exact Hnotdot.
  destruct (_ && _); [|apply Hlast].
  destruct (makedirs fuel head0 f) as [f0|e].
  - apply Hlast.
  - destruct (bool_decide (e = FileExistsError)); [apply Hlast | discriminate].
Qed.

Lemma has_nul_app (a b : text) : has_nul (a ++ b) = has_nul a || has_nul b.
Proof. unfold has_nul. apply existsb_app. Qed.

Lemma plain_name_inv (name : text) :
  plain_name name = true ->
  name <> [] /\ has_nul name = false /\ existsb (Z.eqb SEP) name = false
  /\ starts_with_sep name = false.
Proof.
  unfold plain_name. intros Hp.
  repeat (apply andb_prop in Hp as [Hp ?]).
  repeat match goal with
         | H : negb ?b = true |- _ => apply negb_true_iff in H
         end.
  apply bool_decide_eq_false_1 in Hp.
  repeat split; try assumption.
  destruct name as [|c name]; [reflexivity|].
  cbn [existsb] in *. cbn [starts_with_sep]. rewrite Z.eqb_sym.
  match goal with
  | H : _ || _ = false |- _ => apply orb_false_elim in H as [H _]; exact H
  end.
Qed.

Lemma ends_with_sep_plain (a name : text) :
  name <> [] -> existsb (Z.eqb SEP) name = false ->
  ends_with_sep (a ++ name) = false.
Proof.
  intros Hne Hn. destruct name as [|c name] using rev_ind; [contradiction|].
  rewrite app_assoc, ends_with_sep_snoc.
  rewrite existsb_app in Hn. apply orb_false_elim in Hn as [_ Hc].
  cbn [existsb] in Hc. rewrite orb_false_r, Z.eqb_sym in Hc. exact Hc.
Qed.

(** A plain name, and a plain name with the suffix of signatures, can be
    written in a directory that is there, where no directory or socket
    has that name. *)
Lemma writable_in_directory (f : gmap text node) (pre : text) (d : Z)
    (name : text) :
  d <> SEP -> name <> [] -> has_nul name = false ->
  existsb (Z.eqb SEP) name = false ->
  has_nul (pre ++ [d]) = false ->
  path_isdir f (pre ++ [d]) = true ->
  free_or_file f ((pre ++ [d]) ++ [SEP] ++ name) = true ->
  writable f ((pre ++ [d]) ++ [SEP] ++ name) = true.
Proof.
  intros Hd Hne Hnul Hsep Hdnul Hdir Hfree. unfold writable.
  rewrite (has_nul_app (pre ++ [d]) ([SEP] ++ name)), Hdnul.
  rewrite (has_nul_app [SEP] name), Hnul. cbn [has_nul existsb SEP Z.eqb orb negb andb].
  rewrite bool_decide_eq_false_2 by (destruct pre; discriminate).
  cbn [negb andb]. unfold node_at.
  rewrite bool_decide_eq_false_2.
  2: { intros E. apply (f_equal length) in E. rewrite !length_app in E.
       cbn [length ROOT] in E. lia. }
  unfold free_or_file in Hfree.
  destruct (f !! ((pre ++ [d]) ++ [SEP] ++ name)) as [[| |]|]; try discriminate;
    [reflexivity|].
  rewrite app_assoc, ends_with_sep_plain by assumption. cbn [negb andb].
  unfold dir_usable, os_path_dirname. rewrite <- app_assoc.
  rewrite os_path_split_joined by assumption. cbn [fst].
  rewrite Hdir. apply orb_true_r.
Qed.

Lemma path_isdir_insert_file (f : gmap text node) (p q : text) (c : bytes) :
  p <> q -> path_isdir (<[p := File c]> f) q = path_isdir f q.
Proof.
  intros Hne. unfold path_isdir, node_at.
  destruct (bool_decide (q = ROOT)); [reflexivity|].
  rewrite lookup_insert_ne by exact Hne. reflexivity.
Qed.

Lemma free_or_file_insert (f : gmap text node) (p q : text) (c : bytes) :
  free_or_file f q = true -> free_or_file (<[p := File c]> f) q = true.
Proof.
  unfold free_or_file. destruct (decide (p = q)) as [->|Hne].
  - rewrite lookup_insert_eq. reflexivity.
  - rewrite lookup_insert_ne by exact Hne. auto.
Qed.

(** X15. A message of the producer with a plain file name is stored and
    signed. When the stream of a connection begins with the message built
    for [(filename, data)], the name is one path component, the receipt
    directory of the current second can be made, and neither the name nor
    the name with [.sig] is taken there by a directory or a socket, then
    [handle_file_data] completes: the payload is at
    directory/filename, the base64 form of its signature at
    directory/filename.sig, nothing else is changed but the directories
    made, what follows the message is left on the connection, and the
    system calls and printed lines are the six of the source, in its
    order. *)
Theorem plain_name_is_stored_and_signed `{Libraries} (conn : nat) (base : text)
    (key : bytes) (w : world) (filename : text) (data msg rest : bytes)
    (f1 : gmap text node) :
  let dir := os_path_join base (str_int (clock w)) in
  let file_path := dir ++ [SEP] ++ filename in
  let signature_path := file_path ++ py_str ".sig" in
  wire_message filename data = Ok msg ->
  stream_of w conn = Some (msg ++ rest) ->
  plain_name filename = true ->
  makedirs (S (length dir)) dir (fs w) = Ok f1 ->
  free_or_file f1 file_path = true ->
  free_or_file f1 signature_path = true ->
  exists w' : world,
    handle_file_data conn base key w = (Ok tt, w')
    /\ fs w' = <[signature_path := File (b64encode (sign key data))]>
                 (<[file_path := File data]> f1)
    /\ stream_of w' conn = Some rest
    /\ trace w'
       = trace w
         ++ [EvMakedirs dir; EvOpenWrite file_path;
             EvPrint (py_str "Received file: " ++ filename ++ py_str " ("
                      ++ str_int (len data) ++ py_str " bytes) -> " ++ file_path);
             EvPrint (py_str "SHA256: " ++ sha256_hexdigest data);
             EvOpenWrite signature_path;
             EvPrint (py_str "Signature written to: " ++ signature_path)].
Proof.
  intros dir file_path signature_path Hm Hs Hplain Hmk Hfree1 Hfree2.
  destruct (plain_name_inv filename Hplain) as (Hne & Hnul & Hsep & Hrel).
  destruct (wire_message_parts filename data msg Hm) as (record & -> & Hlt & Hparse).
  destruct (framing_of_message record rest Hlt) as [Hu Hr].
  pose proof (len_nonneg record) as Hpos. pose proof (len_nonneg rest) as Hpos'.
  assert (Hjoin : os_path_join dir filename = file_path)
    by (apply os_path_join_relative; exact Hrel).
  destruct (receipt_dir_shape base (clock w)) as (pre & d & Hshape & Hd).
  fold dir in Hshape.
  assert (Hdot : d <> 46).
  { destruct (str_int_last (clock w)) as (pre' & d' & E & Hrange).
    unfold dir, os_path_join in Hshape. rewrite E in Hshape.
    assert (Hd' : d' = d).
    { revert Hshape. destruct (starts_with_sep (pre' ++ [d']));
        [|destruct (bool_decide (base = []) || ends_with_sep base)];
        rewrite ?app_assoc; intros Hshape;
        apply app_inj_tail in Hshape as [_ Hx]; exact Hx. }
    lia. }
  assert (Hdir : has_nul (pre ++ [d]) = false /\ path_isdir f1 (pre ++ [d]) = true).
  { eapply makedirs_makes_directory; [exact Hd | exact Hdot|].
    rewrite <- Hshape. exact Hmk. }
  destruct Hdir as [Hdnul Hdir].
  assert (Efile : file_path = (pre ++ [d]) ++ [SEP] ++ filename)
    by (unfold file_path; rewrite Hshape; reflexivity).
  assert (Esig : signature_path
                 = (pre ++ [d]) ++ [SEP] ++ (filename ++ py_str ".sig"))
    by (unfold signature_path; rewrite Efile, <- !app_assoc; reflexivity).
  assert (Hw1 : writable f1 file_path = true).
  { rewrite Efile. apply writable_in_directory; try assumption.
    rewrite <- Efile. exact Hfree1. }
  assert (Hw2 : writable (<[file_path := File data]> f1) signature_path = true).
  { rewrite Esig. apply writable_in_directory; try assumption.
    - destruct filename; discriminate.
    - rewrite has_nul_app, Hnul. reflexivity.
    - rewrite existsb_app, Hsep. reflexivity.
    - rewrite path_isdir_insert_file; [exact Hdir|].
      rewrite Efile. intros E. apply (f_equal length) in E. rewrite !length_app in E.
      cbn [length] in E. lia.
    - rewrite <- Esig. apply free_or_file_insert. exact Hfree2. }
  destruct (handle_file_data conn base key w) as [r w'] eqn:E.
  destruct (handle_file_data_inv conn base key w w' r _ Hs E)
    as [(_ & _ & Hshort)|(_ & _ & Hs' & _ & _ & _ & _ & Hcase)].
  { exfalso. rewrite Hu in Hshort. rewrite !len_app in Hshort.
    assert (H4 : len (be_digits 4 (len record)) = 4)
      by (unfold len at 1; rewrite be_digits_length; reflexivity).
    rewrite H4 in Hshort. lia. }
  rewrite Hu, Hr, slice_to_app in Hcase. rewrite Hu, Hr, slice_from_app in Hs'.
  rewrite <- (app_nil_r record), Hparse in Hcase.
  cbn zeta in Hcase. fold dir in Hcase. rewrite Hmk, Hjoin in Hcase.
  fold signature_path in Hcase. rewrite Hw1, Hw2 in Hcase.
  destruct Hcase as (-> & Hfs & Ht).
  exists w'. split; [reflexivity|]. split; [exact Hfs|]. split; [exact Hs'|].
  rewrite Ht. reflexivity.
Qed.

Lemma plain_name_is_stored_and_signed_witness :
  let w := world_with_conn 1700000000 [hello_message ++ absolute_name_message] in
  let dir := os_path_join OUTPUT_BASE_DIR (str_int (clock w)) in
  let file_path := dir ++ [SEP] ++ py_str "hello.txt" in
  let signature_path := file_path ++ py_str ".sig" in
  let f1 := <[dir := Dir]> (<[OUTPUT_BASE_DIR := Dir]> prepared_fs) in
  wire_message (py_str "hello.txt") (py_bytes "world") = Ok hello_message
  /\ stream_of w 0 = Some (hello_message ++ absolute_name_message)
  /\ plain_name (py_str "hello.txt") = true
  /\ makedirs (S (length dir)) dir (fs w) = Ok f1
  /\ free_or_file f1 file_path = true
  /\ free_or_file f1 signature_path = true
  /\ exists w' : world,
       handle_file_data (H := sample_libraries) 0 OUTPUT_BASE_DIR (py_bytes "k") w
       = (Ok tt, w')
       /\ fs w' = <[signature_path :=
                      File (b64encode (Libraries := sample_libraries)
                              (sign (Libraries := sample_libraries)
                                 (py_bytes "k") (py_bytes "world")))]>
                    (<[file_path := File (py_bytes "world")]> f1)
       /\ stream_of w' 0 = Some absolute_name_message
       /\ trace w'
          = trace w
            ++ [EvMakedirs dir; EvOpenWrite file_path;
                EvPrint (py_str "Received file: " ++ py_str "hello.txt" ++ py_str " ("
                         ++ str_int (len (py_bytes "world")) ++ py_str " bytes) -> "
                         ++ file_path);
                EvPrint (py_str "SHA256: "
                         ++ sha256_hexdigest (Libraries := sample_libraries)
                              (py_bytes "world"));
                EvOpenWrite signature_path;
                EvPrint (py_str "Signature written to: " ++ signature_path)].
Proof.
  cbn zeta.
  set (w := world_with_conn 1700000000 [hello_message ++ absolute_name_message]).
  set (dir := os_path_join OUTPUT_BASE_DIR (str_int (clock w))).
  set (f1 := <[dir := Dir]> (<[OUTPUT_BASE_DIR := Dir]> prepared_fs)).
  assert (Hm : wire_message (py_str "hello.txt") (py_bytes "world") = Ok hello_message)
    by reflexivity.
  assert (Hs : stream_of w 0 = Some (hello_message ++ absolute_name_message))
    by reflexivity.
  assert (Hp : plain_name (py_str "hello.txt") = true) by reflexivity.
  assert (Hmk : makedirs (S (length dir)) dir (fs w) = Ok f1)
    by (apply (bool_decide_unpack _); vm_compute; exact I).
  assert (Hf1 : free_or_file f1 (dir ++ [SEP] ++ py_str "hello.txt") = true)
    by (vm_compute; reflexivity).
  assert (Hf2 : free_or_file f1 ((dir ++ [SEP] ++ py_str "hello.txt") ++ py_str ".sig")
                = true) by (vm_compute; reflexivity).
  split; [exact Hm|]. split; [exact Hs|]. split; [exact Hp|]. split; [exact Hmk|].
  split; [exact Hf1|]. split; [exact Hf2|].
  exact (plain_name_is_stored_and_signed (H := sample_libraries) 0 OUTPUT_BASE_DIR
           (py_bytes "k") w (py_str "hello.txt") (py_bytes "world") hello_message
           absolute_name_message f1 Hm Hs Hp Hmk Hf1 Hf2).
Defined.

(** ** The receipt directories *)

(** [str_digits] with fuel enough writes the decimal digits of [n]: read
    back, most significant first, they give [n]. *)
Lemma str_digits_spec (fuel : nat) (n : Z) (acc : text) :
  0 <= n < 10 ^ Z.of_nat (S fuel) ->
  exists ds : text,
    str_digits fuel n acc = ds ++ acc
    /\ ds <> []
    /\ Forall (fun c => 48 <= c <= 57) ds
    /\ fold_left (fun a c => a * 10 + (c - 48)) ds 0 = n.
Proof.
  revert n acc. induction fuel as [|fuel IH]; intros n acc Hn; cbn [str_digits].
  - change (10 ^ Z.of_nat 1) with 10 in Hn. exists [48 + n mod 10].
    split; [reflexivity|]. split; [discriminate|]. split.
    + repeat constructor; lia.
    + cbn [fold_left]. lia.
  - destruct (Z.ltb_spec n 10).
    + exists [48 + n mod 10].
      split; [reflexivity|]. split; [discriminate|]. split.
      * repeat constructor; lia.
      * cbn [fold_left]. lia.
    + rewrite Nat2Z.inj_succ, Z.pow_succ_r in Hn by lia.
      destruct (IH (n / 10) ((48 + n mod 10) :: acc)) as (ds & E & Hne & Hall & Hval);
        [lia|].
      exists (ds ++ [48 + n mod 10]). rewrite E, <- app_assoc.
      split; [reflexivity|]. split; [destruct ds; discriminate|]. split.
      * apply Forall_app. split; [exact Hall|]. repeat constructor; lia.
      * rewrite fold_left_app, Hval. cbn [fold_left]. lia.
Qed.

Lemma str_int_spec (z : Z) :
  exists ds : text,
    str_int z = (if z <? 0 then [45] else []) ++ ds
    /\ ds <> []
    /\ Forall (fun c => 48 <= c <= 57) ds
    /\ fold_left (fun a c => a * 10 + (c - 48)) ds 0 = Z.abs z.
Proof.
  assert (Hfuel : forall n, 0 <= n -> 0 <= n < 10 ^ Z.of_nat (S (Z.to_nat (Z.log2 n)))).
  { intros n Hn. split; [exact Hn|].
    pose proof (Z.log2_nonneg n).
    rewrite Nat2Z.inj_succ, Z2Nat.id by assumption.
    destruct (Z.eq_dec n 0) as [->|Hne].
    - change (Z.log2 0) with 0. reflexivity.
    - destruct (Z.log2_spec n) as [_ Hlt]; [lia|].
      assert (2 ^ Z.succ (Z.log2 n) <= 10 ^ Z.succ (Z.log2 n))
        by (apply Z.pow_le_mono_l; lia).
      lia. }
  unfold str_int. destruct (Z.ltb_spec z 0).
  - destruct (str_digits_spec (Z.to_nat (Z.log2 (- z))) (- z) [])
      as (ds & E & Hne & Hall & Hval); [apply Hfuel; lia|].
    exists ds. rewrite E, app_nil_r. repeat split; auto. lia.
  - destruct (str_digits_spec (Z.to_nat (Z.log2 z)) z [])
      as (ds & E & Hne & Hall & Hval); [apply Hfuel; lia|].
    exists ds. rewrite E, app_nil_r. repeat split; auto. lia.
Qed.

Lemma str_int_inj (z1 z2 : Z) : str_int z1 = str_int z2 -> z1 = z2.
Proof.
  destruct (str_int_spec z1) as (ds1 & -> & Hne1 & Hall1 & Hv1).
  destruct (str_int_spec z2) as (ds2 & -> & Hne2 & Hall2 & Hv2).
  destruct (Z.ltb_spec z1 0); destruct (Z.ltb_spec z2 0); cbn [app]; intros E.
  - injection E as <-. lia.
  - destruct ds2 as [|c ds2]; [contradiction|]. injection E as <- _.
    apply Forall_cons in Hall2 as [? _]. lia.
  - destruct ds1 as [|c ds1]; [contradiction|]. injection E as -> _.
    apply Forall_cons in Hall1 as [? _]. lia.
  - subst ds2. lia.
Qed.

Lemma str_int_relative (z : Z) : starts_with_sep (str_int z) = false.
Proof.
  destruct (str_int_spec z) as (ds & -> & Hne & Hall & _).
  destruct (z <? 0); [reflexivity|]. cbn [app].
  destruct ds as [|c ds]; [contradiction|].
  apply Forall_cons in Hall as [? _]. cbn [starts_with_sep]. unfold SEP.
  destruct (Z.eqb_spec c 47); [lia | reflexivity].
Qed.

Lemma joined_names_inj (dir1 dir2 name1 name2 : text) :
  existsb (Z.eqb SEP) name1 = false -> existsb (Z.eqb SEP) name2 = false ->
  dir1 ++ [SEP] ++ name1 = dir2 ++ [SEP] ++ name2 ->
  dir1 = dir2 /\ name1 = name2.
Proof.
  intros H1 H2 E. apply (f_equal (@rev Z)) in E.
  rewrite !rev_app_distr in E. cbn [rev app] in E. rewrite <- !app_assoc in E.
  cbn [app] in E.
  pose proof (f_equal take_name E) as Et. pose proof (f_equal drop_name E) as Ed.
  rewrite !take_name_app in Et by (rewrite existsb_rev; assumption).
  rewrite !drop_name_app in Ed by (rewrite existsb_rev; assumption).
  injection Ed as Ed. split.
  - apply (f_equal (@rev Z)) in Ed. rewrite !rev_involutive in Ed. exact Ed.
  - apply (f_equal (@rev Z)) in Et. rewrite !rev_involutive in Et. exact Et.
Qed.

(** X7. Receipts are kept apart by the second and by the name: under one
    base directory, the files of two plain names received at the clock
    values [t1] and [t2] are the same path exactly when the second and the
    name are the same. So a later message can be written over an earlier
    receipt only with the same name within the same second. *)
Theorem receipts_share_a_file_only_in_the_same_second (base : text) (t1 t2 : Z)
    (name1 name2 : text) :
  plain_name name1 = true ->
  plain_name name2 = true ->
  os_path_join (os_path_join base (str_int t1)) name1
  = os_path_join (os_path_join base (str_int t2)) name2
  <-> t1 = t2 /\ name1 = name2.
Proof.
  intros Hp1 Hp2. split; [|intros [-> ->]; reflexivity].
  destruct (plain_name_inv name1 Hp1) as (_ & _ & Hs1 & Hr1).
  destruct (plain_name_inv name2 Hp2) as (_ & _ & Hs2 & Hr2).
  rewrite (os_path_join_relative base t1 name1 Hr1).
  rewrite (os_path_join_relative base t2 name2 Hr2).
  intros E. apply joined_names_inj in E as [Ed En]; [|assumption..].
  split; [|exact En]. apply str_int_inj.
  unfold os_path_join in Ed. rewrite !str_int_relative in Ed.
  destruct (bool_decide (base = []) || ends_with_sep base).
  - apply app_inv_head in Ed. exact Ed.
  - apply app_inv_head in Ed. apply app_inv_head in Ed. exact Ed.
Qed.

Lemma receipts_share_a_file_only_in_the_same_second_witness :
  plain_name (py_str "a.txt") = true
  /\ plain_name (py_str "b.txt") = true
  /\ (os_path_join (os_path_join OUTPUT_BASE_DIR (str_int 1700000000)) (py_str "a.txt")
      = os_path_join (os_path_join OUTPUT_BASE_DIR (str_int 1700000001)) (py_str "b.txt")
      <-> 1700000000 = 1700000001 /\ py_str "a.txt" = py_str "b.txt").
Proof.
  assert (H1 : plain_name (py_str "a.txt") = true) by reflexivity.
  assert (H2 : plain_name (py_str "b.txt") = true) by reflexivity.
  split; [exact H1|]. split; [exact H2|].
  exact (receipts_share_a_file_only_in_the_same_second OUTPUT_BASE_DIR 1700000000
           1700000001 (py_str "a.txt") (py_str "b.txt") H1 H2).
Defined.

(** * Properties of the producer (service.py) *)

Section ProducerRuns.

Import Producer.

Context `{Libraries} `{Paths}.

Variable host : list event -> forall c : call, resp c.

(** ** Adding to the history *)

Section Appends.

Variable Q : list event -> Prop.
Hypothesis Q_nil : Q [].
Hypothesis Q_app : forall a b, Q a -> Q b -> Q (a ++ b).

Lemma appends_ret {A} (a : A) : appends Q (ret a).
Proof.
  intros s s' r [= _ <-]. exists []. rewrite app_nil_r. auto.
Qed.

Lemma appends_lift {A} (x : result A) : appends Q (lift x).
Proof.
  intros s s' r [= _ <-]. exists []. rewrite app_nil_r. auto.
Qed.

Lemma appends_bind {A B} (m : P A) (k : A -> P B) :
  appends Q m -> (forall a, appends Q (k a)) -> appends Q (bind m k).
Proof.
  intros Hm Hk s s' r. unfold bind.
  destruct (m s) as [[a|e] s1] eqn:E.
  - intros Ek. destruct (Hm _ _ _ E) as (e1 & H1 & Q1).
    destruct (Hk a _ _ _ Ek) as (e2 & H2 & Q2).
    exists (e1 ++ e2). rewrite H2, H1, <- app_assoc. auto.
  - intros [= <- <-]. eapply Hm. exact E.
Qed.

Lemma appends_try {A} (body handler : P A) :
  appends Q body -> appends Q handler ->
  appends Q (try_except_Exception body handler).
Proof.
  intros Hb Hh s s' r. unfold try_except_Exception.
  destruct (body s) as [[a|e] s1] eqn:E.
  - intros [= <- <-]. eapply Hb. exact E.
  - destruct (Hb _ _ _ E) as (e1 & H1 & Q1).
    destruct (is_Exception e).
    + intros Eh. destruct (Hh _ _ _ Eh) as (e2 & H2 & Q2).
      exists (e1 ++ e2). rewrite H2, H1, <- app_assoc. auto.
    + intros [= <- <-]. eauto.
Qed.

Lemma appends_state {A} (m : P A) :
  (forall s, history (snd (m s)) = history s) -> appends Q m.
Proof.
  intros Hm s s' r E. exists []. rewrite app_nil_r. split; [|exact Q_nil].
  specialize (Hm s). rewrite E in Hm. exact Hm.
Qed.

End Appends.

(** ** What goes to the port *)

Lemma sends_weaken (prev : option event) (evs : list event) :
  sends_what_it_read None evs -> sends_what_it_read prev evs.
Proof.
  destruct evs as [|ev rest]; [auto|]. cbn [sends_what_it_read].
  destruct (written ev); [intros [[] _] | auto].
Qed.

Lemma sends_app (prev : option event) (a b : list event) :
  sends_what_it_read prev a -> sends_what_it_read None b ->
  sends_what_it_read prev (a ++ b).
Proof.
  revert prev. induction a as [|ev a IH]; intros prev Ha Hb; cbn [app].
  - apply sends_weaken. exact Hb.
  - cbn [sends_what_it_read] in *. destruct Ha as [H1 H2]. auto.
Qed.

Lemma sends_one (ev : event) :
  written ev = None -> sends_what_it_read None [ev].
Proof. intros Hw. cbn [sends_what_it_read]. rewrite Hw. auto. Qed.

(** Settle [appends (sends_what_it_read None)] for a call that is no
    [write]. *)
Ltac quiet_call :=
  intros ? ? ?; intros [= _ <-]; eexists [_]; split;
  [reflexivity | apply sends_one; reflexivity].

Lemma sends_log (line : text) : appends (sends_what_it_read None) (log host line).
Proof. unfold log. quiet_call. Qed.

Lemma sends_sleep (n : Z) : appends (sends_what_it_read None) (sleep host n).
Proof. unfold sleep. quiet_call. Qed.

Lemma sends_path_exists (p : text) :
  appends (sends_what_it_read None) (path_exists host p).
Proof. unfold path_exists. quiet_call. Qed.

Lemma sends_makedirs (p : text) : appends (sends_what_it_read None) (makedirs host p).
Proof. unfold makedirs. quiet_call. Qed.

Lemma sends_glob (p : text) : appends (sends_what_it_read None) (glob host p).
Proof. unfold glob. quiet_call. Qed.

Lemma sends_isfile (p : text) : appends (sends_what_it_read None) (isfile host p).
Proof. unfold isfile. quiet_call. Qed.

Lemma sends_read_binary (p : text) :
  appends (sends_what_it_read None) (read_binary host p).
Proof. unfold read_binary. quiet_call. Qed.

Lemma sends_read_lines (p : text) :
  appends (sends_what_it_read None) (read_lines host p).
Proof. unfold read_lines. quiet_call. Qed.

Lemma sends_write_lines (p : text) (lines : list text) :
  appends (sends_what_it_read None) (write_lines host p lines).
Proof. unfold write_lines. quiet_call. Qed.

Lemma sends_rename (a b : text) : appends (sends_what_it_read None) (rename host a b).
Proof. unfold rename. quiet_call. Qed.

Lemma sends_port_flush : appends (sends_what_it_read None) (port_flush host).
Proof. unfold port_flush. quiet_call. Qed.

Lemma sends_port_close : appends (sends_what_it_read None) (port_close host).
Proof. unfold port_close. quiet_call. Qed.

Lemma sends_open_port (p : text) : appends (sends_what_it_read None) (open_port host p).
Proof. unfold open_port. quiet_call. Qed.

Ltac sends_bind :=
  apply appends_bind; [intros; apply sends_app; assumption | | intros ?].

Lemma sends_save_processed_files (processed : gset text) :
  appends (sends_what_it_read None) (save_processed_files host processed).
Proof.
  unfold save_processed_files.
  apply appends_try; [intros; apply sends_app; assumption | |].
  - apply sends_write_lines.
  - apply sends_log.
Qed.

Lemma sends_load_processed_files :
  appends (sends_what_it_read None) (load_processed_files host).
Proof.
  unfold load_processed_files.
  apply appends_try; [intros; apply sends_app; assumption | |].
  - sends_bind; [apply sends_path_exists|]. destruct a.
    + sends_bind; [apply sends_read_lines | apply appends_ret; exact I].
    + apply appends_ret. exact I.
  - sends_bind; [apply sends_log | apply appends_ret; exact I].
Qed.

Lemma sends_process_file (file_path file_hash : text) :
  appends (sends_what_it_read None) (process_file host file_path file_hash).
Proof.
  unfold process_file.
  apply appends_try; [intros; apply sends_app; assumption | | apply sends_log].
  intros s s' r. unfold bind at 1, read_binary.
  destruct (host (history s) (ReadBinary file_path)) as [content|e] eqn:Er.
  2: { intros [= _ <-]. eexists [_]. split; [reflexivity|].
       apply sends_one. reflexivity. }
  unfold bind at 1, lift.
  destruct (wire_message (basename file_path) content) as [message|e] eqn:Em.
  2: { intros [= _ <-]. eexists [_]. split; [reflexivity|].
       apply sends_one. reflexivity. }
  unfold bind at 1, port_write. cbn [history record].
  match goal with
  | |- context [host ?h (PortWrite message)] =>
      destruct (host h (PortWrite message)) as [[]|e] eqn:Ew
  end.
  2: { intros [= _ <-]. eexists [_; _]. cbn [history record].
       rewrite <- app_assoc. split; [reflexivity|].
       cbn [sends_what_it_read written ev_call]. auto. }
  intros Erest.
  assert (Hrest : appends (sends_what_it_read None)
            (port_flush host ;;
             log host (py_str "Sent file: " ++ basename file_path ++ py_str " ("
                       ++ str_int (len content) ++ py_str " bytes)" ++ [10]) ;;
             rename host file_path (join PROCESSED_FOLDER (basename file_path)) ;;
             add_processed file_hash ;;
             do* processed := get_processed in
             save_processed_files host processed)).
  { sends_bind; [apply sends_port_flush|].
    sends_bind; [apply sends_log|].
    sends_bind; [apply sends_rename|].
    sends_bind; [apply appends_state; [exact I | reflexivity]|].
    sends_bind; [apply appends_state; [exact I | reflexivity]|].
    apply sends_save_processed_files. }
  destruct (Hrest _ _ _ Erest) as (evs & Hh & Hq). cbn [history record] in Hh.
  eexists (_ :: _ :: evs). split.
  - rewrite Hh, <- !app_assoc. reflexivity.
  - cbn [sends_what_it_read written ev_call]. repeat split; auto.
    apply sends_weaken. exact Hq.
Qed.

Lemma sends_process_new_files (new_files : list (text * text)) :
  appends (sends_what_it_read None) (process_new_files host new_files).
Proof.
  induction new_files as [|[p h] rest IH]; cbn [process_new_files].
  - apply appends_ret. exact I.
  - sends_bind; [apply sends_process_file | exact IH].
Qed.

Lemma sends_select_new_files (files : list text) (new_files : list (text * text)) :
  appends (sends_what_it_read None) (select_new_files host files new_files).
Proof.
  revert new_files. induction files as [|p rest IH]; intros new_files;
    cbn [select_new_files].
  - apply appends_ret. exact I.
  - sends_bind; [apply sends_isfile|]. destruct a; [|apply IH].
    sends_bind; [apply sends_read_binary|].
    sends_bind; [apply appends_state; [exact I | reflexivity]|].
    destruct (bool_decide _); apply IH.
Qed.

Lemma sends_iteration : appends (sends_what_it_read None) (iteration host).
Proof.
  unfold iteration.
  apply appends_try; [intros; apply sends_app; assumption | |].
  - sends_bind; [apply sends_glob|].
    sends_bind; [apply sends_select_new_files|].
    sends_bind; [|apply sends_sleep].
    destruct a0; [apply appends_ret; exact I|].
    sends_bind; [apply sends_sleep | apply sends_process_new_files].
  - sends_bind; [apply sends_log | apply sends_sleep].
Qed.

Lemma sends_main_loop (rounds : nat) :
  appends (sends_what_it_read None) (main_loop host rounds).
Proof.
  induction rounds as [|rounds IH]; cbn [main_loop].
  - apply appends_ret. exact I.
  - sends_bind; [apply sends_iteration | exact IH].
Qed.

Lemma sends_main (rounds : nat) :
  appends (sends_what_it_read None) (main host rounds).
Proof.
  intros s s' r. unfold main.
  destruct (open_port host SERIAL_PORT s) as [[[]|e] s1] eqn:Eo;
    destruct (sends_open_port _ _ _ _ Eo) as (e1 & H1 & Q1).
  - intros Erest.
    assert (Hrest : appends (sends_what_it_read None)
              (do* loaded := load_processed_files host in
               (fun s2 => (Ok tt, mk_pstate loaded (history s2))) ;;
               main_loop host rounds ;;
               port_close host)).
    { sends_bind; [apply sends_load_processed_files|].
      sends_bind; [apply appends_state; [exact I | reflexivity]|].
      sends_bind; [apply sends_main_loop | apply sends_port_close]. }
    destruct (Hrest _ _ _ Erest) as (e2 & H2 & Q2).
    exists (e1 ++ e2). rewrite H2, H1, <- app_assoc. split; [reflexivity|].
    apply sends_app; assumption.
  - destruct (is_Exception e).
    + intros El. destruct (sends_log _ _ _ _ El) as (e2 & H2 & Q2).
      exists (e1 ++ e2). rewrite H2, H1, <- app_assoc. split; [reflexivity|].
      apply sends_app; assumption.
    + intros [= <- <-]. eauto.
Qed.

Lemma sends_SvcDoRun (rounds : nat) :
  appends (sends_what_it_read None) (SvcDoRun host rounds).
Proof.
  unfold SvcDoRun.
  sends_bind; [apply sends_path_exists|].
  sends_bind; [|apply sends_main].
  destruct a; [apply appends_ret; exact I | apply sends_makedirs].
Qed.


Lemma sends_at (prev : option event) (evs : list event) (i : nat) (message : bytes)
    (r : result unit) :
  sends_what_it_read prev evs ->
  evs !! i = Some (Ev (PortWrite message) r) ->
  exists (path : text) (content : bytes),
    wire_message (basename path) content = Ok message
    /\ match i with
       | O => prev = Some (Ev (ReadBinary path) (Ok content))
       | S j => evs !! j = Some (Ev (ReadBinary path) (Ok content))
       end.
Proof.
  revert prev i. induction evs as [|ev rest IH]; intros prev i Hs Hi;
    [discriminate|].
  cbn [sends_what_it_read] in Hs. destruct Hs as [Hw Hrest].
  destruct i as [|i].
  - injection Hi as ->. cbn [written ev_call] in Hw.
    destruct prev as [[c a]|]; [|contradiction].
    destruct c; try contradiction. destruct a as [content|]; [|contradiction].
    eauto.
  - cbn [lookup list_lookup] in Hi.
    destruct (IH (Some ev) i Hrest Hi) as (path & content & Hm & Hprev).
    exists path, content. split; [exact Hm|].
    destruct i as [|j]; [|exact Hprev]. injection Hprev as ->. reflexivity.
Qed.

(** X16. Whatever the host answers, what the service writes to the port
    is the message of a file it has just read: every [write] in a run of
    [SvcDoRun] comes right after a read that answered with a content, its
    argument is the four-byte length and the record of the base name of
    that file and of that content, and the daemon's decoder, applied to
    the record, gives that name and that content back. *)
Theorem port_gets_the_files_read (rounds : nat) (i : nat) (message : bytes)
    (r : result unit) :
  let h := history (snd (SvcDoRun host rounds (mk_pstate ∅ []))) in
  h !! i = Some (Ev (PortWrite message) r) ->
  exists (j : nat) (path : text) (content : bytes),
    i = S j
    /\ h !! j = Some (Ev (ReadBinary path) (Ok content))
    /\ wire_message (basename path) content = Ok message
    /\ parse_file_container (slice_from 4 message) = Ok (basename path, content).
Proof.
  intros h Hi.
  destruct (SvcDoRun host rounds (mk_pstate ∅ [])) as [res s'] eqn:E.
  destruct (sends_SvcDoRun rounds _ _ _ E) as (evs & Hh & Hq).
  cbn [history app snd] in Hh, h. subst h. rewrite Hh in Hi |- *.
  destruct (sends_at None evs i message r Hq Hi) as (path & content & Hm & Hprev).
  destruct i as [|j]; [discriminate|].
  exists j, path, content. repeat split; try assumption.
  destruct (wire_message_parts _ _ _ Hm) as (record & -> & _ & Hparse).
  assert (H4 : 4 = len (be_digits 4 (len record)))
    by (unfold len at 1; rewrite be_digits_length; reflexivity).
  rewrite H4 at 1. rewrite slice_from_app.
  rewrite <- (app_nil_r record). apply Hparse.
Qed.


(** ** What is recorded as processed *)

Lemma grows_refl (s : pstate) : grows_by_moves s s.
Proof. exists []. rewrite app_nil_r. auto. Qed.

Lemma grows_trans (s1 s2 s3 : pstate) :
  grows_by_moves s1 s2 -> grows_by_moves s2 s3 -> grows_by_moves s1 s3.
Proof.
  intros (e1 & H1 & G1) (e2 & H2 & G2). exists (e1 ++ e2).
  rewrite H2, H1, <- app_assoc. split; [reflexivity|]. intros h Hh.
  destruct (G2 h Hh) as [Hh2|(p & c & -> & Hr & Hm)].
  - destruct (G1 h Hh2) as [Hh1|(p & c & -> & Hr & Hm)]; [auto|].
    right. exists p, c. rewrite !existsb_app, Hr, Hm. auto.
  - right. exists p, c. rewrite !existsb_app, Hr, Hm, !orb_true_r. auto.
Qed.

(** A step that leaves [processed_files] alone. *)
Lemma grows_quiet (s s' : pstate) (evs : list event) :
  processed_files s' = processed_files s -> history s' = history s ++ evs ->
  grows_by_moves s s'.
Proof. intros Hp Hh. exists evs. rewrite Hp. auto. Qed.

Lemma quiet_save_processed_files (processed : gset text) (s s' : pstate)
    (r : result unit) :
  save_processed_files host processed s = (r, s') ->
  processed_files s' = processed_files s
  /\ exists evs, history s' = history s ++ evs.
Proof.
  unfold save_processed_files, try_except_Exception, write_lines, log.
  destruct (host (history s) (WriteLines _ _)) as [[]|e].
  - intros [= _ <-]. split; [reflexivity|]. eexists [_]. reflexivity.
  - destruct (is_Exception e); intros [= _ <-]; cbn [processed_files history record];
      (split; [reflexivity|]).
    + eexists [_; _]. rewrite <- app_assoc. reflexivity.
    + eexists [_]. reflexivity.
Qed.

(** One new file: its digest is added only when the host has moved the
    file. *)
Lemma process_file_record (file_path file_hash : text) (s s' : pstate)
    (r : result unit) :
  process_file host file_path file_hash s = (r, s') ->
  exists evs : list event,
    history s' = history s ++ evs
    /\ (processed_files s' = processed_files s
        \/ (processed_files s' = {[file_hash]} ∪ processed_files s
            /\ existsb (moved file_path) evs = true)).
Proof.
  unfold process_file, try_except_Exception.
  set (handler := log host _).
  assert (Hhandler : forall s1 r1 s2 evs1,
             history s1 = history s ++ evs1 ->
             processed_files s1 = processed_files s ->
             handler s1 = (r1, s2) ->
             exists evs, history s2 = history s ++ evs
                         /\ (processed_files s2 = processed_files s
                             \/ (processed_files s2 = {[file_hash]} ∪ processed_files s
                                 /\ existsb (moved file_path) evs = true))).
  { intros s1 r1 s2 evs1 Hh Hp. unfold handler, log. intros [= _ <-].
    cbn [history processed_files record]. eexists. rewrite Hh, <- app_assoc.
    split; [reflexivity | left; exact Hp]. }
  assert (Hfail : forall e s1 evs1,
             history s1 = history s ++ evs1 ->
             processed_files s1 = processed_files s ->
             (if is_Exception e then handler s1 else (Raise e, s1)) = (r, s') ->
             exists evs, history s' = history s ++ evs
                         /\ (processed_files s' = processed_files s
                             \/ (processed_files s' = {[file_hash]} ∪ processed_files s
                                 /\ existsb (moved file_path) evs = true))).
  { intros e s1 evs1 Hh Hp. destruct (is_Exception e).
    - apply Hhandler with (evs1 := evs1); assumption.
    - intros [= _ <-]. eauto. }
  unfold bind at 1, read_binary.
  destruct (host (history s) (ReadBinary file_path)) as [content|e].
  2: { eapply Hfail; [cbn [history record]; reflexivity | reflexivity]. }
  unfold bind at 1, lift.
  destruct (wire_message (basename file_path) content) as [message|e].
  2: { eapply Hfail; [cbn [history record]; reflexivity | reflexivity]. }
  unfold bind at 1, port_write. cbn [history record].
  match goal with
  | |- context [host ?h (PortWrite message)] =>
      destruct (host h (PortWrite message)) as [[]|e]
  end.
  2: { eapply Hfail; [cbn [history record]; rewrite <- !app_assoc; reflexivity
                     | reflexivity]. }
  unfold bind at 1, port_flush. cbn [history record].
  match goal with
  | |- context [host ?h PortFlush] => destruct (host h PortFlush) as [[]|e]
  end.
  2: { eapply Hfail; [cbn [history record]; rewrite <- !app_assoc; reflexivity
                     | reflexivity]. }
  unfold bind at 1, log at 1. cbn [history record].
  match goal with
  | |- context [host ?h (LogAppend ?l)] =>
      destruct (host h (LogAppend l)) as [[]|e]
  end.
  2: { eapply Hfail; [cbn [history record]; rewrite <- !app_assoc; reflexivity
                     | reflexivity]. }
  unfold bind at 1, rename. cbn [history record].
  match goal with
  | |- context [host ?h (Rename ?a ?b)] =>
      destruct (host h (Rename a b)) as [[]|e] eqn:Emove
  end.
  2: { eapply Hfail; [cbn [history record]; rewrite <- !app_assoc; reflexivity
                     | reflexivity]. }
  unfold bind at 1, add_processed. cbn [history record processed_files].
  unfold bind at 1, get_processed. cbn [history processed_files].
  match goal with
  | |- context [save_processed_files host ?p ?v] =>
      destruct (save_processed_files host p v) as [r2 s2] eqn:Es
  end.
  apply quiet_save_processed_files in Es as (Hp2 & evs2 & Hh2).
  cbn [history processed_files] in Hp2, Hh2.
  assert (Hdone : exists evs, history s2 = history s ++ evs
                    /\ existsb (moved file_path) evs = true).
  { eexists (_ :: _ :: _ :: _ :: Ev (Rename _ _) (Ok tt) :: evs2).
    rewrite Hh2, <- !app_assoc. split; [reflexivity|].
    cbn [existsb moved]. rewrite bool_decide_eq_true_2 by reflexivity.
    rewrite !orb_true_r. reflexivity. }
  destruct Hdone as (evs & Hh & Hm).
  destruct r2 as [[]|e].
  - intros [= _ <-]. exists evs. auto.
  - destruct (is_Exception e).
    + unfold handler, log. intros [= _ <-]. cbn [history processed_files record].
      eexists (evs ++ [_]).
      rewrite Hh, <- app_assoc. split; [reflexivity|]. right.
      rewrite existsb_app, Hm. auto.
    + intros [= _ <-]. exists evs. auto.
Qed.

Lemma process_new_files_record (new_files : list (text * text)) (s s' : pstate)
    (r : result unit) :
  process_new_files host new_files s = (r, s') ->
  exists evs : list event,
    history s' = history s ++ evs
    /\ forall h : text,
         h ∈ processed_files s' ->
         h ∈ processed_files s
         \/ exists path : text,
              In (path, h) new_files /\ existsb (moved path) evs = true.
Proof.
  revert s. induction new_files as [|[p fh] rest IH]; intros s;
    cbn [process_new_files].
  - intros [= _ <-]. exists []. rewrite app_nil_r. auto.
  - unfold bind. destruct (process_file host p fh s) as [r1 s1] eqn:E1.
    destruct (process_file_record p fh s s1 r1 E1) as (e1 & H1 & Hcase).
    assert (Hfirst : forall h, h ∈ processed_files s1 ->
               h ∈ processed_files s
               \/ (h = fh /\ existsb (moved p) e1 = true)).
    { intros h Hh. destruct Hcase as [Hp|[Hp Hm]]; rewrite Hp in Hh; [auto|].
      apply elem_of_union in Hh as [Hh|Hh]; [|auto].
      apply elem_of_singleton in Hh. auto. }
    destruct r1 as [[]|e].
    + intros E2. destruct (IH s1 E2) as (e2 & H2 & Hrest).
      exists (e1 ++ e2). rewrite H2, H1, <- app_assoc. split; [reflexivity|].
      intros h Hh. destruct (Hrest h Hh) as [Hh1|(path & Hin & Hm)].
      * destruct (Hfirst h Hh1) as [?|[-> Hm]]; [auto|].
        right. exists p. rewrite existsb_app, Hm. split; [left; reflexivity | auto].
      * right. exists path. rewrite existsb_app, Hm, orb_true_r.
        split; [right; exact Hin | reflexivity].
    + intros [= _ <-]. exists e1. split; [exact H1|].
      intros h Hh. destruct (Hfirst h Hh) as [?|[-> Hm]]; [auto|].
      right. exists p. split; [left; reflexivity | exact Hm].
Qed.

Lemma select_new_files_record (files : list text) (acc : list (text * text))
    (s s' : pstate) (r : result (list (text * text))) :
  select_new_files host files acc s = (r, s') ->
  exists evs : list event,
    history s' = history s ++ evs
    /\ processed_files s' = processed_files s
    /\ forall new_files, r = Ok new_files ->
         forall path h,
           In (path, h) new_files ->
           In (path, h) acc
           \/ exists content : bytes,
                h = sha256_hexdigest content
                /\ existsb (read_as path content) evs = true.
Proof.
  revert acc s. induction files as [|p rest IH]; intros acc s; cbn [select_new_files].
  - intros [= <- <-]. exists []. rewrite app_nil_r. repeat split.
    intros new_files [= <-]. auto.
  - unfold bind at 1, isfile.
    destruct (host (history s) (IsFile p)) eqn:Ef.
    + unfold bind at 1, read_binary. cbn [history record].
      match goal with
      | |- context [host ?h (ReadBinary p)] =>
          destruct (host h (ReadBinary p)) as [content|e] eqn:Er
      end.
      2: { intros [= <- <-]. cbn [history processed_files record].
           eexists [_; _]. rewrite <- app_assoc. repeat split. discriminate. }
      unfold bind at 1, get_processed. cbn [history processed_files record].
      destruct (bool_decide _); intros E;
        destruct (IH _ _ E) as (evs & Hh & Hp & Hsel);
        cbn [history processed_files record] in Hh, Hp;
        (eexists (_ :: _ :: evs); rewrite Hh, <- !app_assoc;
         split; [reflexivity|]; split; [exact Hp|]);
        intros new_files Hr path h Hin;
        destruct (Hsel new_files Hr path h Hin) as [Hacc|(c & -> & Hread)].
      * auto.
      * right. exists c. cbn [existsb]. rewrite Hread, !orb_true_r. auto.
      * apply in_app_or in Hacc as [Hacc|[[= <- <-]|[]]]; [auto|].
        right. exists content. cbn [existsb read_as].
        rewrite !bool_decide_eq_true_2 by reflexivity. rewrite orb_true_r. auto.
      * right. exists c. cbn [existsb]. rewrite Hread, !orb_true_r. auto.
    + intros E. destruct (IH _ _ E) as (evs & Hh & Hp & Hsel).
      cbn [history processed_files record] in Hh, Hp.
      eexists (_ :: evs). rewrite Hh, <- app_assoc.
      split; [reflexivity|]. split; [exact Hp|].
      intros new_files Hr path h Hin.
      destruct (Hsel new_files Hr path h Hin) as [Hacc|(c & -> & Hread)]; [auto|].
      right. exists c. cbn [existsb]. rewrite Hread, orb_true_r. auto.
Qed.

Lemma iteration_record (s s' : pstate) (r : result unit) :
  iteration host s = (r, s') -> grows_by_moves s s'.
Proof.
  unfold iteration, try_except_Exception.
  match goal with
  | |- context [match ?body s with _ => _ end] => set (b := body)
  end.
  assert (Hbody : forall r1 s1, b s = (r1, s1) -> grows_by_moves s s1).
  { intros r1 s1. unfold b, bind at 1, glob.
    unfold bind at 1. cbn [history record].
    match goal with
    | |- context [select_new_files host ?fl [] ?v] =>
        destruct (select_new_files host fl [] v) as [rs s2] eqn:Es
    end.
    destruct (select_new_files_record _ _ _ _ _ Es) as (es & Hhs & Hps & Hsel).
    cbn [history processed_files record] in Hhs, Hps.
    destruct rs as [new_files|e].
    2: { intros [= _ <-]. eapply grows_quiet; [exact Hps|].
         rewrite Hhs, <- app_assoc. reflexivity. }
    specialize (Hsel new_files eq_refl).
    unfold bind at 1.
    assert (Hproc : forall rp sp,
               match new_files with
               | [] => ret tt
               | _ :: _ => sleep host 5;; process_new_files host new_files
               end s2 = (rp, sp) ->
               exists ep, history sp = history s2 ++ ep
                 /\ forall h, h ∈ processed_files sp ->
                      h ∈ processed_files s2
                      \/ exists path, In (path, h) new_files
                                      /\ existsb (moved path) ep = true).
    { intros rp sp. destruct new_files as [|nf rest].
      - intros [= _ <-]. exists []. rewrite app_nil_r. auto.
      - unfold bind at 1, sleep. intros Ep.
        destruct (process_new_files_record _ _ _ _ Ep) as (ep & Hhp & Hrec).
        cbn [history processed_files record] in Hhp, Hrec.
        eexists (_ :: ep). rewrite Hhp, <- app_assoc. split; [reflexivity|].
        intros h Hh. destruct (Hrec h Hh) as [?|(path & Hin & Hm)]; [auto|].
        right. exists path. cbn [existsb]. rewrite Hm, orb_true_r. auto. }
    match goal with
    | |- context [match ?f s2 with _ => _ end] => destruct (f s2) as [rp sp] eqn:Ep
    end.
    destruct (Hproc rp sp eq_refl) as (ep & Hhp & Hrec).
    assert (Hgrow : forall tail, grows_by_moves s
              (mk_pstate (processed_files sp) (history sp ++ tail))).
    { intros tail. eexists (_ :: es ++ ep ++ tail). cbn [history processed_files].
      rewrite Hhp, Hhs, <- !app_assoc. split; [reflexivity|].
      intros h Hh. destruct (Hrec h Hh) as [Hh2|(path & Hin & Hm)].
      - left. rewrite Hps in Hh2. exact Hh2.
      - destruct (Hsel path h Hin) as [[]|(c & -> & Hread)].
        right. exists path, c. cbn [existsb]. rewrite !existsb_app, Hread, Hm.
        rewrite !orb_true_r. auto. }
    destruct rp as [[]|e].
    - unfold sleep. intros [= _ <-]. apply Hgrow.
    - intros [= _ <-]. specialize (Hgrow []). rewrite app_nil_r in Hgrow.
      destruct sp. exact Hgrow. }
  destruct (b s) as [[[]|e] s1] eqn:Eb.
  - intros [= _ <-]. eapply Hbody; reflexivity.
  - destruct (is_Exception e).
    + unfold bind, log, sleep. intros Eh.
      eapply grows_trans; [eapply Hbody; reflexivity|].
      destruct (host (history s1) (LogAppend _)) as [[]|e2];
        injection Eh as _ <-; cbn [history record processed_files].
      * eapply grows_quiet; [reflexivity|]. cbn [history record].
        rewrite <- app_assoc. reflexivity.
      * eapply grows_quiet; reflexivity.
    + intros [= _ <-]. eapply Hbody; reflexivity.
Qed.

Lemma main_loop_record (rounds : nat) (s s' : pstate) (r : result unit) :
  main_loop host rounds s = (r, s') -> grows_by_moves s s'.
Proof.
  revert s. induction rounds as [|rounds IH]; intros s; cbn [main_loop].
  - intros [= _ <-]. apply grows_refl.
  - unfold bind. destruct (iteration host s) as [[[]|e] s1] eqn:E1.
    + intros E2. eapply grows_trans; [eapply iteration_record; exact E1|].
      eapply IH. exact E2.
    + intros [= _ <-]. eapply iteration_record. exact E1.
Qed.

(** X17. Whatever the host answers, the loop records a digest as
    processed only for a file that was sent and moved: after any number
    of iterations, a member of [processed_files] was there before, or is
    the digest of a content that was read from a file whose [rename] the
    host then carried out. A file whose move is refused is not recorded. *)
Theorem recorded_only_when_moved (rounds : nat) (s : pstate) (h : text) :
  let s' := snd (main_loop host rounds s) in
  h ∈ processed_files s' ->
  h ∈ processed_files s
  \/ exists (path : text) (content : bytes) (evs : list event),
       history s' = history s ++ evs
       /\ h = sha256_hexdigest content
       /\ existsb (read_as path content) evs = true
       /\ existsb (moved path) evs = true.
Proof.
  intros s' Hh. subst s'.
  destruct (main_loop host rounds s) as [r s'] eqn:E.
  destruct (main_loop_record rounds s s' r E) as (evs & Hhist & Hgrow).
  cbn [snd] in *. destruct (Hgrow h Hh) as [?|(path & content & ? & ? & ?)]; [auto|].
  right. exists path, content, evs. auto.
Qed.


(** ** Scans that find nothing to send *)

(** A scan during which [processed_files] already holds the digest of
    whatever is read selects nothing. *)
Lemma select_known (known : gset text) (files : list text)
    (acc : list (text * text)) (s s' : pstate) (r : result (list (text * text))) :
  (forall h path content,
     host h (ReadBinary path) = Ok content -> sha256_hexdigest content ∈ known) ->
  processed_files s = known ->
  select_new_files host files acc s = (r, s') ->
  exists evs : list event,
    history s' = history s ++ evs
    /\ processed_files s' = processed_files s
    /\ Forall (fun ev => is_scan_call (ev_call ev) = true) evs
    /\ forall new_files, r = Ok new_files -> new_files = acc.
Proof.
  intros Hknown. revert s. induction files as [|p rest IH]; intros s Hs;
    cbn [select_new_files].
  - intros [= <- <-]. exists []. rewrite app_nil_r. repeat split; auto.
    intros new_files [= <-]. reflexivity.
  - unfold bind at 1, isfile. destruct (host (history s) (IsFile p)) eqn:Ef.
    + unfold bind at 1, read_binary. cbn [history record].
      match goal with
      | |- context [host ?h (ReadBinary p)] =>
          destruct (host h (ReadBinary p)) as [content|e] eqn:Er
      end.
      2: { intros [= <- <-]. cbn [history processed_files record].
           eexists [_; _]. rewrite <- app_assoc. repeat split; [|discriminate].
           repeat constructor. }
      unfold bind at 1, get_processed. cbn [history processed_files record].
      rewrite bool_decide_eq_true_2 by (rewrite Hs; eapply Hknown; exact Er).
      intros E. apply IH in E as (evs & Hh & Hp & Hall & Hres); [|exact Hs].
      cbn [history processed_files record] in Hh, Hp.
      eexists (_ :: _ :: evs). rewrite Hh, <- !app_assoc.
      repeat split; auto. all: repeat constructor; exact Hall.
    + intros E. apply IH in E as (evs & Hh & Hp & Hall & Hres); [|exact Hs].
      cbn [history processed_files record] in Hh, Hp.
      eexists (_ :: evs). rewrite Hh, <- !app_assoc.
      repeat split; auto. all: repeat constructor; exact Hall.
Qed.

(** The end of an iteration whose scan made only calls of scanning: the
    wait, or the report of the failure and the shorter wait. *)
Lemma iteration_after_scan (r0 : result (list (text * text))) (s s0 s' : pstate)
    (r : result unit) (evs0 : list event) :
  history s0 = history s ++ evs0 ->
  processed_files s0 = processed_files s ->
  Forall (fun ev => is_scan_call (ev_call ev) = true) evs0 ->
  (forall new_files, r0 = Ok new_files -> new_files = []) ->
  try_except_Exception
    (fun s1 =>
       match r0 with
       | Ok new_files =>
           ((match new_files with
             | [] => ret tt
             | _ :: _ => sleep host 5;; process_new_files host new_files
             end) ;; sleep host 30) s1
       | Raise e => (Raise e, s1)
       end)
    (log host (py_str "Error in main loop: ") ;; sleep host 5) s0 = (r, s') ->
  exists evs : list event,
    history s' = history s ++ evs
    /\ processed_files s' = processed_files s
    /\ Forall (fun ev => is_scan_call (ev_call ev) = true) evs.
Proof.
  intros Hh Hp Hall Hres. unfold try_except_Exception.
  destruct r0 as [new_files|e].
  - rewrite (Hres new_files eq_refl). unfold bind, ret, sleep.
    intros [= _ <-]. cbn [history processed_files record].
    eexists (evs0 ++ [_]). rewrite Hh, <- app_assoc. repeat split; auto.
    apply Forall_app. split; [exact Hall | repeat constructor].
  - destruct (is_Exception e).
    + unfold bind, log, sleep.
      destruct (host (history s0) (LogAppend _)) as [[]|e2];
        intros [= _ <-]; cbn [history processed_files record].
      * eexists (evs0 ++ [_; _]). rewrite Hh, <- !app_assoc. repeat split; auto.
        apply Forall_app. split; [exact Hall | repeat constructor].
      * eexists (evs0 ++ [_]). rewrite Hh, <- !app_assoc. repeat split; auto.
        apply Forall_app. split; [exact Hall | repeat constructor].
    + intros [= _ <-]. eauto.
Qed.

Lemma iteration_eq (s : pstate) :
  iteration host s
  = try_except_Exception
      (fun s1 =>
         match fst (select_new_files host
                      (host (history s) (Glob (join WATCH_FOLDER (py_str "*")))) []
                      (record (Ev (Glob (join WATCH_FOLDER (py_str "*")))
                                 (host (history s)
                                    (Glob (join WATCH_FOLDER (py_str "*"))))) s)) with
         | Ok new_files =>
             ((match new_files with
               | [] => ret tt
               | _ :: _ => sleep host 5;; process_new_files host new_files
               end) ;; sleep host 30) s1
         | Raise e => (Raise e, s1)
         end)
      (log host (py_str "Error in main loop: ") ;; sleep host 5)
      (snd (select_new_files host
              (host (history s) (Glob (join WATCH_FOLDER (py_str "*")))) []
              (record (Ev (Glob (join WATCH_FOLDER (py_str "*")))
                         (host (history s)
                            (Glob (join WATCH_FOLDER (py_str "*"))))) s))).
Proof.
  unfold iteration, try_except_Exception, bind at 1, glob. unfold bind at 1.
  destruct (select_new_files host _ [] _) as [[new_files|e] s1]; reflexivity.
Qed.

(** X18. Files are told apart by content, not by name: in an iteration
    during which the host answers every read with a content whose digest
    is already in [processed_files], nothing is selected. The service
    looks at the folder, reads the files and waits: it writes nothing to
    the port, moves no file, and leaves [processed_files] and its file as
    they are. *)
Theorem known_content_is_not_sent (s : pstate) :
  (forall h path content,
     host h (ReadBinary path) = Ok content ->
     sha256_hexdigest content ∈ processed_files s) ->
  exists evs : list event,
    history (snd (iteration host s)) = history s ++ evs
    /\ processed_files (snd (iteration host s)) = processed_files s
    /\ Forall (fun ev => is_scan_call (ev_call ev) = true) evs.
Proof.
  intros Hknown. rewrite iteration_eq.
  destruct (select_new_files host _ [] _) as [r0 s0] eqn:Es.
  destruct (select_known (processed_files s) _ _ (record _ s) _ _ Hknown eq_refl Es)
    as (evs0 & Hh & Hp & Hall & Hres).
  cbn [history processed_files record] in Hh, Hp. cbn [fst snd].
  match goal with
  | |- context [try_except_Exception ?b ?hd s0] =>
      destruct (try_except_Exception b hd s0) as [r s'] eqn:E
  end.
  cbn [snd].
  eapply (iteration_after_scan r0 s s0 s' r (_ :: evs0)); try eassumption.
  - rewrite Hh, <- app_assoc. reflexivity.
  - constructor; [reflexivity | exact Hall].
Qed.

(** A scan that meets a file which cannot be read does not end. *)
Lemma select_stalls (path : text) (e : exn) (files : list text)
    (acc : list (text * text)) (s s' : pstate) (r : result (list (text * text))) :
  (forall h, host h (IsFile path) = true) ->
  (forall h, host h (ReadBinary path) = Raise e) ->
  In path files ->
  select_new_files host files acc s = (r, s') ->
  exists evs : list event,
    history s' = history s ++ evs
    /\ processed_files s' = processed_files s
    /\ Forall (fun ev => is_scan_call (ev_call ev) = true) evs
    /\ forall new_files, r <> Ok new_files.
Proof.
  intros Hfile Hread. revert acc s. induction files as [|p rest IH];
    intros acc s Hin; [destruct Hin|]. cbn [select_new_files].
  unfold bind at 1, isfile. destruct (host (history s) (IsFile p)) eqn:Ef.
  - unfold bind at 1, read_binary. cbn [history record].
    match goal with
    | |- context [host ?h (ReadBinary p)] =>
        destruct (host h (ReadBinary p)) as [content|e'] eqn:Er
    end.
    2: { intros [= <- <-]. cbn [history processed_files record].
         eexists [_; _]. rewrite <- app_assoc. repeat split; [|discriminate].
         repeat constructor. }
    destruct Hin as [->|Hin]; [rewrite Hread in Er; discriminate|].
    unfold bind at 1, get_processed. cbn [history processed_files record].
    destruct (bool_decide _); intros E;
      destruct (IH _ _ Hin E) as (evs & Hh & Hp & Hall & Hres);
      cbn [history processed_files record] in Hh, Hp;
      (eexists (_ :: _ :: evs); rewrite Hh, <- !app_assoc);
      repeat split; auto; repeat constructor; exact Hall.
  - destruct Hin as [->|Hin]; [rewrite Hfile in Ef; discriminate|].
    intros E. destruct (IH _ _ Hin E) as (evs & Hh & Hp & Hall & Hres).
    cbn [history processed_files record] in Hh, Hp.
    eexists (_ :: evs). rewrite Hh, <- !app_assoc.
    repeat split; auto. all: repeat constructor; exact Hall.
Qed.

(** X19. One file that cannot be read holds up all the others: as long as
    the host lists a path of the watched folder as a file and refuses to
    read it, no iteration gets beyond its scan. Whatever else is in the
    folder, nothing is written to the port, no file is moved and
    [processed_files] stays as it is: the calls of the iteration are those
    of the scan, of the log and of the wait. *)
Theorem unreadable_file_stalls_the_scan (path : text) (e : exn) (s : pstate) :
  (forall h, In path (host h (Glob (join WATCH_FOLDER (py_str "*"))))) ->
  (forall h, host h (IsFile path) = true) ->
  (forall h, host h (ReadBinary path) = Raise e) ->
  exists evs : list event,
    history (snd (iteration host s)) = history s ++ evs
    /\ processed_files (snd (iteration host s)) = processed_files s
    /\ Forall (fun ev => is_scan_call (ev_call ev) = true) evs.
Proof.
  intros Hlist Hfile Hread. rewrite iteration_eq.
  destruct (select_new_files host _ [] _) as [r0 s0] eqn:Es.
  destruct (select_stalls path e _ _ _ _ _ Hfile Hread (Hlist _) Es)
    as (evs0 & Hh & Hp & Hall & Hres).
  cbn [history processed_files record] in Hh, Hp. cbn [fst snd].
  match goal with
  | |- context [try_except_Exception ?b ?hd s0] =>
      destruct (try_except_Exception b hd s0) as [r s'] eqn:E
  end.
  cbn [snd].
  eapply (iteration_after_scan r0 s s0 s' r (_ :: evs0)); try eassumption.
  - rewrite Hh, <- app_assoc. reflexivity.
  - constructor; [reflexivity | exact Hall].
  - intros new_files ->. exfalso. eapply Hres. reflexivity.
Qed.

(** ** The loop goes on *)

Lemma utf8_encode_raises (t : text) (e : exn) :
  utf8_encode t = Raise e -> e = UnicodeEncodeError.
Proof.
  induction t as [|c t IH]; cbn [utf8_encode]; [discriminate|].
  destruct (utf8_encode_char c); [|intros [= <-]; reflexivity].
  destruct (utf8_encode t); [discriminate|]. intros [= <-]. apply IH. reflexivity.
Qed.

Lemma wire_message_raises (filename : text) (data : bytes) (e : exn) :
  wire_message filename data = Raise e -> is_Exception e = true.
Proof.
  unfold wire_message, create_file_container.
  destruct (utf8_encode filename) as [name|e1] eqn:En.
  - unfold struct_pack_I. destruct (_ && _); [discriminate|].
    intros [= <-]. reflexivity.
  - intros [= <-]. rewrite (utf8_encode_raises _ _ En). reflexivity.
Qed.

Section Survives.

Hypothesis host_logs : log_works host.
Hypothesis host_raises : raises_exceptions_only host.

Lemma raises_bind {A B} (m : P A) (k : A -> P B) :
  raises_Exception m -> (forall a, raises_Exception (k a)) ->
  raises_Exception (bind m k).
Proof.
  intros Hm Hk s s' e. unfold bind. destruct (m s) as [[a|e1] s1] eqn:E.
  - apply Hk.
  - intros [= <- <-]. eapply Hm. exact E.
Qed.

Lemma raises_call {A} (m : P A) :
  (forall s, exists c : call,
     forall e, fst (m s) = Raise e -> failure (host (history s) c) = Some e) ->
  raises_Exception m.
Proof.
  intros Hm s s' e E. destruct (Hm s) as (c & Hc).
  eapply host_raises. apply Hc. rewrite E. reflexivity.
Qed.

Lemma raises_read_binary (p : text) : raises_Exception (read_binary host p).
Proof.
  apply raises_call. intros s. exists (ReadBinary p). unfold read_binary. cbn [fst].
  intros e ->. reflexivity.
Qed.

Lemma raises_port_write (m : bytes) : raises_Exception (port_write host m).
Proof.
  apply raises_call. intros s. exists (PortWrite m). unfold port_write. cbn [fst].
  intros e ->. reflexivity.
Qed.

Lemma raises_port_flush : raises_Exception (port_flush host).
Proof.
  apply raises_call. intros s. exists PortFlush. unfold port_flush. cbn [fst].
  intros e ->. reflexivity.
Qed.

Lemma raises_rename (a b : text) : raises_Exception (rename host a b).
Proof.
  apply raises_call. intros s. exists (Rename a b). unfold rename. cbn [fst].
  intros e ->. reflexivity.
Qed.

Lemma raises_write_lines (p : text) (lines : list text) :
  raises_Exception (write_lines host p lines).
Proof.
  apply raises_call. intros s. exists (WriteLines p lines). unfold write_lines.
  cbn [fst]. intros e ->. reflexivity.
Qed.

Lemma log_returns (line : text) (s : pstate) :
  log host line s = (Ok tt, record (Ev (LogAppend line) (Ok tt)) s).
Proof. unfold log. rewrite host_logs. reflexivity. Qed.

Lemma raises_never {A} (m : P A) :
  (forall s, exists a s', m s = (Ok a, s')) -> raises_Exception m.
Proof. intros Hm s s' e E. destruct (Hm s) as (a & s1 & E1). congruence. Qed.

(** A [try] whose handler returns, around a body that raises only
    [Exception]s, returns. *)
Lemma try_returns {A} (body handler : P A) (s : pstate) :
  raises_Exception body ->
  (forall s1, exists a s', handler s1 = (Ok a, s')) ->
  exists a s', try_except_Exception body handler s = (Ok a, s').
Proof.
  intros Hb Hh. unfold try_except_Exception.
  destruct (body s) as [[a|e] s1] eqn:E; [eauto|].
  rewrite (Hb _ _ _ E). apply Hh.
Qed.

Lemma save_processed_files_returns (processed : gset text) (s : pstate) :
  exists s', save_processed_files host processed s = (Ok tt, s').
Proof.
  destruct (try_returns (write_lines host processed_files_path
                           (map (fun h => h ++ [10]) (elements processed)))
              (log host (py_str "Error saving processed files: ")) s)
    as ([] & s' & E).
  - apply raises_write_lines.
  - intros s1. rewrite log_returns. eauto.
  - exists s'. exact E.
Qed.

Lemma process_file_returns (file_path file_hash : text) (s : pstate) :
  exists s', process_file host file_path file_hash s = (Ok tt, s').
Proof.
  unfold process_file.
  match goal with
  | |- context [try_except_Exception ?b ?hd s] =>
      destruct (try_returns b hd s) as ([] & s' & E)
  end.
  - apply raises_bind; [apply raises_read_binary|]. intros content.
    apply raises_bind.
    { intros s0 s1 e. unfold lift. intros [= Hw _].
      eapply wire_message_raises. exact Hw. }
    intros message.
    apply raises_bind; [apply raises_port_write|]. intros _.
    apply raises_bind; [apply raises_port_flush|]. intros _.
    apply raises_bind.
    { apply raises_never. intros s0. rewrite log_returns. eauto. }
    intros _.
    apply raises_bind; [apply raises_rename|]. intros _.
    apply raises_bind; [apply raises_never; intros s0; eexists _, _; reflexivity|].
    intros _.
    apply raises_bind; [apply raises_never; intros s0; eexists _, _; reflexivity|].
    intros processed. apply raises_never. intros s0.
    destruct (save_processed_files_returns processed s0) as (s1 & E1). eauto.
  - intros s1. rewrite log_returns. eauto.
  - exists s'. exact E.
Qed.

Lemma process_new_files_returns (new_files : list (text * text)) (s : pstate) :
  exists s', process_new_files host new_files s = (Ok tt, s').
Proof.
  revert s. induction new_files as [|[p h] rest IH]; intros s; cbn [process_new_files].
  - eexists. reflexivity.
  - unfold bind. destruct (process_file_returns p h s) as (s1 & ->). apply IH.
Qed.

Lemma raises_select_new_files (files : list text) (acc : list (text * text)) :
  raises_Exception (select_new_files host files acc).
Proof.
  revert acc. induction files as [|p rest IH]; intros acc; cbn [select_new_files].
  - apply raises_never. intros s. eexists _, _. reflexivity.
  - apply raises_bind; [apply raises_never; intros s; eexists _, _; reflexivity|].
    intros [|]; [|apply IH].
    apply raises_bind; [apply raises_read_binary|]. intros content.
    apply raises_bind; [apply raises_never; intros s; eexists _, _; reflexivity|].
    intros processed. destruct (bool_decide _); apply IH.
Qed.

Lemma iteration_returns (s : pstate) :
  exists s', iteration host s = (Ok tt, s').
Proof.
  unfold iteration.
  match goal with
  | |- context [try_except_Exception ?b ?hd s] =>
      destruct (try_returns b hd s) as ([] & s' & E)
  end.
  - apply raises_bind; [apply raises_never; intros s0; eexists _, _; reflexivity|].
    intros files.
    apply raises_bind; [apply raises_select_new_files|]. intros new_files.
    apply raises_bind; [|intros _; apply raises_never; intros s0;
                         eexists _, _; reflexivity].
    apply raises_never. intros s0. destruct new_files as [|nf rest].
    + eexists _, _. reflexivity.
    + unfold bind at 1, sleep.
      match goal with
      | |- context [process_new_files host ?l ?v] =>
          destruct (process_new_files_returns l v) as (s1 & ->)
      end.
      eauto.
  - intros s1. unfold bind. rewrite log_returns. unfold sleep. eauto.
  - exists s'. exact E.
Qed.

Lemma main_loop_returns (rounds : nat) (s : pstate) :
  exists s', main_loop host rounds s = (Ok tt, s').
Proof.
  revert s. induction rounds as [|rounds IH]; intros s; cbn [main_loop].
  - eexists. reflexivity.
  - unfold bind. destruct (iteration_returns s) as (s1 & ->). apply IH.
Qed.

End Survives.

(** X20. No failure ends the loop. When the host raises only
    [Exception]s and never refuses a line of the log, every call of
    [process_file] returns, whatever fails in it; every iteration
    returns, whatever fails in its scan; and the loop, after any number of
    iterations, ends normally. *)
Theorem loop_survives_every_failure (rounds : nat) (s : pstate) :
  log_works host ->
  raises_exceptions_only host ->
  (forall file_path file_hash s0,
     fst (process_file host file_path file_hash s0) = Ok tt)
  /\ (forall s0, fst (iteration host s0) = Ok tt)
  /\ fst (main_loop host rounds s) = Ok tt.
Proof.
  intros Hlog Hraise. split; [|split].
  - intros p h s0. destruct (process_file_returns Hlog Hraise p h s0) as (s' & ->).
    reflexivity.
  - intros s0. destruct (iteration_returns Hlog Hraise s0) as (s' & ->). reflexivity.
  - destruct (main_loop_returns Hlog Hraise rounds s) as (s' & ->). reflexivity.
Qed.

(** ** What is moved *)

Lemma moves_nil : moves_what_it_sent [].
Proof. intros i src dst r Hi. discriminate. Qed.

Lemma moves_one (ev : event) :
  (forall src dst, ev_call ev <> Rename src dst) -> moves_what_it_sent [ev].
Proof.
  intros Hne i src dst r Hi. destruct i as [|i]; [|discriminate].
  injection Hi as ->. exfalso. eapply Hne. reflexivity.
Qed.

Lemma moves_app (a b : list event) :
  moves_what_it_sent a -> moves_what_it_sent b -> moves_what_it_sent (a ++ b).
Proof.
  intros Ha Hb i src dst r Hi.
  apply lookup_app_Some in Hi as [Hi|[Hle Hi]].
  - destruct (Ha i src dst r Hi) as (j & c & m & l & -> & H0' & Hm & H1 & H2 & H3 & Hd).
    exists j, c, m, l. repeat split; auto; apply lookup_app_l_Some; assumption.
  - destruct (Hb _ src dst r Hi) as (j & c & m & l & Hj & H0' & Hm & H1 & H2 & H3 & Hd).
    exists (length a + j)%nat, c, m, l.
    repeat split; auto; try lia.
    all: rewrite lookup_app_r by lia.
    all: match goal with
         | |- _ !! ?k = _ =>
             first [ replace k with j by lia
                   | replace k with (1 + j)%nat by lia
                   | replace k with (2 + j)%nat by lia
                   | replace k with (3 + j)%nat by lia ]
         end; assumption.
Qed.

Ltac moves_call :=
  intros ? ? ?; intros [= _ <-]; eexists [_]; split;
  [reflexivity | apply moves_one; intros ? ?; cbn; discriminate].

Ltac moves_bind :=
  apply appends_bind; [intros; apply moves_app; assumption | | intros ?].

Ltac moves_state := apply appends_state; [apply moves_nil | reflexivity].

Lemma moves_log (line : text) : appends moves_what_it_sent (log host line).
Proof. unfold log. moves_call. Qed.

Lemma moves_sleep (n : Z) : appends moves_what_it_sent (sleep host n).
Proof. unfold sleep. moves_call. Qed.

Lemma moves_save_processed_files (processed : gset text) :
  appends moves_what_it_sent (save_processed_files host processed).
Proof.
  unfold save_processed_files.
  apply appends_try; [intros; apply moves_app; assumption | | apply moves_log].
  unfold write_lines. moves_call.
Qed.

Lemma moves_load_processed_files :
  appends moves_what_it_sent (load_processed_files host).
Proof.
  unfold load_processed_files.
  apply appends_try; [intros; apply moves_app; assumption | |].
  - moves_bind; [unfold path_exists; moves_call|]. destruct a.
    + moves_bind; [unfold read_lines; moves_call | apply appends_ret, moves_nil].
    + apply appends_ret, moves_nil.
  - moves_bind; [apply moves_log | apply appends_ret, moves_nil].
Qed.

Lemma moves_process_file (file_path file_hash : text) :
  appends moves_what_it_sent (process_file host file_path file_hash).
Proof.
  unfold process_file.
  apply appends_try; [intros; apply moves_app; assumption | | apply moves_log].
  intros s s' r. unfold bind at 1, read_binary.
  destruct (host (history s) (ReadBinary file_path)) as [content|e] eqn:Er.
  2: { intros [= _ <-]. eexists [_]. split; [reflexivity|].
       apply moves_one. intros ? ?. cbn. discriminate. }
  unfold bind at 1, lift.
  destruct (wire_message (basename file_path) content) as [message|e] eqn:Em.
  2: { intros [= _ <-]. eexists [_]. split; [reflexivity|].
       apply moves_one. intros ? ?. cbn. discriminate. }
  unfold bind at 1, port_write. cbn [history record].
  match goal with
  | |- context [host ?h (PortWrite message)] =>
      destruct (host h (PortWrite message)) as [[]|e] eqn:Ew
  end.
  2: { intros [= _ <-]. eexists [_; _]. cbn [history record].
       rewrite <- app_assoc. split; [reflexivity|].
       apply (moves_app [_] [_]); apply moves_one; intros ? ?; cbn; discriminate. }
  unfold bind at 1, port_flush. cbn [history record].
  match goal with
  | |- context [host ?h PortFlush] => destruct (host h PortFlush) as [[]|e] eqn:Efl
  end.
  2: { intros [= _ <-]. eexists [_; _; _]. cbn [history record].
       rewrite <- !app_assoc. split; [reflexivity|].
       apply (moves_app [_] [_; _]); [|apply (moves_app [_] [_])];
         apply moves_one; intros ? ?; cbn; discriminate. }
  unfold bind at 1, log at 1. cbn [history record].
  match goal with
  | |- context [host ?h (LogAppend ?l)] =>
      destruct (host h (LogAppend l)) as [[]|e] eqn:El
  end.
  2: { intros [= _ <-]. eexists [_; _; _; _]. cbn [history record].
       rewrite <- !app_assoc. split; [reflexivity|].
       apply (moves_app [_] [_; _; _]);
         [|apply (moves_app [_] [_; _]); [|apply (moves_app [_] [_])]];
         apply moves_one; intros ? ?; cbn; discriminate. }
  unfold bind at 1, rename. cbn [history record].
  match goal with
  | |- context [host ?h (Rename ?a ?b)] => set (moved_as := host h (Rename a b))
  end.
  assert (Hfive : moves_what_it_sent
            [Ev (ReadBinary file_path) (Ok content); Ev (PortWrite message) (Ok tt);
             Ev PortFlush (Ok tt);
             Ev (LogAppend (py_str "Sent file: " ++ basename file_path ++ py_str " ("
                            ++ str_int (len content) ++ py_str " bytes)" ++ [10]))
                (Ok tt);
             Ev (Rename file_path (join PROCESSED_FOLDER (basename file_path)))
                moved_as]).
  { intros i src dst r0 Hi.
    destruct i as [|[|[|[|[|i]]]]]; try discriminate Hi.
    injection Hi as <- <- _. exists 0%nat, content, message.
    eexists. repeat split; try reflexivity. exact Em. }
  intros Erest.
  assert (Hrest : appends moves_what_it_sent
            (fun s0 =>
               match moved_as with
               | Ok a =>
                   (add_processed file_hash ;;
                    do* processed := get_processed in
                    save_processed_files host processed) s0
               | Raise e => (Raise e, s0)
               end)).
  { destruct moved_as as [[]|e].
    - moves_bind; [moves_state|]. moves_bind; [moves_state|].
      apply moves_save_processed_files.
    - intros s0 s1 r1 [= _ <-]. exists []. rewrite app_nil_r.
      split; [reflexivity | apply moves_nil]. }
  match type of Erest with
  | context [record ?ev ?v] =>
      destruct (Hrest (record ev v) s' r) as (evs & Hh & Hq)
  end.
  { rewrite <- Erest. destruct moved_as as [[]|e]; reflexivity. }
  cbn [history record] in Hh.
  eexists (_ :: _ :: _ :: _ :: _ :: evs). split.
  - rewrite Hh, <- !app_assoc. reflexivity.
  - apply (moves_app [_; _; _; _; _] evs); [exact Hfive | exact Hq].
Qed.

Lemma moves_process_new_files (new_files : list (text * text)) :
  appends moves_what_it_sent (process_new_files host new_files).
Proof.
  induction new_files as [|[p h] rest IH]; cbn [process_new_files].
  - apply appends_ret, moves_nil.
  - moves_bind; [apply moves_process_file | exact IH].
Qed.

Lemma moves_select_new_files (files : list text) (new_files : list (text * text)) :
  appends moves_what_it_sent (select_new_files host files new_files).
Proof.
  revert new_files. induction files as [|p rest IH]; intros new_files;
    cbn [select_new_files].
  - apply appends_ret, moves_nil.
  - moves_bind; [unfold isfile; moves_call|]. destruct a; [|apply IH].
    moves_bind; [unfold read_binary; moves_call|].
    moves_bind; [moves_state|].
    destruct (bool_decide _); apply IH.
Qed.

Lemma moves_iteration : appends moves_what_it_sent (iteration host).
Proof.
  unfold iteration.
  apply appends_try; [intros; apply moves_app; assumption | |].
  - moves_bind; [unfold glob; moves_call|].
    moves_bind; [apply moves_select_new_files|].
    moves_bind; [|apply moves_sleep].
    destruct a0; [apply appends_ret, moves_nil|].
    moves_bind; [apply moves_sleep | apply moves_process_new_files].
  - moves_bind; [apply moves_log | apply moves_sleep].
Qed.

Lemma moves_main_loop (rounds : nat) :
  appends moves_what_it_sent (main_loop host rounds).
Proof.
  induction rounds as [|rounds IH]; cbn [main_loop].
  - apply appends_ret, moves_nil.
  - moves_bind; [apply moves_iteration | exact IH].
Qed.

Lemma moves_main (rounds : nat) : appends moves_what_it_sent (main host rounds).
Proof.
  intros s s' r. unfold main.
  assert (Hopen : appends moves_what_it_sent (open_port host SERIAL_PORT))
    by (unfold open_port; moves_call).
  destruct (open_port host SERIAL_PORT s) as [[[]|e] s1] eqn:Eo;
    destruct (Hopen _ _ _ Eo) as (e1 & H1 & Q1).
  - intros Erest.
    assert (Hrest : appends moves_what_it_sent
              (do* loaded := load_processed_files host in
               (fun s2 => (Ok tt, mk_pstate loaded (history s2))) ;;
               main_loop host rounds ;;
               port_close host)).
    { moves_bind; [apply moves_load_processed_files|].
      moves_bind; [moves_state|].
      moves_bind; [apply moves_main_loop | unfold port_close; moves_call]. }
    destruct (Hrest _ _ _ Erest) as (e2 & H2 & Q2).
    exists (e1 ++ e2). rewrite H2, H1, <- app_assoc. split; [reflexivity|].
    apply moves_app; assumption.
  - destruct (is_Exception e).
    + intros El. destruct (moves_log _ _ _ _ El) as (e2 & H2 & Q2).
      exists (e1 ++ e2). rewrite H2, H1, <- app_assoc. split; [reflexivity|].
      apply moves_app; assumption.
    + intros [= <- <-]. eauto.
Qed.

(** X21. Whatever the host answers, a file leaves the watched folder only
    once it has been sent: every [rename] in a run of [SvcDoRun] is the
    fifth of five consecutive calls about one file, the first four of which
    the host answered with success: the read of the file, the [write] to
    the port of the message of its base name and content, the [flush], the
    line of the log; and it moves the file under its base name into the
    folder of processed files. *)
Theorem file_is_moved_only_after_it_is_sent (rounds : nat) (i : nat) (src dst : text)
    (r : result unit) :
  let h := history (snd (SvcDoRun host rounds (mk_pstate ∅ []))) in
  h !! i = Some (Ev (Rename src dst) r) ->
  exists (j : nat) (content message : bytes) (line : text),
    i = (4 + j)%nat
    /\ h !! j = Some (Ev (ReadBinary src) (Ok content))
    /\ wire_message (basename src) content = Ok message
    /\ h !! (1 + j)%nat = Some (Ev (PortWrite message) (Ok tt))
    /\ h !! (2 + j)%nat = Some (Ev PortFlush (Ok tt))
    /\ h !! (3 + j)%nat = Some (Ev (LogAppend line) (Ok tt))
    /\ dst = join PROCESSED_FOLDER (basename src).
Proof.
  intros h Hi. subst h.
  assert (Hrun : appends moves_what_it_sent (SvcDoRun host rounds)).
  { unfold SvcDoRun.
    moves_bind; [unfold path_exists; moves_call|].
    moves_bind; [|apply moves_main].
    destruct a; [apply appends_ret, moves_nil | unfold makedirs; moves_call]. }
  destruct (SvcDoRun host rounds (mk_pstate ∅ [])) as [res s'] eqn:E.
  destruct (Hrun _ _ _ E) as (evs & Hh & Hq).
  cbn [history app snd] in Hh, Hi |- *. rewrite Hh in Hi |- *.
  exact (Hq i src dst r Hi).
Qed.

(** ** The list of processed files *)

Lemma lstrip_length (t : text) : (length (lstrip t) <= length t)%nat.
Proof.
  induction t as [|c t IH]; cbn [lstrip length]; [lia|].
  destruct (is_space c); cbn [length]; lia.
Qed.

Lemma strip_length (t : text) : (length (strip t) <= length t)%nat.
Proof.
  unfold strip. rewrite length_rev.
  pose proof (lstrip_length (rev (lstrip t))) as H1. rewrite length_rev in H1.
  pose proof (lstrip_length t). lia.
Qed.

(** A text that [strip] leaves as it is comes back from the line that
    [save_processed_files] writes for it. *)
Lemma strip_line (x : text) : strip x = x -> strip (x ++ [10]) = x.
Proof.
  destruct x as [|c x]; [reflexivity|]. intros Hx.
  assert (Hc : is_space c = false).
  { destruct (is_space c) eqn:Hc; [|reflexivity]. exfalso.
    pose proof (f_equal length Hx) as Hl. unfold strip in Hl.
    rewrite length_rev in Hl. cbn [lstrip] in Hl. rewrite Hc in Hl.
    pose proof (lstrip_length (rev (lstrip x))) as H1. rewrite length_rev in H1.
    pose proof (lstrip_length x). cbn [length] in Hl. lia. }
  unfold strip in *. cbn [lstrip app] in *. rewrite Hc in *.
  change (c :: x ++ [10]) with ((c :: x) ++ [10]). rewrite rev_app_distr.
  cbn [rev app lstrip]. change (is_space 10) with true. cbn iota.
  exact Hx.
Qed.

(** X22. The list of processed files survives its file: when the host
    gives back, in any order, the lines that [save_processed_files] wrote
    for a set whose members [strip] leaves as they are, then
    [load_processed_files] returns that set. *)
Theorem saved_list_loads_back (processed : gset text) (lines : list text)
    (s : pstate) :
  (forall x, x ∈ processed -> strip x = x) ->
  lines ≡ₚ map (fun h => h ++ [10]) (elements processed) ->
  host (history s) (PathExists processed_files_path) = true ->
  host (history s ++ [Ev (PathExists processed_files_path) true])
    (ReadLines processed_files_path) = Ok lines ->
  fst (load_processed_files host s) = Ok processed.
Proof.
  intros Hclean Hperm Hex Hread.
  unfold load_processed_files, try_except_Exception, bind at 1, path_exists.
  rewrite Hex. unfold bind, read_lines. cbn [history record].
  rewrite Hread. cbn [fst ret]. f_equal.
  apply set_eq. intros x. rewrite elem_of_list_to_set, Hperm, <- list_fmap_compose.
  rewrite list_elem_of_fmap. split.
  - intros (y & -> & Hy). apply elem_of_elements in Hy. unfold compose.
    rewrite (strip_line y (Hclean y Hy)). exact Hy.
  - intros Hx. exists x. split; [|apply elem_of_elements; exact Hx].
    unfold compose. symmetry. apply strip_line, Hclean, Hx.
Qed.

End ProducerRuns.

Lemma port_gets_the_files_read_witness :
  let h := Producer.history
             (snd (Producer.SvcDoRun (H := sample_libraries)
                     (H0 := Producer.sample_paths) Producer.sample_host 1
                     (Producer.mk_pstate ∅ []))) in
  let message := [x00; x00; x00; x0c; x30; x0a; x0c; x05] ++ py_bytes "a.txt"
                 ++ [x04; x01] ++ py_bytes "x" in
  h !! 9%nat = Some (Producer.Ev (Producer.PortWrite message) (Ok tt))
  /\ exists (j : nat) (path : text) (content : bytes),
       9%nat = S j
       /\ h !! j = Some (Producer.Ev (Producer.ReadBinary path) (Ok content))
       /\ wire_message (Producer.basename (Paths := Producer.sample_paths) path)
            content = Ok message
       /\ parse_file_container (slice_from 4 message)
          = Ok (Producer.basename (Paths := Producer.sample_paths) path, content).
Proof.
  cbn zeta.
  assert (Hi : Producer.history
                 (snd (Producer.SvcDoRun (H := sample_libraries)
                         (H0 := Producer.sample_paths) Producer.sample_host 1
                         (Producer.mk_pstate ∅ []))) !! 9%nat
               = Some (Producer.Ev
                         (Producer.PortWrite
                            ([x00; x00; x00; x0c; x30; x0a; x0c; x05] ++ py_bytes "a.txt"
                             ++ [x04; x01] ++ py_bytes "x")) (Ok tt)))
    by (vm_compute; reflexivity).
  split; [exact Hi|].
  exact (port_gets_the_files_read (H := sample_libraries) (H0 := Producer.sample_paths)
           Producer.sample_host 1 9 _ (Ok tt) Hi).
Defined.

Lemma recorded_only_when_moved_witness :
  let s := Producer.mk_pstate ∅ [] in
  let s' := snd (Producer.main_loop (H := sample_libraries)
                   (H0 := Producer.sample_paths) Producer.sample_host 1 s) in
  py_str "sha256" ∈ Producer.processed_files s'
  /\ (py_str "sha256" ∈ Producer.processed_files s
      \/ exists (path : text) (content : bytes) (evs : list Producer.event),
           Producer.history s' = Producer.history s ++ evs
           /\ py_str "sha256"
              = sha256_hexdigest (Libraries := sample_libraries) content
           /\ existsb (Producer.read_as path content) evs = true
           /\ existsb (Producer.moved path) evs = true).
Proof.
  cbn zeta.
  assert (Hb : bool_decide
                 (py_str "sha256"
                  ∈ Producer.processed_files
                      (snd (Producer.main_loop (H := sample_libraries)
                              (H0 := Producer.sample_paths) Producer.sample_host 1
                              (Producer.mk_pstate ∅ [])))) = true)
    by (vm_compute; reflexivity).
  apply bool_decide_eq_true_1 in Hb.
  split; [exact Hb|].
  exact (recorded_only_when_moved (H := sample_libraries) (H0 := Producer.sample_paths)
           Producer.sample_host 1 (Producer.mk_pstate ∅ []) (py_str "sha256") Hb).
Defined.

Lemma known_content_is_not_sent_witness :
  let s := Producer.mk_pstate {[py_str "sha256"]} [] in
  (forall h path content,
     Producer.sample_host h (Producer.ReadBinary path) = Ok content ->
     sha256_hexdigest (Libraries := sample_libraries) content
     ∈ Producer.processed_files s)
  /\ exists evs : list Producer.event,
       Producer.history
         (snd (Producer.iteration (H := sample_libraries)
                 (H0 := Producer.sample_paths) Producer.sample_host s))
       = Producer.history s ++ evs
       /\ Producer.processed_files
            (snd (Producer.iteration (H := sample_libraries)
                    (H0 := Producer.sample_paths) Producer.sample_host s))
          = Producer.processed_files s
       /\ Forall (fun ev => Producer.is_scan_call (Producer.ev_call ev) = true) evs.
Proof.
  cbn zeta.
  assert (Hknown : forall h path content,
             Producer.sample_host h (Producer.ReadBinary path) = Ok content ->
             sha256_hexdigest (Libraries := sample_libraries) content
             ∈ Producer.processed_files (Producer.mk_pstate {[py_str "sha256"]} []))
    by (intros h path content _; apply (proj2 (elem_of_singleton (C := gset text) (py_str "sha256") (py_str "sha256"))); reflexivity).
  split; [exact Hknown|].
  exact (known_content_is_not_sent (H := sample_libraries) (H0 := Producer.sample_paths)
           Producer.sample_host (Producer.mk_pstate {[py_str "sha256"]} []) Hknown).
Defined.

Lemma unreadable_file_stalls_the_scan_witness :
  let s := Producer.mk_pstate ∅ [] in
  let path := py_str "C:\watched\a.txt" in
  (forall h,
     In path (Producer.locked_host h
                (Producer.Glob
                   (Producer.join (Paths := Producer.sample_paths)
                      (Producer.WATCH_FOLDER) (py_str "*")))))
  /\ (forall h, Producer.locked_host h (Producer.IsFile path) = true)
  /\ (forall h, Producer.locked_host h (Producer.ReadBinary path) = Raise OSError)
  /\ exists evs : list Producer.event,
       Producer.history
         (snd (Producer.iteration (H := sample_libraries)
                 (H0 := Producer.sample_paths) Producer.locked_host s))
       = Producer.history s ++ evs
       /\ Producer.processed_files
            (snd (Producer.iteration (H := sample_libraries)
                    (H0 := Producer.sample_paths) Producer.locked_host s))
          = Producer.processed_files s
       /\ Forall (fun ev => Producer.is_scan_call (Producer.ev_call ev) = true) evs.
Proof.
  cbn zeta.
  assert (Hlist : forall h,
             In (py_str "C:\watched\a.txt")
               (Producer.locked_host h
                  (Producer.Glob
                     (Producer.join (Paths := Producer.sample_paths)
                        (Producer.WATCH_FOLDER) (py_str "*")))))
    by (intros h; left; reflexivity).
  assert (Hfile : forall h,
             Producer.locked_host h (Producer.IsFile (py_str "C:\watched\a.txt"))
             = true) by reflexivity.
  assert (Hread : forall h,
             Producer.locked_host h (Producer.ReadBinary (py_str "C:\watched\a.txt"))
             = Raise OSError) by reflexivity.
  split; [exact Hlist|]. split; [exact Hfile|]. split; [exact Hread|].
  exact (unreadable_file_stalls_the_scan (H := sample_libraries)
           (H0 := Producer.sample_paths) Producer.locked_host
           (py_str "C:\watched\a.txt") OSError (Producer.mk_pstate ∅ [])
           Hlist Hfile Hread).
Defined.

Lemma loop_survives_every_failure_witness :
  Producer.log_works Producer.stuck_host
  /\ Producer.raises_exceptions_only Producer.stuck_host
  /\ (forall file_path file_hash s0,
        fst (Producer.process_file (H0 := Producer.sample_paths) Producer.stuck_host
               file_path file_hash s0) = Ok tt)
  /\ (forall s0,
        fst (Producer.iteration (H := sample_libraries) (H0 := Producer.sample_paths)
               Producer.stuck_host s0) = Ok tt)
  /\ fst (Producer.main_loop (H := sample_libraries) (H0 := Producer.sample_paths)
            Producer.stuck_host 2 (Producer.mk_pstate ∅ [])) = Ok tt.
Proof.
  assert (Hlog : Producer.log_works Producer.stuck_host) by (intros h line; reflexivity).
  assert (Hraise : Producer.raises_exceptions_only Producer.stuck_host).
  { intros h c e. destruct c; cbn; try discriminate. intros [= <-]. reflexivity. }
  split; [exact Hlog|]. split; [exact Hraise|].
  exact (loop_survives_every_failure (H := sample_libraries)
           (H0 := Producer.sample_paths) Producer.stuck_host 2
           (Producer.mk_pstate ∅ []) Hlog Hraise).
Defined.

Lemma file_is_moved_only_after_it_is_sent_witness :
  let h := Producer.history
             (snd (Producer.SvcDoRun (H := sample_libraries)
                     (H0 := Producer.sample_paths) Producer.sample_host 1
                     (Producer.mk_pstate ∅ []))) in
  let src := py_str "C:\watched\a.txt" in
  let dst := py_str "C:\watched\processed\a.txt" in
  h !! 12%nat = Some (Producer.Ev (Producer.Rename src dst) (Ok tt))
  /\ exists (j : nat) (content message : bytes) (line : text),
       12%nat = (4 + j)%nat
       /\ h !! j = Some (Producer.Ev (Producer.ReadBinary src) (Ok content))
       /\ wire_message (Producer.basename (Paths := Producer.sample_paths) src) content
          = Ok message
       /\ h !! (1 + j)%nat = Some (Producer.Ev (Producer.PortWrite message) (Ok tt))
       /\ h !! (2 + j)%nat = Some (Producer.Ev Producer.PortFlush (Ok tt))
       /\ h !! (3 + j)%nat = Some (Producer.Ev (Producer.LogAppend line) (Ok tt))
       /\ dst = Producer.join (Paths := Producer.sample_paths)
                  (Producer.PROCESSED_FOLDER (H0 := Producer.sample_paths))
                  (Producer.basename (Paths := Producer.sample_paths) src).
Proof.
  cbn zeta.
  assert (Hi : Producer.history
                 (snd (Producer.SvcDoRun (H := sample_libraries)
                         (H0 := Producer.sample_paths) Producer.sample_host 1
                         (Producer.mk_pstate ∅ []))) !! 12%nat
               = Some (Producer.Ev
                         (Producer.Rename (py_str "C:\watched\a.txt")
                            (py_str "C:\watched\processed\a.txt")) (Ok tt)))
    by (vm_compute; reflexivity).
  split; [exact Hi|].
  exact (file_is_moved_only_after_it_is_sent (H := sample_libraries)
           (H0 := Producer.sample_paths) Producer.sample_host 1 12 _ _ (Ok tt) Hi).
Defined.

Lemma saved_list_loads_back_witness :
  let processed : gset text := {[py_str "ab"]} in
  let lines := [py_str "ab" ++ [10]] in
  let s := Producer.mk_pstate ∅ [] in
  (forall x, x ∈ processed -> Producer.strip x = x)
  /\ lines ≡ₚ map (fun h => h ++ [10]) (elements processed)
  /\ Producer.reloading_host (Producer.history s)
       (Producer.PathExists Producer.processed_files_path) = true
  /\ Producer.reloading_host
       (Producer.history s
        ++ [Producer.Ev (Producer.PathExists Producer.processed_files_path) true])
       (Producer.ReadLines Producer.processed_files_path) = Ok lines
  /\ fst (Producer.load_processed_files Producer.reloading_host s) = Ok processed.
Proof.
  cbn zeta.
  assert (Hclean : forall x, x ∈ ({[py_str "ab"]} : gset text) -> Producer.strip x = x)
    by (intros x Hx; apply elem_of_singleton in Hx; subst x; reflexivity).
  assert (Hperm : [py_str "ab" ++ [10]]
                  ≡ₚ map (fun h => h ++ [10]) (elements ({[py_str "ab"]} : gset text)))
    by (rewrite elements_singleton; reflexivity).
  assert (Hex : Producer.reloading_host
                  (Producer.history (Producer.mk_pstate ∅ []))
                  (Producer.PathExists Producer.processed_files_path) = true)
    by reflexivity.
  assert (Hread : Producer.reloading_host
                    (Producer.history (Producer.mk_pstate ∅ [])
                     ++ [Producer.Ev
                           (Producer.PathExists Producer.processed_files_path) true])
                    (Producer.ReadLines Producer.processed_files_path)
                  = Ok [py_str "ab" ++ [10]]) by reflexivity.
  split; [exact Hclean|]. split; [exact Hperm|]. split; [exact Hex|].
  split; [exact Hread|].
  exact (saved_list_loads_back Producer.reloading_host {[py_str "ab"]}
           [py_str "ab" ++ [10]] (Producer.mk_pstate ∅ []) Hclean Hperm Hex Hread).
Defined.
